(** * Manifest2Lua: the acquisition pipeline of [main.py]

    A shallow embedding of [main.py]: the mirror fetcher [get], the per-file
    step [get_manifest], the source search [download_and_process], the script
    generator [parse_vdf_to_lua] and the tail of [main], followed by the
    properties of the specification that concern them.

    Conventions of the model.
    - A Python [str] is a [string] whose characters are the code points
      below 256; [bytes] are a [string] of bytes.
    - The network, the metadata API and the key-file decoder of the [vdf]
      package are outside the program: they are the fields of the
      environment [env] the pipeline is run in.
    - Asynchronous code is run to completion in program order: the program
      awaits every call at once, so there is one logical flow. *)

From Stdlib Require Import List String Ascii Bool Arith Lia.
Import ListNotations.
Open Scope string_scope.
Open Scope list_scope.

Set Implicit Arguments.

(** ** Python strings *)

Module PyStr.

(** The double-quote and line-feed characters. *)
Definition dquote : string := String "034"%char EmptyString.
Definition newline : string := String "010"%char EmptyString.

(** [s.startswith(p)] *)
Fixpoint startswith (s p : string) {struct p} : bool :=
  match p with
  | EmptyString => true
  | String c p' =>
      match s with
      | EmptyString => false
      | String d s' => Ascii.eqb d c && startswith s' p'
      end
  end.

(** [s[n:]] for [n >= 0] *)
Fixpoint drop (n : nat) (s : string) : string :=
  match n with
  | O => s
  | S n' => match s with
            | EmptyString => EmptyString
            | String _ s' => drop n' s'
            end
  end.

(** [s[:n]] for [n >= 0] *)
Fixpoint take (n : nat) (s : string) : string :=
  match n with
  | O => EmptyString
  | S n' => match s with
            | EmptyString => EmptyString
            | String c s' => String c (take n' s')
            end
  end.

(** [s.endswith(p)] *)
Definition endswith (s p : string) : bool :=
  (String.length p <=? String.length s)%nat &&
  String.eqb (drop (String.length s - String.length p) s) p.

(** [s[start:-k]] for [start >= 0] and [k > 0]: the stop index is
    [len(s) - k], clamped at 0, and the slice is empty when the start is not
    before the stop. *)
Definition slice_to_end_minus (s : string) (start k : nat) : string :=
  let stop := String.length s - k in
  take (stop - start) (drop start s).

(** [sep.join(l)] *)
Fixpoint join (sep : string) (l : list string) : string :=
  match l with
  | [] => EmptyString
  | [x] => x
  | x :: rest => x ++ sep ++ join sep rest
  end.

(** [s.split(c)] for a separator [c] of one character: never empty. *)
Fixpoint split (c : ascii) (s : string) : list string :=
  match s with
  | EmptyString => [EmptyString]
  | String a s' =>
      if Ascii.eqb a c then EmptyString :: split c s'
      else match split c s' with
           | [] => [String a EmptyString]
           | h :: t => String a h :: t
           end
  end.

(** [ch.isspace()] on the code points below 256: TAB, LF, VT, FF, CR, the
    separators FS, GS, RS, US, the space, NEL and the no-break space. *)
Definition isspace_char (a : ascii) : bool :=
  let n := nat_of_ascii a in
  (((9 <=? n) && (n <=? 13)) || ((28 <=? n) && (n <=? 32))
   || (n =? 133) || (n =? 160))%nat.

Fixpoint lstrip (s : string) : string :=
  match s with
  | EmptyString => EmptyString
  | String a s' => if isspace_char a then lstrip s' else s
  end.

Fixpoint rstrip (s : string) : string :=
  match s with
  | EmptyString => EmptyString
  | String a s' =>
      match rstrip s' with
      | EmptyString => if isspace_char a then EmptyString
                       else String a EmptyString
      | r => String a r
      end
  end.

(** [s.strip()] *)
Definition strip (s : string) : string := rstrip (lstrip s).

(** A decimal character below 256 is one of [0]..[9]. *)
Definition isdecimal_char (a : ascii) : bool :=
  let n := nat_of_ascii a in ((48 <=? n) && (n <=? 57))%nat.

Fixpoint all_chars (p : ascii -> bool) (s : string) : bool :=
  match s with
  | EmptyString => true
  | String a s' => p a && all_chars p s'
  end.

(** [s.isdecimal()]: at least one character, all of them decimal. *)
Definition isdecimal (s : string) : bool :=
  match s with
  | EmptyString => false
  | _ => all_chars isdecimal_char s
  end.

(** Whether a character occurs in a string. *)
Fixpoint has_char (c : ascii) (s : string) : bool :=
  match s with
  | EmptyString => false
  | String a s' => Ascii.eqb a c || has_char c s'
  end.

End PyStr.

Import PyStr.

(** ** Values, exceptions and the outside world *)

(** What [vdf.loads] hands back: a section is a [dict] in document order, a
    leaf is a [str]. *)
#[warnings="-register-all"]
Inductive pyval : Type :=
| PStr (s : string)
| PDict (d : list (string * pyval)).

(** The exceptions the program can meet. All derive from [Exception] but
    [KeyboardInterrupt]; [ContentTypeError] is an [aiohttp.ClientError] in
    Python and is kept apart only to name what [r.json()] raises. *)
Inductive exn : Type :=
| KeyError (key : string)
| IndexError
| TypeError
| AttributeError
| SyntaxError
| UnicodeDecodeError
| ClientError
| ContentTypeError
| TimeoutError
| FileExistsError
| FileNotFoundError
| IsADirectoryError
| KeyboardInterrupt.

Definition is_Exception (e : exn) : bool :=
  match e with
  | KeyboardInterrupt => false
  | _ => true
  end.

(** [except aiohttp.ClientError] *)
Definition is_ClientError (e : exn) : bool :=
  match e with
  | ClientError | ContentTypeError => true
  | _ => false
  end.

(** The outcome of [session.get(url)] on a mirror followed by [r.read()]:
    a status with the body, or an exception raised at any point of the
    request. *)
Inductive response : Type :=
| Resp (status : nat) (body : string)
| NetRaise (e : exn).

(** The outcome of the branch lookup as the program reads it: the JSON
    object has a [commit] member with the three fields, or it has none, or
    the request, [r.json()] or a field access raises. *)
Inductive branch_reply : Type :=
| Branch (sha tree_url date : string)
| NoBranch
| BranchRaise (e : exn).

(** The outcome of the tree request: the paths of the [tree] member in its
    order, or no such member, or an exception. *)
Inductive tree_reply : Type :=
| Tree (paths : list string)
| NoTree
| TreeRaise (e : exn).

(** The environment of a run. The answer to a request depends on the URL and
    on the number of requests the run has made before it, so that a mirror
    may fail now and answer later.
    - [vdf_loads] is [vdf.loads(content.decode(encoding='utf-8'))];
    - [repr_dict] is the text Python gives for a [dict] inside an
      f-string. *)
Record env : Type := {
  cdn : nat -> string -> response;
  api_branch : nat -> string -> branch_reply;
  api_tree : nat -> string -> tree_reply;
  vdf_loads : string -> exn + list (string * pyval);
  repr_dict : list (string * pyval) -> string
}.

(** A depot record as [get_manifest] collects it. *)
Definition depot : Type := (string * pyval)%type.

(** ** Observable events *)

Inductive level : Type := INFO | WARNING | ERROR.

(** The log lines of the program, by the place that writes them. *)
Inductive message : Type :=
| FetchStatus (path : string) (status : nat)
| FetchConnection (path : string)
| RetryLeft (retry : nat) (path : string)
| RetryExhausted (path : string)
| ManifestExists (path : string)
| ManifestSaved (path : string)
| KeySaved (path : string)
| ProcessFailed (path : string) (e : exn)
| SearchRepo (repo : string)
| LastUpdate (date : string)
| Stored (app_id repo : string)
| NotInRepo (repo : string)
| AllReposFailed (app_id : string).

Inductive event : Type :=
| EvGet (url : string)
| EvRead (url : string)
| EvMkdir (path : string)
| EvWrite (path content : string)
| EvLog (lvl : level) (msg : message)
| EvPrint (name save_dir : string).

(** ** The file system and the state of a run *)

(** Directories and regular files, each named by its path as the program
    spells it; files are kept in creation order. Opening for writing and
    creating a directory fail as stated below; permissions and the like are
    not modelled, and neither are the components [.] and [..] of a path. *)
Record filesys : Type := {
  dirs : list string;
  files : list (string * string)
}.

Record state : Type := {
  clock : nat;
  fs : filesys;
  trace : list event
}.

Definition mem (x : string) (l : list string) : bool :=
  existsb (String.eqb x) l.

(** [os.path.join(a, b)] on a POSIX system. *)
Definition os_path_join (a b : string) : string :=
  if startswith b "/" then b
  else match a with
       | EmptyString => b
       | _ => if endswith a "/" then a ++ b else a ++ "/" ++ b
       end.

Definition fs_exists (f : filesys) (p : string) : bool :=
  mem p (dirs f) || mem p (map fst (files f)).

Definition is_slash (c : ascii) : bool := Ascii.eqb c "/".

(** [p[:p.rfind('/') + 1]]: the text of [p] up to its last slash. *)
Fixpoint dir_head (p : string) : string :=
  match p with
  | EmptyString => EmptyString
  | String c rest =>
      if has_char "/" rest then String c (dir_head rest)
      else if is_slash c then String c EmptyString
           else EmptyString
  end.

(** [s.rstrip('/')] *)
Fixpoint rstrip_slashes (s : string) : string :=
  match s with
  | EmptyString => EmptyString
  | String c rest =>
      match rstrip_slashes rest with
      | EmptyString => if is_slash c then EmptyString
                       else String c EmptyString
      | r => String c r
      end
  end.

(** [os.path.dirname(p)] on a POSIX system: the head of [p], without its
    trailing slashes unless it is made of slashes only. *)
Definition os_path_dirname (p : string) : string :=
  let head := dir_head p in
  if all_chars is_slash head then head else rstrip_slashes head.

(** Whether the directory [d], as [os.path.dirname] gives it, is there: the
    current directory (the empty name) and the root always are, another one
    when it was created, with or without trailing slashes in its name. *)
Definition dir_exists (f : filesys) (d : string) : bool :=
  all_chars is_slash d ||
  existsb (fun x => String.eqb (rstrip_slashes x) d) (dirs f).

Fixpoint fs_put (l : list (string * string)) (p content : string)
  : list (string * string) :=
  match l with
  | [] => [(p, content)]
  | (q, c) :: rest =>
      if String.eqb q p then (q, content) :: rest
      else (q, c) :: fs_put rest p content
  end.

(** The name of [q] inside directory [d], when [q] lies directly in it. *)
Definition child_name (d q : string) : option string :=
  let pre := os_path_join d "" in
  if startswith q pre then
    let n := drop (String.length pre) q in
    match n with
    | EmptyString => None
    | _ => if has_char "/" n then None else Some n
    end
  else None.

Definition fs_listdir (f : filesys) (d : string) : list string :=
  flat_map (fun q => match child_name d q with
                     | Some n => [n]
                     | None => []
                     end)
           (map fst (files f) ++ dirs f).

(** ** The monad of the program: state and exceptions *)

Inductive result (A : Type) : Type :=
| Ok (a : A)
| Raise (e : exn).

Arguments Ok {A} a.
Arguments Raise {A} e.

Definition M (A : Type) : Type := state -> result A * state.

Definition ret {A} (a : A) : M A := fun st => (Ok a, st).

Definition raise {A} (e : exn) : M A := fun st => (Raise e, st).

Definition bind {A B} (m : M A) (k : A -> M B) : M B :=
  fun st =>
    match m st with
    | (Ok a, st') => k a st'
    | (Raise e, st') => (Raise e, st')
    end.

(** [try: m except BaseException as e: h e] *)
Definition try_except {A} (m : M A) (h : exn -> M A) : M A :=
  fun st =>
    match m st with
    | (Ok a, st') => (Ok a, st')
    | (Raise e, st') => h e st'
    end.

Declare Scope prog_scope.
Delimit Scope prog_scope with prog.
Notation "x <- m ;; k" := (bind m (fun x => k))
  (at level 61, m at next level, right associativity) : prog_scope.
Notation "m ;;; k" := (bind m (fun _ => k))
  (at level 61, right associativity) : prog_scope.
Open Scope prog_scope.

Definition emit (e : event) : M unit :=
  fun st => (Ok tt, {| clock := clock st; fs := fs st;
                       trace := trace st ++ [e] |}).

Definition log (lvl : level) (msg : message) : M unit :=
  emit (EvLog lvl msg).

(** One network request: the clock advances, the request is recorded. *)
Definition request {A} (answer : nat -> string -> A) (url : string) : M A :=
  fun st => (Ok (answer (clock st) url),
             {| clock := S (clock st); fs := fs st;
                trace := trace st ++ [EvGet url] |}).

(** [os.path.exists(p)] *)
Definition os_path_exists (p : string) : M bool :=
  fun st => (Ok (fs_exists (fs st) p), st).

(** [os.makedirs(p, exist_ok=True)]: nothing to do for a directory that is
    there, [FileExistsError] when a regular file has the name. *)
Definition os_makedirs (p : string) : M unit :=
  fun st =>
    if mem p (map fst (files (fs st))) then (Raise FileExistsError, st)
    else
      (Ok tt,
       {| clock := clock st;
          fs := {| dirs := if mem p (dirs (fs st)) then dirs (fs st)
                           else dirs (fs st) ++ [p];
                   files := files (fs st) |};
          trace := trace st ++ [EvMkdir p] |}).

(** Opening [p] for writing and writing [content] to it: [open] raises
    [IsADirectoryError] on the name of a directory and [FileNotFoundError]
    when the directory the file is to lie in is not there; otherwise the
    file is created or overwritten. *)
Definition write_file (p content : string) : M unit :=
  fun st =>
    if mem p (dirs (fs st)) then (Raise IsADirectoryError, st)
    else if dir_exists (fs st) (os_path_dirname p) then
      (Ok tt,
       {| clock := clock st;
          fs := {| dirs := dirs (fs st);
                   files := fs_put (files (fs st)) p content |};
          trace := trace st ++ [EvWrite p content] |})
    else (Raise FileNotFoundError, st).

(** [os.listdir(d)] *)
Definition os_listdir (d : string) : M (list string) :=
  fun st =>
    if mem d (dirs (fs st)) then (Ok (fs_listdir (fs st) d), st)
    else (Raise FileNotFoundError, st).

(** ** The program *)

(** The global [repos]. *)
Definition repos : list string :=
  [ "SteamAutoCracks/ManifestHub";
    "ikun0014/ManifestHub";
    "Auiowu/ManifestAutoUpdate";
    "tymolu233/ManifestAutoUpdate-fix" ].

(** [url_list] of [get]. *)
Definition url_list (sha path repo : string) : list string :=
  [ ("https://jsdelivr.pai233.top/gh/" ++ repo ++ "@" ++ sha ++ "/" ++ path)%string;
    ("https://cdn.jsdmirror.com/gh/" ++ repo ++ "@" ++ sha ++ "/" ++ path)%string;
    ("https://raw.gitmirror.com/" ++ repo ++ "/" ++ sha ++ "/" ++ path)%string;
    ("https://raw.dgithub.xyz/" ++ repo ++ "/" ++ sha ++ "/" ++ path)%string;
    ("https://gh.akass.cn/" ++ repo ++ "/" ++ sha ++ "/" ++ path)%string ].

Definition branch_url (repo app_id : string) : string :=
  "https://api.github.com/repos/" ++ repo ++ "/branches/" ++ app_id.

Definition vdf_paths : list string := ["Key.vdf"; "key.vdf"; "config.vdf"].

(** The truth value of what [get] returns: [None] and [b''] are false. *)
Definition truthy (content : option string) : bool :=
  match content with
  | Some (String _ _) => true
  | _ => false
  end.

(** [d[key]] on a [dict]. *)
Fixpoint dict_get (d : list (string * pyval)) (key : string) : option pyval :=
  match d with
  | [] => None
  | (k, v) :: rest => if String.eqb k key then Some v else dict_get rest key
  end.

(** [v[key]]: [KeyError] on a [dict] without the key, [TypeError] on a
    [str], whose indices must be integers. *)
Definition getitem (v : pyval) (key : string) : result pyval :=
  match v with
  | PDict d => match dict_get d key with
               | Some x => Ok x
               | None => Raise (KeyError key)
               end
  | PStr _ => Raise TypeError
  end.

(** [v.items()]: a [str] has no such attribute. *)
Definition items (v : pyval) : result (list (string * pyval)) :=
  match v with
  | PDict d => Ok d
  | PStr _ => Raise AttributeError
  end.

(** The loop of lines 123-124, appending to [collected_depots]. *)
Fixpoint collect_depots (its : list (string * pyval)) (collected : list depot)
  : result (list depot) :=
  match its with
  | [] => Ok collected
  | (depot_id, depot_info) :: rest =>
      match getitem depot_info "DecryptionKey" with
      | Ok key => collect_depots rest (collected ++ [(depot_id, key)])
      | Raise e => Raise e
      end
  end.

(** Lines 123-124 on a decoded document. *)
Definition depots_of_config (depots_config : list (string * pyval))
  : result (list depot) :=
  match getitem (PDict depots_config) "depots" with
  | Ok depots =>
      match items depots with
      | Ok its => collect_depots its []
      | Raise e => Raise e
      end
  | Raise e => Raise e
  end.

(** [list(filter(str.isdecimal, app_id.strip().split('-')))[0]] *)
Definition normalize (app_id : string) : result string :=
  match filter isdecimal (split "-" (strip app_id)) with
  | [] => Raise IndexError
  | first :: _ => Ok first
  end.

(** [f'[{app_id}]{game_name}'] *)
Definition save_dir_of (app_id game_name : string) : string :=
  "[" ++ app_id ++ "]" ++ game_name.

Definition nonempty {A} (l : list A) : bool :=
  match l with
  | [] => false
  | _ => true
  end.

Definition lift {A} (r : result A) : M A :=
  match r with
  | Ok a => ret a
  | Raise e => raise e
  end.

Section Pipeline.

Variable E : env.

(** The [for url in url_list] loop of one attempt: [Some] is the [return]
    of line 92, [None] is the end of the list. *)
Fixpoint try_mirrors (path : string) (urls : list string)
  : M (option string) :=
  match urls with
  | [] => ret None
  | url :: rest =>
      r <- request (cdn E) url ;;
      match r with
      | Resp status body =>
          if Nat.eqb status 200 then emit (EvRead url) ;;; ret (Some body)
          else log ERROR (FetchStatus path status) ;;; try_mirrors path rest
      | NetRaise e =>
          if is_ClientError e
          then log ERROR (FetchConnection path) ;;; try_mirrors path rest
          else raise e
      end
  end.

(** The [while retry] loop. *)
Fixpoint retry_loop (path : string) (urls : list string) (retry : nat)
  : M (option string) :=
  match retry with
  | O => log ERROR (RetryExhausted path) ;;; ret None
  | S retry' =>
      r <- try_mirrors path urls ;;
      match r with
      | Some body => ret (Some body)
      | None =>
          log WARNING (RetryLeft retry' path) ;;; retry_loop path urls retry'
      end
  end.

Definition get (sha path repo : string) : M (option string) :=
  retry_loop path (url_list sha path repo) 3.

(** Lines 122-124: decoding the key file and collecting its depots. *)
Definition parse_key_file (content : string) : result (list depot) :=
  match vdf_loads E content with
  | inl e => Raise e
  | inr depots_config => depots_of_config depots_config
  end.

(** The body of the [try] of [get_manifest]. *)
Definition get_manifest_body (sha path save_dir repo : string)
  : M (list depot) :=
  if endswith path ".manifest" then
    let save_path := os_path_join save_dir path in
    present <- os_path_exists save_path ;;
    if present then log WARNING (ManifestExists path) ;;; ret []
    else
      content <- get sha path repo ;;
      if truthy content then
        log INFO (ManifestSaved path) ;;;
        write_file save_path (match content with Some b => b | None => "" end)
        ;;; ret []
      else ret []
  else if mem path vdf_paths then
    content <- get sha path repo ;;
    if truthy content then
      log INFO (KeySaved path) ;;;
      lift (parse_key_file (match content with Some b => b | None => "" end))
    else ret []
  else ret [].

Definition get_manifest (sha path save_dir repo : string) : M (list depot) :=
  try_except (get_manifest_body sha path save_dir repo)
    (fun e =>
       if is_Exception e
       then log ERROR (ProcessFailed path e) ;;; raise e
       else raise e).

(** Lines 156-162: the key files of the tree, up to the first that gives a
    record. *)
Fixpoint key_phase (sha save_dir repo : string) (tree : list string)
  (collected_depots : list depot) : M (list depot) :=
  match tree with
  | [] => ret collected_depots
  | path :: rest =>
      if mem path vdf_paths then
        vdf_result <- get_manifest sha path save_dir repo ;;
        if nonempty vdf_result then ret (collected_depots ++ vdf_result)
        else key_phase sha save_dir repo rest collected_depots
      else key_phase sha save_dir repo rest collected_depots
  end.

(** Lines 165-168: every manifest file of the tree. *)
Fixpoint manifest_phase (sha save_dir repo : string) (tree : list string)
  (collected_depots : list depot) : M (list depot) :=
  match tree with
  | [] => ret collected_depots
  | path :: rest =>
      if endswith path ".manifest" then
        res <- get_manifest sha path save_dir repo ;;
        manifest_phase sha save_dir repo rest (collected_depots ++ res)
      else manifest_phase sha save_dir repo rest collected_depots
  end.

(** Lines 153-168: the key phase, then the manifest phase. *)
Definition process_tree (sha save_dir repo : string) (tree : list string)
  : M (list depot) :=
  keyed <- key_phase sha save_dir repo tree [] ;;
  manifest_phase sha save_dir repo tree keyed.

(** The body of the [for repo in repos] loop up to line 173: [Some] is the
    [return] of line 173, [None] falls through to the warning of
    line 174. *)
Definition try_repo (app_id save_dir repo : string)
  : M (option (list depot)) :=
  log INFO (SearchRepo repo) ;;;
  r <- request (api_branch E) (branch_url repo app_id) ;;
  match r with
  | BranchRaise e => raise e
  | NoBranch => ret None
  | Branch sha tree_url date =>
      r2 <- request (api_tree E) tree_url ;;
      match r2 with
      | TreeRaise e => raise e
      | NoTree => ret None
      | Tree tree =>
          collected_depots <- process_tree sha save_dir repo tree ;;
          if nonempty collected_depots then
            log INFO (LastUpdate date) ;;;
            log INFO (Stored app_id repo) ;;;
            ret (Some collected_depots)
          else ret None
      end
  end.

Fixpoint search_repos (app_id save_dir : string) (rs : list string)
  : M (list depot * string) :=
  match rs with
  | [] => log ERROR (AllReposFailed app_id) ;;; ret ([], save_dir)
  | repo :: rest =>
      found <- try_repo app_id save_dir repo ;;
      match found with
      | Some collected_depots => ret (collected_depots, save_dir)
      | None =>
          log WARNING (NotInRepo repo) ;;; search_repos app_id save_dir rest
      end
  end.

Definition download_and_process (app_id game_name : string)
  : M (list depot * string) :=
  app_id <- lift (normalize app_id) ;;
  let save_dir := save_dir_of app_id game_name in
  os_makedirs save_dir ;;;
  search_repos app_id save_dir repos.

(** What an f-string makes of a value. *)
Definition py_str (v : pyval) : string :=
  match v with
  | PStr s => s
  | PDict d => repr_dict E d
  end.

Definition addappid_line (appid : string) : string :=
  "addappid(" ++ appid ++ ")".

Definition depot_line (depot_id : string) (decryption_key : pyval) : string :=
  "addappid(" ++ depot_id ++ ",1," ++ dquote ++ py_str decryption_key
  ++ dquote ++ ")".

Definition manifest_line (depot_id manifest_id : string) : string :=
  "setManifestid(" ++ depot_id ++ "," ++ dquote ++ manifest_id ++ dquote
  ++ ",0)".

(** Line 186: the names of the listing that belong to the depot. *)
Definition manifest_files (depot_id : string) (listing : list string)
  : list string :=
  filter (fun f => startswith f (depot_id ++ "_") && endswith f ".manifest")
         listing.

(** Line 188. *)
Definition manifest_id_of (depot_id manifest_file : string) : string :=
  slice_to_end_minus manifest_file (String.length depot_id + 1)
                     (String.length ".manifest").

(** Lines 187-189, appending to [lua_lines]. *)
Fixpoint manifest_lines (depot_id : string) (fs_names : list string)
  (lua_lines : list string) : list string :=
  match fs_names with
  | [] => lua_lines
  | manifest_file :: rest =>
      manifest_lines depot_id rest
        (lua_lines
           ++ [manifest_line depot_id (manifest_id_of depot_id manifest_file)])
  end.

(** Lines 183-189. *)
Fixpoint depot_lines (depot_info : list depot) (save_dir : string)
  (lua_lines : list string) : M (list string) :=
  match depot_info with
  | [] => ret lua_lines
  | (depot_id, decryption_key) :: rest =>
      let lua_lines := lua_lines ++ [depot_line depot_id decryption_key] in
      listing <- os_listdir save_dir ;;
      depot_lines rest save_dir
        (manifest_lines depot_id (manifest_files depot_id listing) lua_lines)
  end.

Definition parse_vdf_to_lua (depot_info : list depot)
  (appid save_dir : string) : M string :=
  lua_lines <- depot_lines depot_info save_dir [addappid_line appid] ;;
  ret (join newline lua_lines).

(** Lines 210-221 of [main], once the identifier and the display name are
    known. The script is written as text under [<appid>.lua]. *)
Definition main_tail (appid game_name : string) : M unit :=
  r <- download_and_process appid game_name ;;
  let '(collected_depots, save_dir) := r in
  if nonempty collected_depots then
    lua_script <- parse_vdf_to_lua collected_depots appid save_dir ;;
    write_file (os_path_join save_dir (appid ++ ".lua")) lua_script ;;;
    emit (EvPrint (match game_name with
                   | EmptyString => appid
                   | _ => game_name
                   end) save_dir)
  else ret tt.

End Pipeline.

(** ** Definitions used to state the properties *)

(** The manifest bindings of a depot in a listing: the pairs the loop of
    lines 187-189 goes through. *)
Definition bindings (depot_id : string) (listing : list string)
  : list (string * string) :=
  map (fun f => (depot_id, manifest_id_of depot_id f))
      (manifest_files depot_id listing).

(** The script as the specification words it: the identifier line, then for
    each depot record in order its line followed by one line per binding of
    that depot, joined by line feeds. *)
Definition script_of_spec (E : env) (identifier : string)
  (records : list depot) (listing : list string) : string :=
  join newline
    (addappid_line identifier
     :: flat_map (fun r : depot =>
                    depot_line E (fst r) (snd r)
                    :: map (fun b => manifest_line (fst b) (snd b))
                           (bindings (fst r) listing))
                 records).

(** The URLs requested, the URLs whose body was read, the retry warnings
    and the files written, in a trace. *)
Definition requests_of (tr : list event) : list string :=
  flat_map (fun e => match e with EvGet u => [u] | _ => [] end) tr.

Definition reads_of (tr : list event) : list string :=
  flat_map (fun e => match e with EvRead u => [u] | _ => [] end) tr.

Definition retries_of (tr : list event) : list nat :=
  flat_map (fun e => match e with
                     | EvLog _ (RetryLeft n _) => [n]
                     | _ => []
                     end) tr.

Definition writes_of (tr : list event) : list string :=
  flat_map (fun e => match e with EvWrite p _ => [p] | _ => [] end) tr.

(** A mirror fails: a status other than 200, or a transport error. *)
Definition mirror_fails (r : response) : bool :=
  match r with
  | Resp status _ => negb (Nat.eqb status 200)
  | NetRaise e => is_ClientError e
  end.

(** A computation only adds to the trace, to the directories and to the
    clock. *)
Definition extends (st st' : state) : Prop :=
  (exists l, trace st' = trace st ++ l) /\
  incl (dirs (fs st)) (dirs (fs st')) /\
  clock st <= clock st'.

Definition monotone {A} (m : M A) : Prop :=
  forall st r st', m st = (r, st') -> extends st st'.

(** A computation writes manifest files only. *)
Definition manifest_event (e : event) : Prop :=
  match e with
  | EvWrite p _ => endswith p ".manifest" = true
  | EvPrint _ _ => False
  | _ => True
  end.

Definition writes_manifests_only {A} (m : M A) : Prop :=
  forall st r st',
    m st = (r, st') ->
    exists l, trace st' = trace st ++ l /\ Forall manifest_event l.

(** ** Definitions used to state the further properties *)

(** The requests of [retry] full passes over the mirrors. *)
Definition schedule (urls : list string) (retry : nat) : list string :=
  List.concat (repeat urls retry).

(** From time [t] on, the requests [us], made one after the other, all
    fail. *)
Definition failing (E : env) (t : nat) (us : list string) : Prop :=
  forall i u, nth_error us i = Some u ->
              mirror_fails (cdn E (t + i) u) = true.

(** How one pass over [urls] begun at time [t] can end, with the requests
    made and the bodies read: at the end of the list with every mirror
    failed, at the first mirror that answers 200, or at the first mirror
    whose request raises something else than a transport error. *)
Definition pass_outcome (E : env) (t : nat) (urls : list string)
  (r : result (option string)) (done reads : list string) : Prop :=
  match r with
  | Ok None => done = urls /\ reads = [] /\ failing E t urls
  | Ok (Some body) =>
      exists pre u post,
        urls = pre ++ u :: post /\ done = pre ++ [u] /\ reads = [u] /\
        failing E t pre /\
        cdn E (t + List.length pre) u = Resp 200 body
  | Raise e =>
      exists pre u post,
        urls = pre ++ u :: post /\ done = pre ++ [u] /\ reads = [] /\
        failing E t pre /\
        cdn E (t + List.length pre) u = NetRaise e /\
        is_ClientError e = false
  end.

(** How the retry loop begun at time [t] with budget [retry] can end, with
    the requests made, the bodies read and the budgets logged. *)
Definition loop_outcome (E : env) (t : nat) (urls : list string)
  (retry : nat) (r : result (option string))
  (done reads : list string) (retries : list nat) : Prop :=
  match r with
  | Ok None =>
      done = schedule urls retry /\ reads = [] /\ failing E t done /\
      retries = rev (seq 0 retry)
  | Ok (Some body) =>
      exists j pre u post,
        j < retry /\ urls = pre ++ u :: post /\
        done = schedule urls j ++ pre ++ [u] /\ reads = [u] /\
        failing E t (schedule urls j ++ pre) /\
        cdn E (t + List.length (schedule urls j ++ pre)) u = Resp 200 body /\
        retries = rev (seq (retry - j) j)
  | Raise e =>
      exists j pre u post,
        j < retry /\ urls = pre ++ u :: post /\
        done = schedule urls j ++ pre ++ [u] /\ reads = [] /\
        failing E t (schedule urls j ++ pre) /\
        cdn E (t + List.length (schedule urls j ++ pre)) u = NetRaise e /\
        is_ClientError e = false /\
        retries = rev (seq (retry - j) j)
  end.

(** A computation keeps the directories and only appends to the list of
    files, under names that were free: what was there stays, with its
    content and its place. *)
Definition appends_files {A} (m : M A) : Prop :=
  forall st r st',
    m st = (r, st') ->
    incl (dirs (fs st)) (dirs (fs st')) /\
    exists added,
      files (fs st') = files (fs st) ++ added /\
      Forall (fun pc => fs_exists (fs st) (fst pc) = false) added.

(** The mirrors fail by status or by transport error only: no request
    raises anything else. *)
Definition transport_only (E : env) : Prop :=
  forall n u e, cdn E n u = NetRaise e -> is_ClientError e = true.

(** ** Definitions used to state what a whole search does *)

(** The state once a line is logged. *)
Definition logged (lvl : level) (msg : message) (st : state) : state :=
  {| clock := clock st; fs := fs st; trace := trace st ++ [EvLog lvl msg] |}.

(** The state in which the tree of a source is processed: the search of
    the source is announced, its branch and its tree have been
    requested. *)
Definition tree_received (repo app_id tree_url : string) (st : state)
  : state :=
  {| clock := S (S (clock st)); fs := fs st;
     trace := ((trace st ++ [EvLog INFO (SearchRepo repo)])
               ++ [EvGet (branch_url repo app_id)])
              ++ [EvGet tree_url] |}.

(** The sources [rs], searched one after the other from [st], each end
    without a record and without an exception: the state the last one
    leaves, once the warning of line 174 is logged for it. *)
Fixpoint skip_sources (E : env) (app_id save_dir : string)
  (rs : list string) (st : state) : option state :=
  match rs with
  | [] => Some st
  | repo :: rest =>
      match try_repo E app_id save_dir repo st with
      | (Ok None, st1) =>
          skip_sources E app_id save_dir rest
                       (logged WARNING (NotInRepo repo) st1)
      | _ => None
      end
  end.

(** The answer of a mirror does not depend on the time of the request. *)
Definition time_independent (E : env) : Prop :=
  forall n m u, cdn E n u = cdn E m u.

(** From time [t] on, no request for one of [urls] obtains a body: it
    fails, or it is answered 200 with an empty body. *)
Definition not_obtained (E : env) (t : nat) (urls : list string) : Prop :=
  forall n u, t <= n -> In u urls ->
              mirror_fails (cdn E n u) = true \/ cdn E n u = Resp 200 "".

(** No request to the metadata API raises. *)
Definition api_answers (E : env) : Prop :=
  (forall n u e, api_branch E n u <> BranchRaise e) /\
  (forall n u e, api_tree E n u <> TreeRaise e).

(** The manifests of every tree have names without a slash. *)
Definition flat_trees (E : env) : Prop :=
  forall n u tree p,
    api_tree E n u = Tree tree -> In p tree ->
    endswith p ".manifest" = true -> has_char "/" p = false.

(** The file [p] gives no record: what a mirror serves for it is empty or
    decodes to a document whose [depots] section is empty. *)
Definition gives_no_record (E : env) (sha p repo : string) : Prop :=
  forall n u body,
    In u (url_list sha p repo) -> cdn E n u = Resp 200 body ->
    body = ""%string \/ parse_key_file E body = Ok [].

(** No key file of a tree gives a record. *)
Definition keys_give_nothing (E : env) : Prop :=
  forall n u tree sha p repo,
    api_tree E n u = Tree tree -> In p tree -> mem p vdf_paths = true ->
    gives_no_record E sha p repo.

(** ** Sample environments and documents *)

Module Samples.

(** The text [vdf.dumps] writes for a document, which [vdf.loads] reads
    back: a leaf is a quoted key and a quoted value on one line, a section
    is its quoted key and its members between braces. *)
Fixpoint vdf_dumps_member (key : string) (v : pyval) : string :=
  match v with
  | PStr s =>
      dquote ++ key ++ dquote ++ " " ++ dquote ++ s ++ dquote ++ newline
  | PDict d =>
      dquote ++ key ++ dquote ++ newline ++ "{" ++ newline
      ++ (fix members (l : list (string * pyval)) : string :=
            match l with
            | [] => ""
            | (k, x) :: rest => (vdf_dumps_member k x ++ members rest)%string
            end) d
      ++ "}" ++ newline
  end.

Fixpoint vdf_dumps (doc : list (string * pyval)) : string :=
  match doc with
  | [] => ""
  | (k, x) :: rest => (vdf_dumps_member k x ++ vdf_dumps rest)%string
  end.

(** A decoder that knows the documents of [docs] by their text and takes
    any other text for malformed. *)
Fixpoint loads_of (docs : list (list (string * pyval))) (content : string)
  : exn + list (string * pyval) :=
  match docs with
  | [] => inl SyntaxError
  | doc :: rest =>
      if String.eqb content (vdf_dumps doc) then inr doc
      else loads_of rest content
  end.

(** The key file of the specification's example. *)
Definition key_doc : list (string * pyval) :=
  [("depots", PDict [("10", PDict [("DecryptionKey", PStr "AA")]);
                     ("20", PDict [("DecryptionKey", PStr "BB")])])].

(** A well-formed document without a [depots] section. *)
Definition no_depots_doc : list (string * pyval) :=
  [("appinfo", PDict [("name", PStr "demo")])].

(** An environment in which every source has the branch, with the given
    tree, and the mirrors answer by [net]. The samples never format a
    section, so [repr_dict] is left trivial. *)
Definition env_of (net : nat -> string -> response) (tree : list string)
  : env :=
  {| cdn := net;
     api_branch := fun _ _ => Branch "0a1b2c" "https://api.github.com/tree/0a1b2c"
                                     "2024-05-01T00:00:00Z";
     api_tree := fun _ _ => Tree tree;
     vdf_loads := loads_of [key_doc; no_depots_doc];
     repr_dict := fun _ => "{}" |}.

(** Every source has a key file without a [depots] section and one
    manifest; every mirror serves the key file's text. *)
Definition env_bad_key : env :=
  env_of (fun _ _ => Resp 200 (vdf_dumps no_depots_doc))
         ["Key.vdf"; "10_111.manifest"].

(** Every source has the branch, but its tree holds neither a key file nor
    a manifest. *)
Definition env_empty_tree : env :=
  env_of (fun _ _ => Resp 404 "") ["README.md"; "LICENSE"].

(** Every source has the key file of the example, one manifest and a file
    of no interest; every mirror serves what it is asked for. *)
Definition env_good : env :=
  env_of (fun _ url => if endswith url "Key.vdf"
                       then Resp 200 (vdf_dumps key_doc)
                       else Resp 200 "m111")
         ["README.md"; "Key.vdf"; "10_111.manifest"].

(** The metadata API is unreachable: the branch lookup raises. *)
Definition env_api_down : env :=
  {| cdn := fun _ _ => Resp 404 "";
     api_branch := fun _ _ => BranchRaise ClientError;
     api_tree := fun _ _ => NoTree;
     vdf_loads := loads_of [];
     repr_dict := fun _ => "{}" |}.

(** Every source has two key files and nothing else; the mirrors serve the
    key file of the example for both. *)
Definition env_two_keys : env :=
  env_of (fun _ _ => Resp 200 (vdf_dumps key_doc)) ["Key.vdf"; "config.vdf"].

(** Every mirror answers 200 with an empty body. *)
Definition env_empty_body : env :=
  env_of (fun _ _ => Resp 200 "") ["10_111.manifest"].

(** An environment in which no source has the branch. *)
Definition env_nowhere : env :=
  {| cdn := fun _ _ => Resp 404 "";
     api_branch := fun _ _ => NoBranch;
     api_tree := fun _ _ => NoTree;
     vdf_loads := loads_of [];
     repr_dict := fun _ => "{}" |}.

(** Mirrors of which the first answers 404, the second breaks the
    connection and every later request is served. *)
Definition net_third (n : nat) (url : string) : response :=
  match n with
  | 0 => Resp 404 ""
  | 1 => NetRaise ClientError
  | _ => Resp 200 "m111"
  end.

(** Mirrors that are down for the first fifteen requests of the run, the
    three passes of one fetch, and serve every request after. *)
Definition net_flaky (n : nat) (url : string) : response :=
  if Nat.ltb n 15 then Resp 503 "" else Resp 200 "m111".

Definition env_flaky : env := env_of net_flaky ["10_111.manifest"].

(** Mirrors that serve every request. *)
Definition env_up : env :=
  env_of (fun _ _ => Resp 200 "m111") ["10_111.manifest"].

(** Mirrors of which the first answers 500 and the second is cut short by
    the operator. *)
Definition net_interrupt (n : nat) (url : string) : response :=
  match n with
  | 0 => Resp 500 ""
  | _ => NetRaise KeyboardInterrupt
  end.

(** Mirrors that are down for the first six requests and up after: a whole
    pass and the first mirror of the next fail. *)
Definition net_second_pass (n : nat) (url : string) : response :=
  if Nat.ltb n 6 then Resp 503 "" else Resp 200 "m111".

Definition start : state :=
  {| clock := 0; fs := {| dirs := []; files := [] |}; trace := [] |}.

(** A destination that holds one manifest of depot 10. *)
Definition with_manifest : state :=
  {| clock := 0;
     fs := {| dirs := ["[10]Demo"];
              files := [("[10]Demo/10_111.manifest", "m111")] |};
     trace := [] |}.

(** An empty destination. *)
Definition empty_destination : state :=
  {| clock := 0;
     fs := {| dirs := ["[10]Demo"]; files := [] |};
     trace := [] |}.

(** A regular file bears the name of the destination. *)
Definition name_taken : state :=
  {| clock := 0;
     fs := {| dirs := []; files := [("[10]Demo", "a file")] |};
     trace := [] |}.

(** A destination that holds a file of the operator's. *)
Definition with_note : state :=
  {| clock := 0;
     fs := {| dirs := ["[10]Demo"];
              files := [("[10]Demo/note.txt", "keep")] |};
     trace := [] |}.

(** The first source does not have the branch, the others do; their tree
    holds two key files, of which the mirrors do not have the first and
    serve the second as a document without a [depots] section. *)
Definition env_second_source : env :=
  {| cdn := fun _ url => if endswith url "/key.vdf" then Resp 404 ""
                         else Resp 200 (vdf_dumps no_depots_doc);
     api_branch := fun _ url =>
       if String.eqb url (branch_url "SteamAutoCracks/ManifestHub" "10")
       then NoBranch
       else Branch "0a1b2c" "https://api.github.com/tree/0a1b2c"
                   "2024-05-01T00:00:00Z";
     api_tree := fun _ _ =>
       Tree ["README.md"; "key.vdf"; "Key.vdf"; "10_111.manifest"];
     vdf_loads := loads_of [key_doc; no_depots_doc];
     repr_dict := fun _ => "{}" |}.

(** Every source has a key file and a manifest, and every mirror is
    down. *)
Definition env_mirrors_down : env :=
  env_of (fun _ _ => Resp 404 "") ["Key.vdf"; "10_111.manifest"].

(** Two manifests, of which the mirrors serve the first and never have the
    second. *)
Definition env_half : env :=
  env_of (fun _ url => if endswith url "/10_111.manifest"
                       then Resp 200 "m111" else Resp 404 "")
         ["10_111.manifest"; "10_222.manifest"].

End Samples.

(** ** The front end: the search by name and the head of [main] *)

Module FrontEnd.

(** A record of the search API as the program reads it: the three members
    it subscripts, each taken to be a [str]; an empty [schinese_name]
    stands for any value the program's truth test rejects. *)
Record game : Type := {
  schinese_name : string;
  name : string;
  appid : string
}.

(** What [r.json()] gives on the search reply: the JSON object, with its
    [games] member when it has one, or an exception. *)
Inductive json_outcome : Type :=
| JsonObject (games : option (list game))
| JsonRaise (e : exn).

(** The outcome of the one request of [search_game_info]. *)
Inductive search_reply : Type :=
| SearchResp (status : nat) (body : json_outcome)
| SearchRaise (e : exn).

(** The exceptions of the front end: [ValueError] from [int], or one of the
    pipeline's. *)
Inductive front_exn : Type :=
| ValueError
| Other (e : exn).

Inductive fresult (A : Type) : Type :=
| FOk (a : A)
| FRaise (e : front_exn).

Arguments FOk {A} a.
Arguments FRaise {A} e.

(** The lines the front end logs and prints, and the requests and prompts
    it makes, in order. *)
Inductive front_message : Type :=
| NotJson (search_term : string)
| BadStatus (status : nat) (search_term : string)
| ConnectionError (e : exn) (search_term : string)
| GameChosen (game_name appid : string)
| NoGameMatches
| NameFound (game_name : string)
| NameNotFound
| UserAppid (appid game_name : string).

Inductive front_event : Type :=
| FeGet (url : string)
| FeLog (lvl : level) (msg : front_message)
| FePrintFound
| FePrintEntry (idx : nat) (game_name appid : string)
| FeInput
| FePrintNoMatch.

Definition search_url (search_term : string) : string :=
  "https://steamui.com/loadGames.php?search=" ++ search_term.

(** [search_game_info]: the games of a 200 reply that is a JSON object, the
    empty list on a status other than 200, on a reply that is not JSON and
    on a transport error. *)
Definition search_game_info (net : string -> search_reply)
  (search_term : string) : fresult (list game) * list front_event :=
  let url := search_url search_term in
  let connection e :=
    if is_ClientError e
    then (FOk [], [FeGet url; FeLog ERROR (ConnectionError e search_term)])
    else (FRaise (Other e), [FeGet url]) in
  match net url with
  | SearchResp status body =>
      if Nat.eqb status 200 then
        match body with
        | JsonObject games =>
            (FOk (match games with Some g => g | None => [] end), [FeGet url])
        | JsonRaise ContentTypeError =>
            (FOk [], [FeGet url; FeLog ERROR (NotJson search_term)])
        | JsonRaise e => connection e
        end
      else (FOk [], [FeGet url; FeLog ERROR (BadStatus status search_term)])
  | SearchRaise e => connection e
  end.

(** [game['schinese_name'] if game['schinese_name'] else game['name']] *)
Definition display_name (g : game) : string :=
  match schinese_name g with
  | EmptyString => name g
  | s => s
  end.

(** A digit below 256: a decimal digit or one of the superscripts 1, 2,
    3. *)
Definition isdigit_char (a : ascii) : bool :=
  let n := nat_of_ascii a in
  (((48 <=? n) && (n <=? 57)) || (n =? 178) || (n =? 179) || (n =? 185))%nat.

(** [s.isdigit()] *)
Definition isdigit (s : string) : bool :=
  match s with
  | EmptyString => false
  | _ => all_chars isdigit_char s
  end.

Fixpoint decimal_value (s : string) (acc : nat) : nat :=
  match s with
  | EmptyString => acc
  | String a s' => decimal_value s' (10 * acc + (nat_of_ascii a - 48))
  end.

(** [sys.get_int_max_str_digits()], which the program leaves at its
    default. *)
Definition int_max_str_digits : nat := 4300.

(** [int(s)] for a string that passed [isdigit]: its value when every
    character is a decimal digit and there are no more of them than the
    interpreter converts, [ValueError] on a superscript and on a longer
    string. *)
Definition int_of_digits (s : string) : fresult nat :=
  if isdecimal s then
    if Nat.leb (String.length s) int_max_str_digits
    then FOk (decimal_value s 0)
    else FRaise ValueError
  else FRaise ValueError.

(** The menu lines of [enumerate(games, 1)]. *)
Fixpoint menu (idx : nat) (games : list game) : list front_event :=
  match games with
  | [] => []
  | g :: rest => FePrintEntry idx (display_name g) (appid g)
                 :: menu (S idx) rest
  end.

(** [find_appid_by_name]; [choice] is the line the operator types at the
    prompt, read only when there are games to choose from. The pair
    [(None, None)] is [None]. *)
Definition find_appid_by_name (net : string -> search_reply)
  (game_name choice : string)
  : fresult (option (string * string)) * list front_event :=
  match search_game_info net game_name with
  | (FRaise e, out) => (FRaise e, out)
  | (FOk games, out) =>
      let none out := (FOk None, out ++ [FeLog ERROR NoGameMatches]) in
      match games with
      | [] => none out
      | _ =>
          let out := out ++ [FePrintFound] ++ menu 1 games ++ [FeInput] in
          if isdigit choice then
            match int_of_digits choice with
            | FRaise e => (FRaise e, out)
            | FOk n =>
                if ((1 <=? n) && (n <=? List.length games))%nat then
                  match nth_error games (n - 1) with
                  | None => (FRaise (Other IndexError), out)
                  | Some selected_game =>
                      (FOk (Some (appid selected_game,
                                  display_name selected_game)),
                       out ++ [FeLog INFO
                                 (GameChosen (display_name selected_game)
                                             (appid selected_game))])
                  end
                else none out
            end
          else none out
      end
  end.

(** [get_game_name_by_appid] *)
Definition get_game_name_by_appid (net : string -> search_reply)
  (appid : string) : fresult string * list front_event :=
  match search_game_info net appid with
  | (FRaise e, out) => (FRaise e, out)
  | (FOk games, out) =>
      match games with
      | g :: _ =>
          (FOk (display_name g), out ++ [FeLog INFO (NameFound (display_name g))])
      | [] => (FOk ""%string, out ++ [FeLog WARNING NameNotFound])
      end
  end.

(** [main]: [line] is what the operator types first, [choice] what is typed
    at the menu if it is shown. The front end runs before the pipeline and
    its output is kept apart from the pipeline's trace. *)
Definition main (E : env) (net : string -> search_reply)
  (line choice : string) (st : state)
  : (fresult unit * state) * list front_event :=
  let user_input := strip line in
  let run appid game_name out :=
    match main_tail E appid game_name st with
    | (Ok tt, st') => ((FOk tt, st'), out)
    | (Raise e, st') => ((FRaise (Other e), st'), out)
    end in
  if isdigit user_input then
    match get_game_name_by_appid net user_input with
    | (FRaise e, out) => ((FRaise e, st), out)
    | (FOk game_name, out) =>
        run user_input game_name
            (out ++ [FeLog INFO (UserAppid user_input game_name)])
    end
  else
    match find_appid_by_name net user_input choice with
    | (FRaise e, out) => ((FRaise e, st), out)
    | (FOk None, out) => ((FOk tt, st), out ++ [FePrintNoMatch])
    | (FOk (Some (EmptyString, _)), out) =>
        ((FOk tt, st), out ++ [FePrintNoMatch])
    | (FOk (Some (appid, game_name)), out) => run appid game_name out
    end.

(** The replies on which the program finds no game: a status other than
    200, a transport error or a reply that is not JSON, an object without
    [games] or with an empty list. *)
Definition no_game_reply (reply : search_reply) : bool :=
  match reply with
  | SearchResp status body =>
      if Nat.eqb status 200 then
        match body with
        | JsonObject None => true
        | JsonObject (Some games) =>
            match games with [] => true | _ => false end
        | JsonRaise e => is_ClientError e
        end
      else true
  | SearchRaise e => is_ClientError e
  end.

(** Sample data of the front end. *)
Definition two_games : list game :=
  [ {| schinese_name := ""; name := "Demo"; appid := "10" |};
    {| schinese_name := "Shi"; name := "Other"; appid := "20" |} ].

Definition net_two_games (url : string) : search_reply :=
  SearchResp 200 (JsonObject (Some two_games)).

Definition net_down (url : string) : search_reply :=
  SearchRaise ClientError.

(** The superscript two, a digit that is not decimal. *)
Definition superscript_two : string := String "178"%char EmptyString.

End FrontEnd.

(** * Properties *)

(** ** Facts about Python strings *)

Section StringFacts.

Lemma length_append (a b : string) :
  String.length (a ++ b) = String.length a + String.length b.
Proof. induction a as [|c a IH]; simpl; [reflexivity | now rewrite IH]. Qed.

Lemma append_assoc (a b c : string) : ((a ++ b) ++ c = a ++ (b ++ c))%string.
Proof. induction a as [|x a IH]; simpl; [reflexivity | now rewrite IH]. Qed.

Lemma chars_append (a b : string) :
  list_ascii_of_string (a ++ b)
  = list_ascii_of_string a ++ list_ascii_of_string b.
Proof. induction a as [|x a IH]; simpl; [reflexivity | now rewrite IH]. Qed.

Lemma chars_inj (a b : string) :
  list_ascii_of_string a = list_ascii_of_string b -> a = b.
Proof.
  intros H.
  rewrite <- (string_of_list_ascii_of_string a),
          <- (string_of_list_ascii_of_string b).
  now rewrite H.
Qed.

Lemma drop_append (a b : string) : drop (String.length a) (a ++ b) = b.
Proof. induction a as [|x a IH]; simpl; [reflexivity | exact IH]. Qed.

Lemma take_append (a b : string) : take (String.length a) (a ++ b) = a.
Proof. induction a as [|x a IH]; simpl; [reflexivity | now rewrite IH]. Qed.

Lemma take_drop (n : nat) (s : string) : (take n s ++ drop n s)%string = s.
Proof.
  revert s; induction n as [|n IH]; intros [|c s]; simpl; try reflexivity.
  now rewrite IH.
Qed.

Lemma startswith_iff (s p : string) :
  startswith s p = true <-> exists r, s = (p ++ r)%string.
Proof.
  revert s; induction p as [|c p IH]; intros s; simpl.
  - split; [intros _; now exists s | intros _; reflexivity].
  - destruct s as [|d s].
    + split; [discriminate | intros [r Hr]; discriminate].
    + rewrite andb_true_iff, Ascii.eqb_eq, IH. split.
      * intros [-> [r ->]]. now exists r.
      * intros [r Hr]. injection Hr as -> ->. split; [reflexivity | now exists r].
Qed.

Lemma endswith_iff (s p : string) :
  endswith s p = true <-> exists r, s = (r ++ p)%string.
Proof.
  unfold endswith. rewrite andb_true_iff, Nat.leb_le, String.eqb_eq. split.
  - intros [Hlen Hd].
    exists (take (String.length s - String.length p) s).
    pose proof (take_drop (String.length s - String.length p) s) as H.
    rewrite Hd in H. now symmetry.
  - intros [r ->]. rewrite length_append. split; [lia|].
    replace (String.length r + String.length p - String.length p)
      with (String.length r) by lia.
    apply drop_append.
Qed.

Lemma join_cons (sep x y : string) (l : list string) :
  join sep (x :: y :: l) = (x ++ sep ++ join sep (y :: l))%string.
Proof. reflexivity. Qed.

Lemma split_nonempty (c : ascii) (s : string) : split c s <> [].
Proof.
  induction s as [|a s IH]; simpl; [discriminate|].
  destruct (Ascii.eqb a c); [discriminate|].
  destruct (split c s); discriminate.
Qed.

(** Joining the segments with the separator gives the string back. *)
Lemma join_split (c : ascii) (s : string) :
  join (String c "") (split c s) = s.
Proof.
  induction s as [|a s IH]; simpl; [reflexivity|].
  destruct (Ascii.eqb_spec a c) as [->|Hne].
  - destruct (split c s) as [|h t] eqn:Hs; [now apply split_nonempty in Hs|].
    rewrite join_cons, IH. reflexivity.
  - destruct (split c s) as [|h t] eqn:Hs; [now apply split_nonempty in Hs|].
    destruct t as [|h' t].
    + simpl in *. now rewrite IH.
    + rewrite join_cons in *. rewrite <- IH. reflexivity.
Qed.

(** No segment holds the separator. *)
Lemma split_no_sep (c : ascii) (s : string) :
  Forall (fun seg => has_char c seg = false) (split c s).
Proof.
  induction s as [|a s IH]; simpl.
  - constructor; [reflexivity | constructor].
  - destruct (Ascii.eqb a c) eqn:Hac.
    + constructor; [reflexivity | exact IH].
    + destruct (split c s) as [|h t]; [constructor; [|constructor]|].
      * simpl. now rewrite Hac.
      * inversion IH as [|? ? Hh Ht]; subst.
        constructor; [simpl; now rewrite Hac | exact Ht].
Qed.

Lemma isdecimal_chars (s : string) :
  isdecimal s = true <->
  s <> "" /\
  forall c, In c (list_ascii_of_string s) ->
            48 <= nat_of_ascii c <= 57.
Proof.
  assert (Hall : forall t, all_chars isdecimal_char t = true <->
            forall c, In c (list_ascii_of_string t) ->
                      48 <= nat_of_ascii c <= 57).
  { induction t as [|a t IH]; simpl.
    - split; [intros _ c [] | reflexivity].
    - rewrite andb_true_iff, IH. unfold isdecimal_char.
      rewrite andb_true_iff, !Nat.leb_le. split.
      + intros [Ha Ht] c [<-|Hc]; [exact Ha | now apply Ht].
      + intros H. split; [apply H; now left | intros c Hc; apply H; now right]. }
  destruct s as [|a s].
  - simpl. split; [discriminate | intros [H _]; now elim H].
  - unfold isdecimal. rewrite Hall. split.
    + intros H; split; [discriminate | exact H].
    + intros [_ H]; exact H.
Qed.

(** The first element a filter keeps. *)
Lemma filter_head {A} (p : A -> bool) (l : list A) (x : A) (rest : list A) :
  filter p l = x :: rest ->
  exists before after,
    l = before ++ x :: after /\ p x = true /\
    Forall (fun y => p y = false) before.
Proof.
  induction l as [|a l IH]; simpl; [discriminate|].
  destruct (p a) eqn:Hp.
  - intros H; injection H as -> _. exists [], l. repeat split; auto.
  - intros H. destruct (IH H) as (b & af & -> & Hx & Hb).
    exists (a :: b), af. repeat split; auto.
Qed.

Lemma filter_nil_iff {A} (p : A -> bool) (l : list A) :
  filter p l = [] <-> Forall (fun y => p y = false) l.
Proof.
  induction l as [|a l IH]; simpl.
  - split; [constructor | reflexivity].
  - destruct (p a) eqn:Hp.
    + split; [discriminate | intros H; inversion H; congruence].
    + rewrite IH. split; [now constructor | intros H; now inversion H].
Qed.

End StringFacts.

(** ** Facts about paths *)

Lemma has_char_append (c : ascii) (a b : string) :
  has_char c (a ++ b) = has_char c a || has_char c b.
Proof.
  induction a as [|x a IH]; simpl; [reflexivity|].
  now rewrite IH, orb_assoc.
Qed.

Lemma dir_head_no_slash (name : string) :
  has_char "/" name = false -> dir_head name = "".
Proof.
  induction name as [|c name IH]; simpl; [reflexivity|].
  intros H. apply orb_false_iff in H as [Hc Hn].
  rewrite Hn. unfold is_slash. now rewrite Hc.
Qed.

Lemma dir_head_append (d name : string) :
  has_char "/" name = false -> dir_head (d ++ name) = dir_head d.
Proof.
  intros Hn. induction d as [|c d IH]; simpl.
  - now apply dir_head_no_slash.
  - rewrite has_char_append, Hn, orb_false_r, IH. reflexivity.
Qed.

Lemma dir_head_slash (d : string) : dir_head (d ++ "/") = (d ++ "/")%string.
Proof.
  induction d as [|c d IH]; simpl; [reflexivity|].
  rewrite has_char_append. simpl. rewrite orb_true_r. now rewrite IH.
Qed.

Lemma rstrip_slashes_slash (d : string) :
  rstrip_slashes (d ++ "/") = rstrip_slashes d.
Proof.
  induction d as [|c d IH]; simpl; [reflexivity|]. now rewrite IH.
Qed.

Lemma mem_existsb (x : string) (l : list string) (f : string -> bool) :
  mem x l = true -> f x = true -> existsb f l = true.
Proof.
  unfold mem. intros Hm Hf. apply existsb_exists in Hm as (y & Hin & Heq).
  apply String.eqb_eq in Heq. subst y. apply existsb_exists. now exists x.
Qed.

(** A name without a slash lies directly in the directory it is joined
    to. *)
Lemma dir_exists_join (f : filesys) (d name : string) :
  has_char "/" name = false ->
  mem d (dirs f) = true ->
  dir_exists f (os_path_dirname (os_path_join d name)) = true.
Proof.
  intros Hn Hd. unfold os_path_join.
  assert (Hs : startswith name "/" = false).
  { destruct name as [|a name]; simpl; [reflexivity|].
    simpl in Hn. apply orb_false_iff in Hn as [-> _]. reflexivity. }
  rewrite Hs.
  assert (Hhead : forall h, rstrip_slashes h = rstrip_slashes d ->
                   dir_exists f (if all_chars is_slash h then h
                                 else rstrip_slashes h) = true).
  { intros h Hh. unfold dir_exists.
    destruct (all_chars is_slash h) eqn:Hall; [now rewrite Hall|].
    apply orb_true_iff. right. apply mem_existsb with (x := d); [assumption|].
    rewrite Hh. apply String.eqb_refl. }
  destruct d as [|c d].
  - unfold os_path_dirname. rewrite (dir_head_no_slash _ Hn). reflexivity.
  - destruct (endswith (String c d) "/") eqn:He.
    + apply endswith_iff in He as [r Hr]. unfold os_path_dirname.
      rewrite dir_head_append by assumption. rewrite Hr, dir_head_slash.
      apply Hhead. now rewrite Hr.
    + unfold os_path_dirname. rewrite <- append_assoc.
      rewrite dir_head_append by assumption. rewrite dir_head_slash.
      apply Hhead. apply rstrip_slashes_slash.
Qed.

(** ** Identifier normalization *)

(** C4. Normalization cuts the stripped token at its hyphens and returns the
    first segment that [isdecimal] accepts: a segment that is not empty and
    made of decimal characters only, which among the characters of ASCII
    are the digits 0 to 9; when no segment is, it raises [IndexError] and
    returns no identifier. *)
Theorem normalize_first_decimal_segment (tok : string) :
  let segs := split "-" (strip tok) in
  join "-" segs = strip tok /\
  Forall (fun seg => has_char "-" seg = false) segs /\
  (forall s, normalize tok = Ok s <->
     exists before after,
       segs = before ++ s :: after /\ isdecimal s = true /\
       Forall (fun x => isdecimal x = false) before) /\
  (normalize tok = Raise IndexError <->
     Forall (fun x => isdecimal x = false) segs) /\
  (forall s, normalize tok = Ok s ->
     In s segs /\ isdecimal s = true /\ s <> "" /\
     forall c, In c (list_ascii_of_string s) ->
               isdecimal_char c = true /\
               (nat_of_ascii c < 128 -> 48 <= nat_of_ascii c <= 57)) /\
  normalize "123-456" = Ok "123" /\
  normalize "abc" = Raise IndexError.
Proof.
  intros segs.
  assert (Hok : forall s, normalize tok = Ok s <->
     exists before after,
       segs = before ++ s :: after /\ isdecimal s = true /\
       Forall (fun x => isdecimal x = false) before).
  { intros s. unfold normalize. fold segs. split.
    - destruct (filter isdecimal segs) as [|x rest] eqn:Hf; [discriminate|].
      intros H; injection H as ->. now apply filter_head with (rest := rest).
    - intros (before & after & Hsegs & Hs & Hb).
      rewrite Hsegs, filter_app. simpl. rewrite Hs.
      apply filter_nil_iff in Hb. now rewrite Hb. }
  split; [apply join_split|].
  split; [apply split_no_sep|].
  split; [exact Hok|].
  split.
  - unfold normalize. fold segs. rewrite <- filter_nil_iff.
    destruct (filter isdecimal segs); split; intros H;
      try reflexivity; discriminate.
  - split; [|split; reflexivity].
    intros s Hs. apply Hok in Hs.
    destruct Hs as (before & after & Hsegs & Hd & _).
    split; [rewrite Hsegs; apply in_or_app; right; now left|].
    split; [exact Hd|].
    pose proof (proj1 (isdecimal_chars s) Hd) as [Hne Hall].
    split; [exact Hne|]. intros c Hc. specialize (Hall c Hc).
    split; [|intros _; exact Hall].
    unfold isdecimal_char. cbv zeta.
    apply andb_true_iff. split; apply Nat.leb_le; lia.
Qed.

Lemma normalize_first_decimal_segment_witness :
  normalize " ab-123-456 " = Ok "123" /\
  In "123"%string (split "-" (strip " ab-123-456 ")) /\
  isdecimal "123" = true /\
  "123"%string <> ""%string /\
  forall c, In c (list_ascii_of_string "123") ->
            isdecimal_char c = true /\
            (nat_of_ascii c < 128 -> 48 <= nat_of_ascii c <= 57).
Proof.
  split; [reflexivity|].
  apply (proj1 (proj2 (proj2 (proj2 (proj2
           (normalize_first_decimal_segment " ab-123-456 ")))))).
  reflexivity.
Defined.

(** ** Manifest bindings *)

Lemma no_underscore_in_extension (l r : list ascii) :
  list_ascii_of_string ".manifest" <> (l ++ ["_"%char]) ++ r.
Proof.
  intros Heq.
  assert (Hin : In "_"%char (list_ascii_of_string ".manifest")).
  { rewrite Heq. apply in_or_app. left. apply in_or_app. right. now left. }
  simpl in Hin.
  repeat (destruct Hin as [Hin|Hin]; [discriminate|]). exact Hin.
Qed.

(** A name that starts with [<depot>_] and ends with [.manifest] is
    [<depot>_<token>.manifest]: the two tests cannot overlap. *)
Lemma manifest_name_shape (depot_id f : string) :
  startswith f (depot_id ++ "_") && endswith f ".manifest" = true <->
  exists tok, f = (depot_id ++ "_" ++ tok ++ ".manifest")%string.
Proof.
  rewrite andb_true_iff, startswith_iff, endswith_iff. split.
  - intros [[r Hr] [r2 Hr2]].
    assert (Hl : (list_ascii_of_string depot_id ++ ["_"%char])
                 ++ list_ascii_of_string r
                 = list_ascii_of_string r2 ++ list_ascii_of_string ".manifest").
    { rewrite <- !chars_append.
      change ["_"%char] with (list_ascii_of_string "_").
      rewrite <- !chars_append, <- Hr. now rewrite Hr2 at 1. }
    apply app_eq_app in Hl. destruct Hl as [l [[H1 H2]|[H1 H2]]].
    + destruct l as [|x l].
      * rewrite app_nil_l in H2. exists ""%string.
        apply chars_inj in H2. subst r.
        rewrite Hr. now rewrite append_assoc.
      * exfalso.
        destruct (@exists_last _ (x :: l)) as (l' & y & Hl');
          [discriminate|].
        rewrite Hl' in H1, H2. rewrite app_assoc in H1.
        apply app_inj_tail in H1. destruct H1 as [_ <-].
        now apply no_underscore_in_extension in H2.
    + exists (string_of_list_ascii l). rewrite Hr, append_assoc.
      do 2 f_equal. apply chars_inj.
      now rewrite chars_append, list_ascii_of_string_of_list_ascii.
  - intros [tok ->]. split.
    + exists (tok ++ ".manifest")%string. now rewrite append_assoc.
    + exists (depot_id ++ "_" ++ tok)%string. now rewrite !append_assoc.
Qed.

Lemma manifest_id_of_shape (depot_id tok : string) :
  manifest_id_of depot_id (depot_id ++ "_" ++ tok ++ ".manifest") = tok.
Proof.
  unfold manifest_id_of, slice_to_end_minus.
  replace (String.length depot_id + 1)
    with (String.length (depot_id ++ "_")).
  2:{ rewrite length_append. reflexivity. }
  rewrite <- append_assoc, drop_append.
  rewrite !length_append.
  match goal with
  | |- take ?n _ = _ =>
      replace n with (String.length tok) by (simpl; lia)
  end.
  apply take_append.
Qed.

(** C6. For a depot and a listing, the names bound are exactly those of the
    form [<depot>_<token>.manifest], each bound to its token, in the order
    of the listing. *)
Theorem bindings_select_depot_manifests (depot_id : string)
  (listing : list string) :
  (forall f, In f (manifest_files depot_id listing) <->
     In f listing /\
     startswith f (depot_id ++ "_") = true /\
     endswith f ".manifest" = true) /\
  (forall f, startswith f (depot_id ++ "_") = true ->
             endswith f ".manifest" = true ->
             f = (depot_id ++ "_" ++ manifest_id_of depot_id f
                  ++ ".manifest")%string) /\
  (forall d tok, In (d, tok) (bindings depot_id listing) <->
     d = depot_id /\
     In (depot_id ++ "_" ++ tok ++ ".manifest")%string listing) /\
  (forall l1 l2, bindings depot_id (l1 ++ l2)
                 = bindings depot_id l1 ++ bindings depot_id l2) /\
  bindings "10" ["10_111.manifest"; "10_222.manifest"; "20_333.manifest"]
  = [("10", "111"); ("10", "222")].
Proof.
  split; [|split; [|split; [|split]]].
  - intros f. unfold manifest_files.
    rewrite filter_In, andb_true_iff. tauto.
  - intros f Hs He.
    assert (H : startswith f (depot_id ++ "_") && endswith f ".manifest"
                = true) by now rewrite Hs, He.
    apply manifest_name_shape in H. destruct H as [tok ->].
    now rewrite manifest_id_of_shape.
  - intros d tok. unfold bindings. rewrite in_map_iff. split.
    + intros (f & Hf & Hin). injection Hf as <- <-.
      unfold manifest_files in Hin. apply filter_In in Hin.
      destruct Hin as [Hin Hsel]. split; [reflexivity|].
      apply manifest_name_shape in Hsel. destruct Hsel as [tok ->].
      now rewrite manifest_id_of_shape.
    + intros [-> Hin].
      exists (depot_id ++ "_" ++ tok ++ ".manifest")%string.
      rewrite manifest_id_of_shape. split; [reflexivity|].
      unfold manifest_files. apply filter_In. split; [exact Hin|].
      apply manifest_name_shape. now exists tok.
  - intros l1 l2. unfold bindings, manifest_files.
    now rewrite filter_app, map_app.
  - reflexivity.
Qed.

Lemma bindings_select_depot_manifests_witness :
  "10_111.manifest"%string
  = ("10" ++ "_" ++ manifest_id_of "10" "10_111.manifest" ++ ".manifest")%string
  /\ In ("10", "222")
        (bindings "10" ["10_111.manifest"; "10_222.manifest";
                        "20_333.manifest"]).
Proof.
  pose proof (bindings_select_depot_manifests "10"
                ["10_111.manifest"; "10_222.manifest"; "20_333.manifest"])
    as (_ & Hshape & Hin & _).
  split.
  - apply Hshape; reflexivity.
  - apply Hin. split; [reflexivity|]. right. now left.
Defined.

(** ** The script generator *)

Section Script.

Variable E : env.

Lemma manifest_lines_spec (depot_id : string) (names lua_lines : list string) :
  manifest_lines depot_id names lua_lines
  = lua_lines
    ++ map (fun f => manifest_line depot_id (manifest_id_of depot_id f)) names.
Proof.
  revert lua_lines; induction names as [|f names IH]; intros lua_lines; simpl.
  - now rewrite app_nil_r.
  - rewrite IH, <- app_assoc. reflexivity.
Qed.

Lemma depot_lines_spec (records : list depot) (save_dir : string)
  (lua_lines : list string) (st : state) :
  mem save_dir (dirs (fs st)) = true ->
  depot_lines E records save_dir lua_lines st
  = (Ok (lua_lines
         ++ flat_map (fun r : depot =>
                        depot_line E (fst r) (snd r)
                        :: map (fun b => manifest_line (fst b) (snd b))
                               (bindings (fst r) (fs_listdir (fs st) save_dir)))
                     records), st).
Proof.
  intros Hdir. revert lua_lines.
  induction records as [|[depot_id key] records IH]; intros lua_lines; simpl.
  - now rewrite app_nil_r.
  - unfold bind at 1. unfold os_listdir at 1. rewrite Hdir.
    rewrite IH, manifest_lines_spec. unfold bindings.
    rewrite map_map. simpl. rewrite <- !app_assoc. reflexivity.
Qed.

End Script.

(** C7. In a destination directory that exists, the script is the
    identifier line, then for each depot record in order its line and the
    lines of its bindings in listing order, joined by line feeds, and
    nothing else; the generator leaves the state as it was. The records
    [("10","AA")] with the one manifest [10_111.manifest] give the three
    lines of the example. *)
Theorem parse_vdf_to_lua_script (E : env) :
  (forall (records : list depot) (appid save_dir : string) (st : state),
     mem save_dir (dirs (fs st)) = true ->
     parse_vdf_to_lua E records appid save_dir st
     = (Ok (script_of_spec E appid records (fs_listdir (fs st) save_dir)),
        st)) /\
  script_of_spec E "10" [("10", PStr "AA")] ["10_111.manifest"]
  = ("addappid(10)" ++ newline
     ++ "addappid(10,1," ++ dquote ++ "AA" ++ dquote ++ ")" ++ newline
     ++ "setManifestid(10," ++ dquote ++ "111" ++ dquote ++ ",0)")%string.
Proof.
  split; [|reflexivity].
  intros records appid save_dir st Hdir. unfold parse_vdf_to_lua, bind.
  rewrite depot_lines_spec by exact Hdir. reflexivity.
Qed.

Lemma parse_vdf_to_lua_script_witness :
  parse_vdf_to_lua (Samples.env_of (fun _ _ => Resp 404 "") [])
    [("10", PStr "AA")] "10" "[10]Demo" Samples.with_manifest
  = (Ok ("addappid(10)" ++ newline
         ++ "addappid(10,1," ++ dquote ++ "AA" ++ dquote ++ ")" ++ newline
         ++ "setManifestid(10," ++ dquote ++ "111" ++ dquote ++ ",0)")%string,
     Samples.with_manifest).
Proof.
  rewrite (proj1 (parse_vdf_to_lua_script
                    (Samples.env_of (fun _ _ => Resp 404 "") []))
                 [("10", PStr "AA")] "10" "[10]Demo" Samples.with_manifest);
    reflexivity.
Defined.

(** ** The mirror fetcher *)

Section Fetch.

Variable E : env.

Ltac step := unfold bind, request, log, emit, ret, raise; simpl.

(** The mirrors that fail at the head of a pass are requested once each,
    in order, and skipped: nothing is read, no retry is counted. *)
Lemma try_mirrors_skip (path : string) (pre rest : list string) (st : state) :
  (forall i u, nth_error pre i = Some u ->
               mirror_fails (cdn E (clock st + i) u) = true) ->
  exists st1 l,
    try_mirrors E path (pre ++ rest) st = try_mirrors E path rest st1 /\
    trace st1 = trace st ++ l /\ fs st1 = fs st /\
    clock st1 = clock st + List.length pre /\
    requests_of l = pre /\ reads_of l = [] /\ retries_of l = [].
Proof.
  revert st; induction pre as [|u pre IH]; intros st Hfail.
  - exists st, []. simpl. rewrite app_nil_r, Nat.add_0_r. repeat split.
  - pose proof (Hfail 0 u eq_refl) as H0. rewrite Nat.add_0_r in H0.
    set (st1 := {| clock := S (clock st); fs := fs st;
                   trace := trace st ++ [EvGet u] |}).
    assert (Hrest : forall msg,
              match msg with RetryLeft _ _ => False | _ => True end ->
              exists st' l,
              try_mirrors E path (pre ++ rest)
                {| clock := clock st1; fs := fs st1;
                   trace := trace st1 ++ [EvLog ERROR msg] |}
              = try_mirrors E path rest st' /\
              trace st' = trace st ++ l /\ fs st' = fs st /\
              clock st' = clock st + List.length (u :: pre) /\
              requests_of l = u :: pre /\ reads_of l = [] /\
              retries_of l = []).
    { intros msg Hmsg.
      destruct (IH {| clock := clock st1; fs := fs st1;
                      trace := trace st1 ++ [EvLog ERROR msg] |})
        as (st' & l & Hrun & Htr & Hfs & Hck & Hreq & Hrd & Hrt).
      - intros i v Hi. simpl. specialize (Hfail (S i) v Hi).
        now rewrite Nat.add_succ_r in Hfail.
      - exists st', (EvGet u :: EvLog ERROR msg :: l). simpl in *.
        repeat split; try assumption.
        + rewrite Htr, <- !app_assoc. reflexivity.
        + lia.
        + now rewrite Hreq.
        + destruct msg; simpl; solve [exact Hrt | contradiction]. }
    simpl. step. fold st1.
    destruct (cdn E (clock st) u) as [status body|e]; simpl in H0.
    + destruct (Nat.eqb status 200); [discriminate|]. now apply Hrest.
    + rewrite H0. now apply Hrest.
Qed.

(** One pass in which every mirror fails. *)
Lemma try_mirrors_all_fail (path : string) (urls : list string) (st : state) :
  (forall i u, nth_error urls i = Some u ->
               mirror_fails (cdn E (clock st + i) u) = true) ->
  exists st' l,
    try_mirrors E path urls st = (Ok None, st') /\
    trace st' = trace st ++ l /\ fs st' = fs st /\
    clock st' = clock st + List.length urls /\
    requests_of l = urls /\ reads_of l = [] /\ retries_of l = [].
Proof.
  intros Hfail.
  destruct (try_mirrors_skip path urls [] st Hfail) as (st1 & l & Hrun & H).
  exists st1, l. rewrite app_nil_r in Hrun. now rewrite Hrun.
Qed.

(** One pass in which the mirrors before [u] fail and [u] answers 200. *)
Lemma try_mirrors_first_success (path : string) (pre post : list string)
  (u body : string) (st : state) :
  (forall i v, nth_error pre i = Some v ->
               mirror_fails (cdn E (clock st + i) v) = true) ->
  cdn E (clock st + List.length pre) u = Resp 200 body ->
  exists st' l,
    try_mirrors E path (pre ++ u :: post) st = (Ok (Some body), st') /\
    trace st' = trace st ++ l /\ fs st' = fs st /\
    clock st' = clock st + List.length pre + 1 /\
    requests_of l = pre ++ [u] /\ reads_of l = [u] /\ retries_of l = [].
Proof.
  intros Hfail Hok.
  destruct (try_mirrors_skip path pre (u :: post) st Hfail)
    as (st1 & l & Hrun & Htr & Hfs & Hck & Hreq & Hrd & Hrt).
  rewrite Hrun. simpl. step. rewrite Hck, Hok. simpl.
  eexists; exists (l ++ [EvGet u; EvRead u]). split; [reflexivity|]. simpl.
  unfold requests_of, reads_of, retries_of in *.
  rewrite !flat_map_app, Hreq, Hrd, Hrt. simpl.
  repeat split; try assumption.
  - rewrite Htr, <- !app_assoc. reflexivity.
  - lia.
Qed.

(** The whole loop when every mirror fails from now on: [retry] full
    passes, the warnings count the budget down, the last line reports the
    exhaustion, and the value is [None]. *)
Lemma retry_loop_all_fail (path : string) (urls : list string) (retry : nat)
  (st : state) :
  (forall n u, clock st <= n -> mirror_fails (cdn E n u) = true) ->
  exists st' l,
    retry_loop E path urls retry st = (Ok None, st') /\
    trace st' = trace st ++ l ++ [EvLog ERROR (RetryExhausted path)] /\
    fs st' = fs st /\
    clock st' = clock st + retry * List.length urls /\
    requests_of l = List.concat (repeat urls retry) /\ reads_of l = [] /\
    retries_of l = rev (seq 0 retry).
Proof.
  revert st; induction retry as [|retry IH]; intros st Hfail.
  - simpl. step. eexists; exists []. split; [reflexivity|]. simpl.
    repeat split. lia.
  - destruct (try_mirrors_all_fail path urls st)
      as (st1 & l1 & Hrun & Htr & Hfs & Hck & Hreq & Hrd & Hrt).
    { intros i u _. apply Hfail. lia. }
    cbn [retry_loop]. unfold bind at 1. rewrite Hrun. step.
    destruct (IH {| clock := clock st1; fs := fs st1;
                    trace := trace st1 ++ [EvLog WARNING (RetryLeft retry path)] |})
      as (st2 & l2 & Hrun2 & Htr2 & Hfs2 & Hck2 & Hreq2 & Hrd2 & Hrt2).
    { intros n u Hn. simpl in Hn. apply Hfail. lia. }
    exists st2, (l1 ++ EvLog WARNING (RetryLeft retry path) :: l2).
    split; [exact Hrun2|]. simpl in *.
    unfold requests_of, reads_of, retries_of in *.
    rewrite !flat_map_app. simpl. rewrite Hreq, Hrd, Hrt, Hreq2, Hrd2, Hrt2.
    repeat split.
    + rewrite Htr2, Htr, <- !app_assoc. reflexivity.
    + congruence.
    + lia.
    + change (rev (seq 1 retry) ++ [0]) with (rev (seq 0 (S retry))).
      rewrite seq_S, rev_app_distr. reflexivity.
Qed.

End Fetch.

(** C2. When every mirror fails on every attempt, [get] makes exactly three
    full passes over the mirror list in order, reads nothing, counts the
    budget down 2, 1, 0, reports the exhaustion and returns [None]: a
    value, not an exception. *)
Theorem get_all_mirrors_fail (E : env) (sha path repo : string) (st : state) :
  (forall n u, clock st <= n -> mirror_fails (cdn E n u) = true) ->
  exists st' l,
    get E sha path repo st = (Ok None, st') /\
    trace st' = trace st ++ l ++ [EvLog ERROR (RetryExhausted path)] /\
    requests_of l
    = url_list sha path repo ++ url_list sha path repo
      ++ url_list sha path repo /\
    reads_of l = [] /\
    retries_of l = [2; 1; 0] /\
    fs st' = fs st /\
    clock st' = clock st + 15.
Proof.
  intros Hfail.
  destruct (retry_loop_all_fail E path (url_list sha path repo) 3 st Hfail)
    as (st' & l & Hrun & Htr & Hfs & Hck & Hreq & Hrd & Hrt).
  exists st', l. unfold get.
  cbn [List.concat repeat] in Hreq. rewrite app_nil_r in Hreq.
  repeat split; assumption.
Qed.

Lemma get_all_mirrors_fail_witness :
  exists st' l,
    get Samples.env_nowhere "0a1b2c" "10_111.manifest" "ikun0014/ManifestHub"
        Samples.start = (Ok None, st') /\
    trace st'
    = trace Samples.start ++ l
      ++ [EvLog ERROR (RetryExhausted "10_111.manifest")] /\
    requests_of l
    = url_list "0a1b2c" "10_111.manifest" "ikun0014/ManifestHub"
      ++ url_list "0a1b2c" "10_111.manifest" "ikun0014/ManifestHub"
      ++ url_list "0a1b2c" "10_111.manifest" "ikun0014/ManifestHub" /\
    reads_of l = [] /\
    retries_of l = [2; 1; 0] /\
    fs st' = fs Samples.start /\
    clock st' = clock Samples.start + 15.
Proof.
  apply (@get_all_mirrors_fail Samples.env_nowhere "0a1b2c" "10_111.manifest"
           "ikun0014/ManifestHub" Samples.start).
  intros n u _. reflexivity.
Defined.

(** C3. With budget left, when the mirrors before the k-th fail and the
    k-th answers 200, the loop requests exactly the first k mirrors in
    order, reads one body, that of the k-th, returns it at once, and counts
    no retry: the mirrors skipped cost nothing of the budget and the
    mirrors after the k-th are not contacted. *)
Theorem retry_loop_first_success (E : env) (path : string)
  (pre post : list string) (u body : string) (retry : nat) (st : state) :
  0 < retry ->
  (forall i v, nth_error pre i = Some v ->
               mirror_fails (cdn E (clock st + i) v) = true) ->
  cdn E (clock st + List.length pre) u = Resp 200 body ->
  exists st' l,
    retry_loop E path (pre ++ u :: post) retry st = (Ok (Some body), st') /\
    trace st' = trace st ++ l /\
    requests_of l = pre ++ [u] /\
    reads_of l = [u] /\
    retries_of l = [] /\
    fs st' = fs st /\
    clock st' = clock st + List.length pre + 1.
Proof.
  intros Hretry Hfail Hok.
  destruct (@try_mirrors_first_success E path pre post u body st Hfail Hok)
    as (st' & l & Hrun & Htr & Hfs & Hck & Hreq & Hrd & Hrt).
  exists st', l. destruct retry as [|retry]; [lia|].
  cbn [retry_loop]. unfold bind. rewrite Hrun. unfold ret.
  repeat split; assumption.
Qed.

Lemma retry_loop_first_success_witness :
  exists st' l,
    get (Samples.env_of Samples.net_third []) "0a1b2c" "10_111.manifest"
        "ikun0014/ManifestHub" Samples.start = (Ok (Some "m111"), st') /\
    trace st' = trace Samples.start ++ l /\
    requests_of l
    = [ "https://jsdelivr.pai233.top/gh/ikun0014/ManifestHub@0a1b2c/10_111.manifest";
        "https://cdn.jsdmirror.com/gh/ikun0014/ManifestHub@0a1b2c/10_111.manifest" ]
      ++ [ "https://raw.gitmirror.com/ikun0014/ManifestHub/0a1b2c/10_111.manifest" ] /\
    reads_of l
    = [ "https://raw.gitmirror.com/ikun0014/ManifestHub/0a1b2c/10_111.manifest" ] /\
    retries_of l = [] /\
    fs st' = fs Samples.start /\
    clock st' = clock Samples.start + 2 + 1.
Proof.
  apply (@retry_loop_first_success (Samples.env_of Samples.net_third [])
           "10_111.manifest"
           [ "https://jsdelivr.pai233.top/gh/ikun0014/ManifestHub@0a1b2c/10_111.manifest";
             "https://cdn.jsdmirror.com/gh/ikun0014/ManifestHub@0a1b2c/10_111.manifest" ]
           [ "https://raw.dgithub.xyz/ikun0014/ManifestHub/0a1b2c/10_111.manifest";
             "https://gh.akass.cn/ikun0014/ManifestHub/0a1b2c/10_111.manifest" ]
           "https://raw.gitmirror.com/ikun0014/ManifestHub/0a1b2c/10_111.manifest"
           "m111" 3 Samples.start).
  - lia.
  - intros [|[|i]] v Hv; simpl in *; try reflexivity.
    destruct i; discriminate.
  - reflexivity.
Defined.

(** ** The key file *)

Lemma collect_depots_ok (its : list (string * pyval)) (keys : list pyval)
  (collected : list depot) :
  Forall2 (fun it key => getitem (snd it) "DecryptionKey" = Ok key) its keys ->
  collect_depots its collected
  = Ok (collected ++ combine (map fst its) keys).
Proof.
  intros H. revert collected.
  induction H as [|[depot_id info] key its keys Hkey _ IH]; intros collected.
  - simpl. now rewrite app_nil_r.
  - simpl in *. rewrite Hkey, IH, <- app_assoc. reflexivity.
Qed.

(** C5. A document whose [depots] section maps 10 to a section with
    [DecryptionKey] AA and 20 to one with BB gives the records (10, AA),
    (20, BB) in that order; a document without a [depots] section gives
    [KeyError], not a record sequence, from [depots_of_config] and from
    [parse_key_file]. *)
Theorem depots_of_config_records (E : env) :
  (forall doc d10 d20,
     dict_get doc "depots" = Some (PDict [("10", PDict d10); ("20", PDict d20)]) ->
     dict_get d10 "DecryptionKey" = Some (PStr "AA") ->
     dict_get d20 "DecryptionKey" = Some (PStr "BB") ->
     depots_of_config doc = Ok [("10", PStr "AA"); ("20", PStr "BB")]) /\
  (forall doc,
     dict_get doc "depots" = None ->
     depots_of_config doc = Raise (KeyError "depots")) /\
  (forall content doc,
     vdf_loads E content = inr doc ->
     parse_key_file E content = depots_of_config doc) /\
  (forall doc its keys,
     dict_get doc "depots" = Some (PDict its) ->
     Forall2 (fun it key => getitem (snd it) "DecryptionKey" = Ok key)
             its keys ->
     depots_of_config doc = Ok (combine (map fst its) keys)).
Proof.
  split; [|split; [|split]].
  4:{ intros doc its keys Hdepots Hkeys. unfold depots_of_config. simpl.
      rewrite Hdepots. simpl. now rewrite (collect_depots_ok [] Hkeys). }
  - intros doc d10 d20 Hdepots H10 H20.
    unfold depots_of_config. simpl. rewrite Hdepots. simpl.
    now rewrite H10, H20.
  - intros doc Hnone. unfold depots_of_config. simpl. now rewrite Hnone.
  - intros content doc Hload. unfold parse_key_file. now rewrite Hload.
Qed.

Lemma depots_of_config_records_witness :
  depots_of_config Samples.key_doc = Ok [("10", PStr "AA"); ("20", PStr "BB")]
  /\ depots_of_config Samples.no_depots_doc = Raise (KeyError "depots")
  /\ parse_key_file (Samples.env_of (fun _ _ => Resp 404 "") [])
       (Samples.vdf_dumps Samples.key_doc)
     = Ok [("10", PStr "AA"); ("20", PStr "BB")].
Proof.
  pose proof (depots_of_config_records
                (Samples.env_of (fun _ _ => Resp 404 "") []))
    as (Hrec & Hnone & Hload & _).
  split; [|split].
  - apply (Hrec Samples.key_doc [("DecryptionKey", PStr "AA")]
                [("DecryptionKey", PStr "BB")]); reflexivity.
  - apply (Hnone Samples.no_depots_doc). reflexivity.
  - rewrite (Hload (Samples.vdf_dumps Samples.key_doc) Samples.key_doc);
      reflexivity.
Defined.

Lemma vdf_path_not_manifest (p : string) :
  mem p vdf_paths = true -> endswith p ".manifest" = false.
Proof.
  unfold mem, vdf_paths. simpl. rewrite !orb_true_iff, !String.eqb_eq.
  intros [->|[->|[->|H]]]; try reflexivity. discriminate.
Qed.

(** ** What a run can only add to *)

Lemma extends_refl (st : state) : extends st st.
Proof.
  split; [exists []; now rewrite app_nil_r | split; [apply incl_refl | lia]].
Qed.

Lemma extends_trans (st1 st2 st3 : state) :
  extends st1 st2 -> extends st2 st3 -> extends st1 st3.
Proof.
  intros ([l1 H1] & Hd1 & Hc1) ([l2 H2] & Hd2 & Hc2). split; [|split].
  - exists (l1 ++ l2). now rewrite H2, H1, app_assoc.
  - eapply incl_tran; eassumption.
  - lia.
Qed.

Lemma extends_in (st st' : state) (e : event) :
  extends st st' -> In e (trace st) -> In e (trace st').
Proof. intros ([l H] & _) Hin. rewrite H. apply in_or_app. now left. Qed.

Lemma monotone_ret {A} (a : A) : monotone (ret a).
Proof. intros st r st' H. injection H as _ <-. apply extends_refl. Qed.

Lemma monotone_raise {A} (e : exn) : monotone (@raise A e).
Proof. intros st r st' H. injection H as _ <-. apply extends_refl. Qed.

Lemma monotone_lift {A} (x : result A) : monotone (lift x).
Proof. destruct x; [apply monotone_ret | apply monotone_raise]. Qed.

Lemma monotone_bind {A B} (m : M A) (k : A -> M B) :
  monotone m -> (forall a, monotone (k a)) -> monotone (bind m k).
Proof.
  intros Hm Hk st r st' H. unfold bind in H.
  destruct (m st) as [[a|e] st1] eqn:Hrun.
  - eapply extends_trans; [eapply Hm; eassumption | eapply Hk; eassumption].
  - injection H as _ <-. eapply Hm; eassumption.
Qed.

Lemma monotone_try_except {A} (m : M A) (h : exn -> M A) :
  monotone m -> (forall e, monotone (h e)) -> monotone (try_except m h).
Proof.
  intros Hm Hh st r st' H. unfold try_except in H.
  destruct (m st) as [[a|e] st1] eqn:Hrun.
  - injection H as _ <-. eapply Hm; eassumption.
  - eapply extends_trans; [eapply Hm; eassumption | eapply Hh; eassumption].
Qed.

Lemma monotone_emit (e : event) : monotone (emit e).
Proof.
  intros st r st' H. injection H as _ <-.
  split; [now exists [e] | split; [apply incl_refl | simpl; lia]].
Qed.

Lemma monotone_request {A} (answer : nat -> string -> A) (url : string) :
  monotone (request answer url).
Proof.
  intros st r st' H. injection H as _ <-.
  split; [now exists [EvGet url] | split; [apply incl_refl | simpl; lia]].
Qed.

Lemma monotone_exists (p : string) : monotone (os_path_exists p).
Proof. intros st r st' H. injection H as _ <-. apply extends_refl. Qed.

Lemma monotone_listdir (d : string) : monotone (os_listdir d).
Proof.
  intros st r st' H. unfold os_listdir in H.
  destruct (mem d (dirs (fs st))); injection H as _ <-; apply extends_refl.
Qed.

(** The three ways [open] for writing can end. *)
Lemma write_file_inv (p content : string) (st st' : state) (r : result unit) :
  write_file p content st = (r, st') ->
  (r = Ok tt /\
   st' = {| clock := clock st;
            fs := {| dirs := dirs (fs st);
                     files := fs_put (files (fs st)) p content |};
            trace := trace st ++ [EvWrite p content] |} /\
   mem p (dirs (fs st)) = false /\
   dir_exists (fs st) (os_path_dirname p) = true) \/
  (r = Raise IsADirectoryError /\ st' = st /\ mem p (dirs (fs st)) = true) \/
  (r = Raise FileNotFoundError /\ st' = st /\
   mem p (dirs (fs st)) = false /\
   dir_exists (fs st) (os_path_dirname p) = false).
Proof.
  unfold write_file. intros H.
  destruct (mem p (dirs (fs st))) eqn:Hd.
  - injection H as <- <-. right. left. now repeat split.
  - destruct (dir_exists (fs st) (os_path_dirname p)) eqn:He;
      injection H as <- <-; [left | right; right]; now repeat split.
Qed.

Lemma write_file_ok (p content : string) (st : state) :
  mem p (dirs (fs st)) = false ->
  dir_exists (fs st) (os_path_dirname p) = true ->
  write_file p content st =
  (Ok tt, {| clock := clock st;
             fs := {| dirs := dirs (fs st);
                      files := fs_put (files (fs st)) p content |};
             trace := trace st ++ [EvWrite p content] |}).
Proof. unfold write_file. now intros -> ->. Qed.

Lemma monotone_write (p content : string) : monotone (write_file p content).
Proof.
  intros st r st' H.
  destruct (write_file_inv _ _ _ H)
    as [(_ & -> & _) | [(_ & -> & _) | (_ & -> & _)]];
    try apply extends_refl.
  split; [now exists [EvWrite p content]
         | split; [apply incl_refl | simpl; lia]].
Qed.

Lemma monotone_makedirs (p : string) : monotone (os_makedirs p).
Proof.
  intros st r st' H. unfold os_makedirs in H.
  destruct (mem p (map fst (files (fs st)))).
  - injection H as _ <-. apply extends_refl.
  - injection H as _ <-. split; [now exists [EvMkdir p] | split; [|simpl; lia]].
    simpl. destruct (mem p (dirs (fs st))); [apply incl_refl|].
    apply incl_appl, incl_refl.
Qed.

(** The steps follow the syntax of the program; [tac] closes the calls of
    functions shown monotone before. *)
Ltac mono_with tac :=
  repeat match goal with
         | H : monotone ?m |- monotone ?m => exact H
         | |- monotone (ret _) => apply monotone_ret
         | |- monotone (raise _) => apply monotone_raise
         | |- monotone (lift _) => apply monotone_lift
         | |- monotone (emit _) => apply monotone_emit
         | |- monotone (log _ _) => apply monotone_emit
         | |- monotone (request _ _) => apply monotone_request
         | |- monotone (os_path_exists _) => apply monotone_exists
         | |- monotone (os_listdir _) => apply monotone_listdir
         | |- monotone (write_file _ _) => apply monotone_write
         | |- monotone (os_makedirs _) => apply monotone_makedirs
         | |- monotone (bind _ _) => apply monotone_bind; [|intro]
         | |- monotone (try_except _ _) => apply monotone_try_except; [|intro]
         | |- monotone (if ?b then _ else _) => destruct b
         | |- monotone (match ?x with _ => _ end) => destruct x
         | |- monotone _ => tac
         end.

Ltac mono := mono_with fail.

Section Monotone.

Variable E : env.

Lemma monotone_try_mirrors (path : string) (urls : list string) :
  monotone (try_mirrors E path urls).
Proof. induction urls as [|u urls IH]; simpl; mono. Qed.

Lemma monotone_retry_loop (path : string) (urls : list string) (retry : nat) :
  monotone (retry_loop E path urls retry).
Proof.
  induction retry as [|retry IH]; simpl;
    mono_with ltac:(apply monotone_try_mirrors).
Qed.

Lemma monotone_get (sha path repo : string) : monotone (get E sha path repo).
Proof. apply monotone_retry_loop. Qed.

Lemma monotone_get_manifest (sha path save_dir repo : string) :
  monotone (get_manifest E sha path save_dir repo).
Proof.
  unfold get_manifest, get_manifest_body. mono_with ltac:(apply monotone_get).
Qed.

Lemma monotone_key_phase (sha save_dir repo : string) (tree : list string)
  (collected : list depot) :
  monotone (key_phase E sha save_dir repo tree collected).
Proof.
  induction tree as [|p tree IH]; simpl;
    mono_with ltac:(apply monotone_get_manifest).
Qed.

Lemma monotone_manifest_phase (sha save_dir repo : string)
  (tree : list string) (collected : list depot) :
  monotone (manifest_phase E sha save_dir repo tree collected).
Proof.
  revert collected; induction tree as [|p tree IH]; intros collected; simpl;
    mono_with ltac:(first [apply monotone_get_manifest | apply IH]).
Qed.

Lemma monotone_process_tree (sha save_dir repo : string) (tree : list string) :
  monotone (process_tree E sha save_dir repo tree).
Proof.
  unfold process_tree.
  mono_with ltac:(first [apply monotone_key_phase
                        | apply monotone_manifest_phase]).
Qed.

Lemma monotone_try_repo (app_id save_dir repo : string) :
  monotone (try_repo E app_id save_dir repo).
Proof.
  unfold try_repo. mono_with ltac:(apply monotone_process_tree).
Qed.

Lemma monotone_search_repos (app_id save_dir : string) (rs : list string) :
  monotone (search_repos E app_id save_dir rs).
Proof.
  induction rs as [|r rs IH]; simpl;
    mono_with ltac:(apply monotone_try_repo).
Qed.

End Monotone.

(** ** The search over the sources *)

Section Search.

Variable E : env.

Lemma bind_inv {A B} (m : M A) (k : A -> M B) (st st' : state)
  (r : result B) :
  bind m k st = (r, st') ->
  (exists a st1, m st = (Ok a, st1) /\ k a st1 = (r, st')) \/
  (exists e, m st = (Raise e, st') /\ r = Raise e).
Proof.
  unfold bind. destruct (m st) as [[a|e] st1]; intros H.
  - left. now exists a, st1.
  - right. injection H as <- <-. now exists e.
Qed.

(** A source is searched by asking for its branch first. *)
Lemma try_repo_trace (app_id save_dir repo : string) (st st' : state)
  (r : result (option (list depot))) :
  try_repo E app_id save_dir repo st = (r, st') ->
  exists l, trace st'
            = trace st ++ EvLog INFO (SearchRepo repo)
                       :: EvGet (branch_url repo app_id) :: l.
Proof.
  unfold try_repo. intros H.
  apply bind_inv in H. destruct H as [(u1 & st1 & Hlog & H)|(e & Hlog & _)];
    [|discriminate].
  injection Hlog as _ <-.
  apply bind_inv in H. destruct H as [(reply & st2 & Hreq & H)|(e & Hreq & _)];
    [|discriminate].
  injection Hreq as _ <-.
  match type of H with
  | ?m _ = _ => assert (Hk : monotone m)
  end.
  { mono_with ltac:(apply monotone_process_tree). }
  apply Hk in H. destruct H as ([l Hl] & _).
  exists l. rewrite Hl. cbn [trace]. rewrite <- !app_assoc. reflexivity.
Qed.

(** What a source returns at line 173 is not empty. *)
Lemma try_repo_some (app_id save_dir repo : string) (st st' : state)
  (c : list depot) :
  try_repo E app_id save_dir repo st = (Ok (Some c), st') -> c <> [].
Proof.
  unfold try_repo. intros H.
  apply bind_inv in H. destruct H as [(u1 & st1 & _ & H)|(e & _ & H)];
    [|discriminate].
  apply bind_inv in H. destruct H as [(reply & st2 & _ & H)|(e & _ & H)];
    [|discriminate].
  destruct reply as [sha tree_url date| |e]; try discriminate.
  apply bind_inv in H. destruct H as [(reply2 & st3 & _ & H)|(e & _ & H)];
    [|discriminate].
  destruct reply2 as [tree| |e]; try discriminate.
  apply bind_inv in H. destruct H as [(collected & st4 & _ & H)|(e & _ & H)];
    [|discriminate].
  destruct collected as [|x collected]; [discriminate|].
  cbn [nonempty] in H.
  apply bind_inv in H. destruct H as [(u5 & st5 & _ & H)|(e & _ & H)];
    [|discriminate].
  apply bind_inv in H. destruct H as [(u6 & st6 & _ & H)|(e & _ & H)];
    [|discriminate].
  injection H as <- _. discriminate.
Qed.

Lemma search_repos_head_requested (app_id save_dir repo : string)
  (rest : list string) (st st' : state) (r : result (list depot * string)) :
  search_repos E app_id save_dir (repo :: rest) st = (r, st') ->
  In (EvGet (branch_url repo app_id)) (trace st').
Proof.
  cbn [search_repos]. intros H. apply bind_inv in H.
  assert (Hin : forall x st1,
            try_repo E app_id save_dir repo st = (x, st1) ->
            In (EvGet (branch_url repo app_id)) (trace st1)).
  { intros x st1 Ht. apply try_repo_trace in Ht. destruct Ht as [l ->].
    apply in_or_app. right. right. now left. }
  destruct H as [(found & st1 & Ht & H)|(e & Ht & _)]; [|now apply Hin in Ht].
  apply Hin in Ht.
  match type of H with
  | ?m _ = _ => assert (Hk : monotone m)
  end.
  { mono_with ltac:(apply monotone_search_repos). }
  apply Hk in H. now apply (@extends_in st1 st').
Qed.

(** When the search returns no record, every source of the list has been
    asked, and the last line reports the failure. *)
Lemma search_repos_empty (app_id save_dir : string) (rs : list string)
  (st st' : state) (d : string) :
  search_repos E app_id save_dir rs st = (Ok ([], d), st') ->
  d = save_dir /\
  exists l,
    trace st' = trace st ++ l ++ [EvLog ERROR (AllReposFailed app_id)] /\
    forall r, In r rs -> In (EvGet (branch_url r app_id)) l.
Proof.
  revert st; induction rs as [|repo rs IH]; intros st H.
  - cbn in H. injection H as <- <-. split; [reflexivity|].
    exists []. split; [reflexivity | intros r []].
  - cbn [search_repos] in H. apply bind_inv in H.
    destruct H as [(found & st1 & Ht & H)|(e & _ & H)]; [|discriminate].
    destruct found as [c|].
    + injection H as -> _ _. now apply try_repo_some in Ht.
    + apply bind_inv in H.
      destruct H as [(u2 & st2 & Hlog & H)|(e & _ & H)]; [|discriminate].
      injection Hlog as _ <-.
      apply IH in H. destruct H as [-> (l2 & Htr & Hall)].
      split; [reflexivity|].
      apply try_repo_trace in Ht. destruct Ht as [l1 Hl1].
      exists (EvLog INFO (SearchRepo repo) :: EvGet (branch_url repo app_id)
              :: l1 ++ EvLog WARNING (NotInRepo repo) :: l2).
      split.
      * rewrite Htr. cbn [trace]. rewrite Hl1.
        rewrite <- !app_assoc. cbn [app]. rewrite <- !app_assoc. reflexivity.
      * intros r [<-|Hr]; [right; now left|].
        right. right. apply in_or_app. right. right. now apply Hall.
Qed.

(** A tree without key files and without manifests gives no record and
    leaves the state as it is. *)
Lemma process_tree_no_match (sha save_dir repo : string) (tree : list string)
  (st : state) :
  Forall (fun p => mem p vdf_paths = false /\ endswith p ".manifest" = false)
         tree ->
  process_tree E sha save_dir repo tree st = (Ok [], st).
Proof.
  intros Htree. unfold process_tree, bind.
  assert (Hkey : key_phase E sha save_dir repo tree [] st = (Ok [], st)).
  { induction Htree as [|p tree [Hp _] _ IH]; cbn [key_phase];
      [reflexivity | now rewrite Hp]. }
  rewrite Hkey. clear Hkey.
  induction Htree as [|p tree [_ Hp] _ IH]; cbn [manifest_phase];
    [reflexivity | rewrite Hp; apply IH].
Qed.

End Search.

(** ** What a run writes *)

Lemma endswith_join (a b suffix : string) :
  endswith b suffix = true -> endswith (os_path_join a b) suffix = true.
Proof.
  rewrite !endswith_iff. intros [r ->]. unfold os_path_join.
  destruct (startswith (r ++ suffix) "/"); [now exists r|].
  destruct a as [|c a]; [now exists r|].
  destruct (endswith (String c a) "/").
  - exists (String c a ++ r)%string. now rewrite append_assoc.
  - exists (String c a ++ "/" ++ r)%string. now rewrite !append_assoc.
Qed.

Lemma manifest_is_not_lua (s : string) :
  endswith s ".manifest" = true -> endswith s ".lua" = false.
Proof.
  intros Hm. destruct (endswith s ".lua") eqn:Hl; [|reflexivity].
  apply endswith_iff in Hm. apply endswith_iff in Hl.
  destruct Hm as [r ->]. destruct Hl as [r' Hl].
  apply (f_equal list_ascii_of_string) in Hl.
  rewrite !chars_append in Hl.
  apply (f_equal (@rev ascii)) in Hl. rewrite !rev_app_distr in Hl.
  simpl in Hl. discriminate.
Qed.

Lemma wm_ret {A} (a : A) : writes_manifests_only (ret a).
Proof.
  intros st r st' H. injection H as _ <-. exists [].
  now rewrite app_nil_r.
Qed.

Lemma wm_raise {A} (e : exn) : writes_manifests_only (@raise A e).
Proof.
  intros st r st' H. injection H as _ <-. exists [].
  now rewrite app_nil_r.
Qed.

Lemma wm_lift {A} (x : result A) : writes_manifests_only (lift x).
Proof. destruct x; [apply wm_ret | apply wm_raise]. Qed.

Lemma wm_bind {A B} (m : M A) (k : A -> M B) :
  writes_manifests_only m -> (forall a, writes_manifests_only (k a)) ->
  writes_manifests_only (bind m k).
Proof.
  intros Hm Hk st r st' H. unfold bind in H.
  destruct (m st) as [[a|e] st1] eqn:Hrun.
  - destruct (Hm _ _ _ Hrun) as (l1 & H1 & F1).
    destruct (Hk _ _ _ _ H) as (l2 & H2 & F2).
    exists (l1 ++ l2). split; [now rewrite H2, H1, app_assoc|].
    apply Forall_app. now split.
  - injection H as _ <-. eapply Hm; eassumption.
Qed.

Lemma wm_try_except {A} (m : M A) (h : exn -> M A) :
  writes_manifests_only m -> (forall e, writes_manifests_only (h e)) ->
  writes_manifests_only (try_except m h).
Proof.
  intros Hm Hh st r st' H. unfold try_except in H.
  destruct (m st) as [[a|e] st1] eqn:Hrun.
  - injection H as _ <-. eapply Hm; eassumption.
  - destruct (Hm _ _ _ Hrun) as (l1 & H1 & F1).
    destruct (Hh _ _ _ _ H) as (l2 & H2 & F2).
    exists (l1 ++ l2). split; [now rewrite H2, H1, app_assoc|].
    apply Forall_app. now split.
Qed.

Lemma wm_emit (e : event) : manifest_event e -> writes_manifests_only (emit e).
Proof.
  intros He st r st' H. injection H as _ <-. exists [e].
  split; [reflexivity | now constructor].
Qed.

Lemma wm_request {A} (answer : nat -> string -> A) (url : string) :
  writes_manifests_only (request answer url).
Proof.
  intros st r st' H. injection H as _ <-. exists [EvGet url].
  split; [reflexivity | now constructor].
Qed.

Lemma wm_exists (p : string) : writes_manifests_only (os_path_exists p).
Proof.
  intros st r st' H. injection H as _ <-. exists [].
  now rewrite app_nil_r.
Qed.

Lemma wm_makedirs (p : string) : writes_manifests_only (os_makedirs p).
Proof.
  intros st r st' H. unfold os_makedirs in H.
  destruct (mem p (map fst (files (fs st)))); injection H as _ <-.
  - exists []. now rewrite app_nil_r.
  - exists [EvMkdir p]. split; [reflexivity | now constructor].
Qed.

Lemma wm_write (p content : string) :
  endswith p ".manifest" = true -> writes_manifests_only (write_file p content).
Proof.
  intros Hp st r st' H.
  destruct (write_file_inv _ _ _ H)
    as [(_ & -> & _) | [(_ & -> & _) | (_ & -> & _)]];
    try (exists []; now rewrite app_nil_r).
  exists [EvWrite p content]. split; [reflexivity | now constructor].
Qed.

Ltac wm_with tac :=
  repeat match goal with
         | H : writes_manifests_only ?m |- writes_manifests_only ?m => exact H
         | |- writes_manifests_only (ret _) => apply wm_ret
         | |- writes_manifests_only (raise _) => apply wm_raise
         | |- writes_manifests_only (lift _) => apply wm_lift
         | |- writes_manifests_only (log _ _) => apply wm_emit; exact I
         | |- writes_manifests_only (request _ _) => apply wm_request
         | |- writes_manifests_only (os_path_exists _) => apply wm_exists
         | |- writes_manifests_only (os_makedirs _) => apply wm_makedirs
         | |- writes_manifests_only (bind _ _) => apply wm_bind; [|intro]
         | |- writes_manifests_only (try_except _ _) =>
             apply wm_try_except; [|intro]
         | |- writes_manifests_only (if ?b then _ else _) => destruct b
         | |- writes_manifests_only (match ?x with _ => _ end) => destruct x
         | |- writes_manifests_only _ => tac
         end.

Section Writes.

Variable E : env.

Lemma wm_try_mirrors (path : string) (urls : list string) :
  writes_manifests_only (try_mirrors E path urls).
Proof.
  induction urls as [|u urls IH]; simpl;
    wm_with ltac:(apply wm_emit; exact I).
Qed.

Lemma wm_retry_loop (path : string) (urls : list string) (retry : nat) :
  writes_manifests_only (retry_loop E path urls retry).
Proof.
  induction retry as [|retry IH]; simpl;
    wm_with ltac:(apply wm_try_mirrors).
Qed.

Lemma wm_get (sha path repo : string) :
  writes_manifests_only (get E sha path repo).
Proof. apply wm_retry_loop. Qed.

Lemma wm_get_manifest (sha path save_dir repo : string) :
  writes_manifests_only (get_manifest E sha path save_dir repo).
Proof.
  unfold get_manifest, get_manifest_body.
  destruct (endswith path ".manifest") eqn:Hext;
    wm_with ltac:(first [ apply wm_get
                        | apply wm_write; now apply endswith_join ]).
Qed.

Lemma wm_key_phase (sha save_dir repo : string) (tree : list string)
  (collected : list depot) :
  writes_manifests_only (key_phase E sha save_dir repo tree collected).
Proof.
  induction tree as [|p tree IH]; simpl;
    wm_with ltac:(apply wm_get_manifest).
Qed.

Lemma wm_manifest_phase (sha save_dir repo : string) (tree : list string)
  (collected : list depot) :
  writes_manifests_only (manifest_phase E sha save_dir repo tree collected).
Proof.
  revert collected; induction tree as [|p tree IH]; intros collected; simpl;
    wm_with ltac:(first [apply wm_get_manifest | apply IH]).
Qed.

Lemma wm_try_repo (app_id save_dir repo : string) :
  writes_manifests_only (try_repo E app_id save_dir repo).
Proof.
  unfold try_repo, process_tree.
  wm_with ltac:(first [apply wm_key_phase | apply wm_manifest_phase]).
Qed.

Lemma wm_search_repos (app_id save_dir : string) (rs : list string) :
  writes_manifests_only (search_repos E app_id save_dir rs).
Proof.
  induction rs as [|r rs IH]; simpl; wm_with ltac:(apply wm_try_repo).
Qed.

Lemma wm_download_and_process (tok name : string) :
  writes_manifests_only (download_and_process E tok name).
Proof.
  unfold download_and_process. wm_with ltac:(apply wm_search_repos).
Qed.

(** The script of the run is not among the files the search writes. *)
Lemma script_not_written (tok name d : string) (st st' : state)
  (r : result (list depot * string)) (l : list event) :
  download_and_process E tok name st = (r, st') ->
  trace st' = trace st ++ l ->
  ~ In (os_path_join d (tok ++ ".lua")) (writes_of l).
Proof.
  intros H Htr Hin.
  destruct (@wm_download_and_process tok name st r st' H)
    as (l' & Htr' & Hall).
  rewrite Htr in Htr'. apply app_inv_head in Htr'. subst l'.
  unfold writes_of in Hin. apply in_flat_map in Hin.
  destruct Hin as (e & He & Hp).
  rewrite Forall_forall in Hall. specialize (Hall e He).
  destruct e; simpl in Hp; try contradiction.
  destruct Hp as [->|[]]. simpl in Hall.
  apply manifest_is_not_lua in Hall.
  rewrite endswith_join in Hall; [discriminate|].
  apply endswith_iff. now exists tok.
Qed.

End Writes.

(** ** The destination directory *)

Lemma search_repos_save_dir (E : env) (app_id save_dir : string)
  (rs : list string) (st st' : state) (recs : list depot) (d : string) :
  search_repos E app_id save_dir rs st = (Ok (recs, d), st') -> d = save_dir.
Proof.
  revert st; induction rs as [|repo rs IH]; intros st H.
  - cbn in H. now injection H as _ <- _.
  - cbn [search_repos] in H. apply bind_inv in H.
    destruct H as [(found & st1 & _ & H)|(e & _ & H)]; [|discriminate].
    destruct found as [c|].
    + now injection H as _ <- _.
    + apply bind_inv in H.
      destruct H as [(u2 & st2 & _ & H)|(e & _ & H)]; [|discriminate].
      now apply IH in H.
Qed.




(** ** Whole runs on the sample environments *)

(** A run that finds the key file and the manifest at the first source:
    the manifest is saved, the script is written beside it. *)
Example main_tail_good_run :
  fst (main_tail Samples.env_good "10" "Demo" Samples.start) = Ok tt /\
  files (fs (snd (main_tail Samples.env_good "10" "Demo" Samples.start)))
  = [ ("[10]Demo/10_111.manifest", "m111");
      ("[10]Demo/10.lua",
       ("addappid(10)" ++ newline
        ++ "addappid(10,1," ++ dquote ++ "AA" ++ dquote ++ ")" ++ newline
        ++ "setManifestid(10," ++ dquote ++ "111" ++ dquote ++ ",0)" ++ newline
        ++ "addappid(20,1," ++ dquote ++ "BB" ++ dquote ++ ")")%string) ] /\
  requests_of
    (trace (snd (main_tail Samples.env_good "10" "Demo" Samples.start)))
  = [ "https://api.github.com/repos/SteamAutoCracks/ManifestHub/branches/10";
      "https://api.github.com/tree/0a1b2c";
      "https://jsdelivr.pai233.top/gh/SteamAutoCracks/ManifestHub@0a1b2c/Key.vdf";
      "https://jsdelivr.pai233.top/gh/SteamAutoCracks/ManifestHub@0a1b2c/10_111.manifest" ].
Proof. repeat split; vm_compute; reflexivity. Qed.

(** A token without a decimal segment stops the run before anything is
    done. *)
Example download_and_process_bad_token :
  download_and_process Samples.env_nowhere "12a-x" "Demo" Samples.start
  = (Raise IndexError, Samples.start).
Proof. reflexivity. Qed.

(** A run that finds the identifier nowhere asks the four sources in order
    and writes nothing. *)
Example main_tail_not_found :
  requests_of
    (trace (snd (main_tail Samples.env_nowhere "10" "Demo" Samples.start)))
  = map (fun repo => branch_url repo "10") repos /\
  files (fs (snd (main_tail Samples.env_nowhere "10" "Demo" Samples.start)))
  = [] /\
  dirs (fs (snd (main_tail Samples.env_nowhere "10" "Demo" Samples.start)))
  = ["[10]Demo"].
Proof. repeat split; vm_compute; reflexivity. Qed.

(** * Further properties of the program *)

(** ** The mirror fetcher, whatever the mirrors answer *)

Section FetchAnyNetwork.

Variable E : env.

Lemma failing_nil (t : nat) : failing E t [].
Proof. intros [|i] u H; discriminate. Qed.

Lemma failing_app (t : nat) (a b : list string) :
  failing E t (a ++ b) <->
  failing E t a /\ failing E (t + List.length a) b.
Proof.
  unfold failing. split.
  - intros H. split.
    + intros i u Hi. apply H. rewrite nth_error_app1; [exact Hi|].
      apply nth_error_Some. congruence.
    + intros i u Hi. rewrite <- Nat.add_assoc. apply H.
      rewrite nth_error_app2 by lia.
      now replace (List.length a + i - List.length a) with i by lia.
  - intros [Ha Hb] i u Hi.
    destruct (Nat.lt_ge_cases i (List.length a)) as [Hlt|Hge].
    + apply Ha. now rewrite nth_error_app1 in Hi.
    + rewrite nth_error_app2 in Hi by exact Hge.
      specialize (Hb _ _ Hi).
      now replace (t + List.length a + (i - List.length a)) with (t + i)
        in Hb by lia.
Qed.

Lemma failing_cons (t : nat) (u : string) (us : list string) :
  failing E t (u :: us) <->
  mirror_fails (cdn E t u) = true /\ failing E (S t) us.
Proof.
  change (u :: us) with ([u] ++ us). rewrite failing_app. simpl.
  replace (t + 1) with (S t) by lia. split; intros [H1 H2]; split; auto.
  - specialize (H1 0 u eq_refl). now rewrite Nat.add_0_r in H1.
  - intros [|i] v Hv; [|destruct i; discriminate].
    injection Hv as <-. now rewrite Nat.add_0_r.
Qed.

(** Every way a pass can end. *)
Lemma try_mirrors_inv (path : string) (urls : list string) (st st' : state)
  (r : result (option string)) :
  try_mirrors E path urls st = (r, st') ->
  fs st' = fs st /\
  exists l,
    trace st' = trace st ++ l /\
    clock st' = clock st + List.length (requests_of l) /\
    retries_of l = [] /\ writes_of l = [] /\
    pass_outcome E (clock st) urls r (requests_of l) (reads_of l).
Proof.
  revert st; induction urls as [|u urls IH]; intros st H.
  - cbn in H. injection H as <- <-. split; [reflexivity|]. exists [].
    simpl. rewrite app_nil_r, Nat.add_0_r. repeat split. apply failing_nil.
  - cbn [try_mirrors] in H. unfold bind at 1 in H. unfold request at 1 in H.
    set (st1 := {| clock := S (clock st); fs := fs st;
                   trace := trace st ++ [EvGet u] |}) in H.
    assert (Hskip : forall msg,
              match msg with RetryLeft _ _ => False | _ => True end ->
              mirror_fails (cdn E (clock st) u) = true ->
              try_mirrors E path urls
                {| clock := clock st1; fs := fs st1;
                   trace := trace st1 ++ [EvLog ERROR msg] |} = (r, st') ->
              fs st' = fs st /\
              exists l,
                trace st' = trace st ++ l /\
                clock st' = clock st + List.length (requests_of l) /\
                retries_of l = [] /\ writes_of l = [] /\
                pass_outcome E (clock st) (u :: urls) r
                  (requests_of l) (reads_of l)).
    { intros msg Hmsg Hu Hrun. apply IH in Hrun.
      destruct Hrun as (Hfs & l & Htr & Hck & Hrt & Hwr & Hout).
      split; [exact Hfs|].
      exists (EvGet u :: EvLog ERROR msg :: l).
      cbn [clock fs trace st1] in *.
      assert (Hreq : requests_of (EvGet u :: EvLog ERROR msg :: l)
                     = u :: requests_of l) by reflexivity.
      assert (Hrd : reads_of (EvGet u :: EvLog ERROR msg :: l) = reads_of l)
        by reflexivity.
      rewrite Hreq, Hrd. repeat split.
      - rewrite Htr, <- !app_assoc. reflexivity.
      - rewrite Hck. simpl. lia.
      - destruct msg; simpl; solve [exact Hrt | contradiction].
      - exact Hwr.
      - destruct r as [[body|]|e]; cbn [pass_outcome] in *.
        + destruct Hout as (pre & v & post & -> & -> & Hreads & Hf & Hv).
          exists (u :: pre), v, post. repeat split; try assumption.
          * apply failing_cons. now split.
          * simpl. now rewrite Nat.add_succ_r.
        + destruct Hout as (-> & Hreads & Hf). repeat split; try assumption.
          apply failing_cons. now split.
        + destruct Hout as (pre & v & post & -> & -> & Hreads & Hf & Hv & He).
          exists (u :: pre), v, post. repeat split; try assumption.
          * apply failing_cons. now split.
          * simpl. now rewrite Nat.add_succ_r. }
    cbv beta iota in H.
    destruct (cdn E (clock st) u) as [status body|e] eqn:Hans.
    + destruct (Nat.eqb status 200) eqn:Hst.
      * apply Nat.eqb_eq in Hst. subst status.
        unfold bind, emit, ret in H. simpl in H.
        injection H as <- <-. split; [reflexivity|].
        exists [EvGet u; EvRead u]. simpl. repeat split.
        -- now rewrite <- app_assoc.
        -- lia.
        -- exists [], u, urls. simpl. rewrite Nat.add_0_r.
           repeat split; [apply failing_nil | exact Hans].
      * unfold bind at 1 in H. unfold log, emit in H. cbv beta iota in H.
        apply (Hskip (FetchStatus path status)); [exact I | | exact H].
        simpl. now rewrite Hst.
    + destruct (is_ClientError e) eqn:Hce.
      * unfold bind at 1 in H. unfold log, emit in H. cbv beta iota in H.
        apply (Hskip (FetchConnection path)); [exact I | | exact H].
        exact Hce.
      * unfold raise in H. injection H as <- <-. split; [reflexivity|].
        exists [EvGet u]. simpl. repeat split; try lia.
        exists [], u, urls. simpl. rewrite Nat.add_0_r.
        repeat split; [apply failing_nil | exact Hans | exact Hce].
Qed.

Lemma schedule_S (urls : list string) (n : nat) :
  schedule urls (S n) = urls ++ schedule urls n.
Proof. reflexivity. Qed.

Lemma rev_seq_S (start len : nat) :
  rev (seq start (S len)) = (start + len) :: rev (seq start len).
Proof. rewrite seq_S, rev_app_distr. reflexivity. Qed.

(** Every way the retry loop can end. *)
Lemma retry_loop_inv (path : string) (urls : list string) (retry : nat)
  (st st' : state) (r : result (option string)) :
  retry_loop E path urls retry st = (r, st') ->
  fs st' = fs st /\
  exists l,
    trace st' = trace st ++ l /\
    clock st' = clock st + List.length (requests_of l) /\
    writes_of l = [] /\
    loop_outcome E (clock st) urls retry r
      (requests_of l) (reads_of l) (retries_of l).
Proof.
  revert st; induction retry as [|n IH]; intros st H.
  - cbn in H. injection H as <- <-. split; [reflexivity|].
    exists [EvLog ERROR (RetryExhausted path)]. simpl.
    rewrite Nat.add_0_r. repeat split. apply failing_nil.
  - cbn [retry_loop] in H. unfold bind at 1 in H.
    destruct (try_mirrors E path urls st) as [r1 st1] eqn:Hpass.
    apply try_mirrors_inv in Hpass.
    destruct Hpass as (Hfs1 & l1 & Htr1 & Hck1 & Hrt1 & Hwr1 & Hout1).
    destruct r1 as [[body|]|e].
    + injection H as <- <-. split; [exact Hfs1|]. exists l1.
      rewrite Hrt1. repeat split; try assumption.
      cbn [pass_outcome loop_outcome] in *.
      destruct Hout1 as (pre & u & post & Hu & Hd & Hr & Hf & Hans).
      exists 0, pre, u, post. simpl. repeat split; try assumption. lia.
    + unfold bind at 1 in H. unfold log, emit in H. cbv beta iota in H.
      apply IH in H. cbn [clock fs trace] in H.
      destruct H as (Hfs2 & l2 & Htr2 & Hck2 & Hwr2 & Hout2).
      cbn [pass_outcome] in Hout1. destruct Hout1 as (Hd1 & Hr1 & Hf1).
      split; [congruence|].
      exists (l1 ++ EvLog WARNING (RetryLeft n path) :: l2).
      assert (Hreq : requests_of (l1 ++ EvLog WARNING (RetryLeft n path) :: l2)
                     = urls ++ requests_of l2).
      { unfold requests_of in *. rewrite flat_map_app. simpl. now rewrite Hd1. }
      assert (Hrd : reads_of (l1 ++ EvLog WARNING (RetryLeft n path) :: l2)
                    = reads_of l2).
      { unfold reads_of in *. rewrite flat_map_app. simpl. now rewrite Hr1. }
      assert (Hrt : retries_of (l1 ++ EvLog WARNING (RetryLeft n path) :: l2)
                    = n :: retries_of l2).
      { unfold retries_of in *. rewrite flat_map_app. simpl. now rewrite Hrt1. }
      assert (Hwr : writes_of (l1 ++ EvLog WARNING (RetryLeft n path) :: l2)
                    = []).
      { unfold writes_of in *. rewrite flat_map_app. simpl.
        now rewrite Hwr1, Hwr2. }
      rewrite Hreq, Hrd, Hrt, Hwr. rewrite Hd1 in Hck1.
      assert (Hclock : clock st1 = clock st + List.length urls)
        by exact Hck1.
      rewrite Hclock in Hout2, Hck2.
      repeat split.
      * rewrite Htr2, Htr1, <- !app_assoc. reflexivity.
      * rewrite Hck2, length_app. lia.
      * destruct r as [[body|]|e]; cbn [loop_outcome] in *.
        -- destruct Hout2 as (j & pre & u & post & Hj & Hu & Hd & Hr & Hf & Hans
                              & Hret).
           exists (S j), pre, u, post. rewrite schedule_S, <- !app_assoc.
           repeat split; try assumption.
           ++ lia.
           ++ now rewrite Hd.
           ++ apply failing_app. now split.
           ++ rewrite length_app, Nat.add_assoc. exact Hans.
           ++ rewrite Hret. replace (S n - S j) with (n - j) by lia.
              rewrite rev_seq_S. f_equal. lia.
        -- destruct Hout2 as (Hd & Hr & Hf & Hret). rewrite schedule_S.
           repeat split; try assumption.
           ++ now rewrite Hd.
           ++ apply failing_app. now split.
           ++ rewrite Hret. now rewrite rev_seq_S.
        -- destruct Hout2 as (j & pre & u & post & Hj & Hu & Hd & Hr & Hf & Hans
                              & He & Hret).
           exists (S j), pre, u, post. rewrite schedule_S, <- !app_assoc.
           repeat split; try assumption.
           ++ lia.
           ++ now rewrite Hd.
           ++ apply failing_app. now split.
           ++ rewrite length_app, Nat.add_assoc. exact Hans.
           ++ rewrite Hret. replace (S n - S j) with (n - j) by lia.
              rewrite rev_seq_S. f_equal. lia.
    + injection H as <- <-. split; [exact Hfs1|]. exists l1.
      rewrite Hrt1. repeat split; try assumption.
      cbn [pass_outcome loop_outcome] in *.
      destruct Hout1 as (pre & u & post & Hu & Hd & Hr & Hf & Hans & He).
      exists 0, pre, u, post. simpl. repeat split; try assumption. lia.
Qed.

(** The loop when the whole schedule fails. *)
Lemma retry_loop_exhausts (path : string) (urls : list string) (retry : nat)
  (st : state) :
  failing E (clock st) (schedule urls retry) ->
  exists st', retry_loop E path urls retry st = (Ok None, st').
Proof.
  revert st; induction retry as [|n IH]; intros st Hfail.
  - eexists. reflexivity.
  - rewrite schedule_S in Hfail. apply failing_app in Hfail.
    destruct Hfail as [Hpass Hrest].
    destruct (try_mirrors_all_fail E path urls st Hpass)
      as (st1 & l1 & Hrun & _ & _ & Hck & _).
    cbn [retry_loop]. unfold bind at 1. rewrite Hrun.
    unfold bind at 1. unfold log, emit. cbv beta iota.
    apply IH. cbn [clock]. now rewrite Hck.
Qed.

(** Success at the k-th mirror of the pass that follows [j] failed
    passes. *)
Lemma retry_loop_later_success (path : string) (pre post : list string)
  (u body : string) (j retry : nat) (st : state) :
  j < retry ->
  failing E (clock st) (schedule (pre ++ u :: post) j ++ pre) ->
  cdn E (clock st + List.length (schedule (pre ++ u :: post) j ++ pre)) u
  = Resp 200 body ->
  exists st' l,
    retry_loop E path (pre ++ u :: post) retry st = (Ok (Some body), st') /\
    trace st' = trace st ++ l /\
    requests_of l = schedule (pre ++ u :: post) j ++ pre ++ [u] /\
    reads_of l = [u] /\
    retries_of l = rev (seq (retry - j) j) /\
    fs st' = fs st.
Proof.
  revert retry st. induction j as [|j IH]; intros retry st Hj Hfail Hans.
  - destruct retry as [|n]; [lia|].
    cbn [schedule repeat List.concat app] in Hfail, Hans.
    destruct (@try_mirrors_first_success E path pre post u body st Hfail Hans)
      as (st1 & l1 & Hpass & Htr1 & Hfs1 & Hck1 & Hreq1 & Hrd1 & Hrt1).
    cbn [retry_loop]. unfold bind at 1. rewrite Hpass.
    exists st1, l1. simpl. repeat split; assumption.
  - destruct retry as [|n]; [lia|].
    rewrite schedule_S, <- app_assoc in Hfail, Hans.
    apply failing_app in Hfail. destruct Hfail as [Hpass Hrest].
    destruct (try_mirrors_all_fail E path (pre ++ u :: post) st Hpass)
      as (st1 & l1 & Hp & Htr1 & Hfs1 & Hck1 & Hreq1 & Hrd1 & Hrt1).
    cbn [retry_loop]. unfold bind at 1. rewrite Hp.
    unfold bind at 1. unfold log, emit. cbv beta iota.
    set (st2 := {| clock := clock st1; fs := fs st1;
                   trace := trace st1 ++ [EvLog WARNING (RetryLeft n path)] |}).
    destruct (IH n st2) as (st3 & l3 & Heq & Htr3 & Hreq3 & Hrd3 & Hrt3 & Hfs3).
    + lia.
    + cbn [st2 clock]. now rewrite Hck1.
    + cbn [st2 clock]. rewrite Hck1.
      rewrite length_app, Nat.add_assoc in Hans. exact Hans.
    + exists st3, (l1 ++ EvLog WARNING (RetryLeft n path) :: l3).
      split; [exact Heq|]. cbn [st2 trace fs] in *.
      unfold requests_of, reads_of, retries_of in *.
      rewrite !flat_map_app. simpl.
      rewrite Hreq1, Hrd1, Hrt1, Hreq3, Hrd3, Hrt3.
      rewrite schedule_S, <- !app_assoc.
      repeat split.
      * rewrite Htr3, Htr1, <- !app_assoc. reflexivity.
      * change (rev (seq (S (n - j)) j) ++ [n - j])
          with (rev (seq (n - j) (S j))).
        rewrite rev_seq_S. simpl. f_equal. lia.
      * congruence.
Qed.

End FetchAnyNetwork.

Lemma schedule_add (urls : list string) (a b : nat) :
  schedule urls (a + b) = schedule urls a ++ schedule urls b.
Proof. unfold schedule. now rewrite repeat_app, concat_app. Qed.

Lemma schedule_split (urls : list string) (j n : nat) :
  j < n ->
  schedule urls n = schedule urls j ++ urls ++ schedule urls (n - S j).
Proof.
  intros Hj. replace n with (j + S (n - S j)) at 1 by lia.
  now rewrite schedule_add.
Qed.

(** X1. Whatever the mirrors answer and however [get] ends, it has asked
    the five mirrors in their order, pass after pass: its requests are a
    non-empty prefix of three passes over [url_list], the whole of it when it
    returns [None]; it has written nothing and left the file system as it
    was. *)
Theorem get_requests_prefix_of_schedule (E : env) (sha path repo : string)
  (st st' : state) (r : result (option string)) :
  get E sha path repo st = (r, st') ->
  fs st' = fs st /\
  exists l rest,
    trace st' = trace st ++ l /\
    requests_of l ++ rest
    = url_list sha path repo ++ url_list sha path repo
      ++ url_list sha path repo /\
    requests_of l <> [] /\
    clock st' = clock st + List.length (requests_of l) /\
    List.length (requests_of l) <= 15 /\
    writes_of l = [] /\
    (r = Ok None -> rest = []).
Proof.
  unfold get. intros H. apply retry_loop_inv in H.
  destruct H as (Hfs & l & Htr & Hck & Hwr & Hout). split; [exact Hfs|].
  set (urls := url_list sha path repo) in *.
  assert (H3 : schedule urls 3 = urls ++ urls ++ urls).
  { unfold schedule. cbn [repeat List.concat]. now rewrite app_nil_r. }
  assert (Hgen : exists rest,
            requests_of l ++ rest = schedule urls 3 /\
            requests_of l <> [] /\ (r = Ok None -> rest = [])).
  { destruct r as [[body|]|e]; cbn [loop_outcome] in Hout.
    - destruct Hout as (j & pre & u & post & Hj & Hu & Hd & _).
      exists (post ++ schedule urls (3 - S j)). split; [|split].
      + rewrite Hd, (schedule_split urls Hj), Hu, <- !app_assoc.
        reflexivity.
      + rewrite Hd. intros Hnil. apply app_eq_nil in Hnil.
        destruct Hnil as [_ Hnil]. apply app_eq_nil in Hnil.
        destruct Hnil as [_ Hnil]. discriminate.
      + discriminate.
    - destruct Hout as (Hd & _). exists []. split; [|split].
      + now rewrite app_nil_r.
      + rewrite Hd, H3. discriminate.
      + reflexivity.
    - destruct Hout as (j & pre & u & post & Hj & Hu & Hd & _).
      exists (post ++ schedule urls (3 - S j)). split; [|split].
      + rewrite Hd, (schedule_split urls Hj), Hu, <- !app_assoc.
        reflexivity.
      + rewrite Hd. intros Hnil. apply app_eq_nil in Hnil.
        destruct Hnil as [_ Hnil]. apply app_eq_nil in Hnil.
        destruct Hnil as [_ Hnil]. discriminate.
      + discriminate. }
  destruct Hgen as (rest & Hsplit & Hne & Hnone).
  exists l, rest. rewrite <- H3. repeat split; try assumption.
  apply (f_equal (@List.length string)) in Hsplit.
  rewrite length_app, H3 in Hsplit. simpl in Hsplit. lia.
Qed.

Lemma get_requests_prefix_of_schedule_witness :
  exists l rest,
    trace (snd (get (Samples.env_of Samples.net_third []) "0a1b2c"
                    "10_111.manifest" "ikun0014/ManifestHub" Samples.start))
    = trace Samples.start ++ l /\
    requests_of l ++ rest
    = url_list "0a1b2c" "10_111.manifest" "ikun0014/ManifestHub"
      ++ url_list "0a1b2c" "10_111.manifest" "ikun0014/ManifestHub"
      ++ url_list "0a1b2c" "10_111.manifest" "ikun0014/ManifestHub" /\
    List.length (requests_of l) <= 15.
Proof.
  destruct (@get_requests_prefix_of_schedule
              (Samples.env_of Samples.net_third []) "0a1b2c"
              "10_111.manifest" "ikun0014/ManifestHub" Samples.start
              (snd (get (Samples.env_of Samples.net_third []) "0a1b2c"
                        "10_111.manifest" "ikun0014/ManifestHub"
                        Samples.start))
              (fst (get (Samples.env_of Samples.net_third []) "0a1b2c"
                        "10_111.manifest" "ikun0014/ManifestHub"
                        Samples.start))
              eq_refl)
    as (_ & l & rest & Htr & Hsplit & _ & _ & Hlen & _).
  exists l, rest. repeat split; assumption.
Defined.

(** X2. A body [get] returns is one a mirror served: the last request of
    the call went to one of the five mirrors and was answered 200 with that
    body, and it is the only body read. *)
Theorem get_returns_served_body (E : env) (sha path repo body : string)
  (st st' : state) :
  get E sha path repo st = (Ok (Some body), st') ->
  exists u l before,
    In u (url_list sha path repo) /\
    trace st' = trace st ++ l /\
    requests_of l = before ++ [u] /\
    reads_of l = [u] /\
    clock st' = clock st + List.length before + 1 /\
    cdn E (clock st + List.length before) u = Resp 200 body.
Proof.
  unfold get. intros H. apply retry_loop_inv in H.
  destruct H as (_ & l & Htr & Hck & _ & Hout). cbn [loop_outcome] in Hout.
  destruct Hout as (j & pre & u & post & Hj & Hu & Hd & Hr & _ & Hans & _).
  exists u, l, (schedule (url_list sha path repo) j ++ pre).
  repeat split; try assumption.
  - rewrite Hu. apply in_or_app. right. now left.
  - now rewrite Hd, app_assoc.
  - rewrite Hck, Hd, !length_app. simpl. lia.
Qed.

Lemma get_returns_served_body_witness :
  exists u l before,
    In u (url_list "0a1b2c" "10_111.manifest" "ikun0014/ManifestHub") /\
    trace (snd (get (Samples.env_of Samples.net_third []) "0a1b2c"
                    "10_111.manifest" "ikun0014/ManifestHub" Samples.start))
    = trace Samples.start ++ l /\
    requests_of l = before ++ [u] /\
    reads_of l = [u] /\
    clock (snd (get (Samples.env_of Samples.net_third []) "0a1b2c"
                    "10_111.manifest" "ikun0014/ManifestHub" Samples.start))
    = clock Samples.start + List.length before + 1 /\
    cdn (Samples.env_of Samples.net_third [])
        (clock Samples.start + List.length before) u = Resp 200 "m111".
Proof.
  apply (@get_returns_served_body (Samples.env_of Samples.net_third [])
           "0a1b2c" "10_111.manifest" "ikun0014/ManifestHub" "m111"
           Samples.start).
  reflexivity.
Defined.

(** X3. [get] returns [None] exactly when each of the fifteen requests of
    the three passes fails, with a status other than 200 or a transport
    error. *)
Theorem get_none_iff_schedule_fails (E : env) (sha path repo : string)
  (st : state) :
  fst (get E sha path repo st) = Ok None <->
  failing E (clock st)
    (url_list sha path repo ++ url_list sha path repo
     ++ url_list sha path repo).
Proof.
  assert (H3 : schedule (url_list sha path repo) 3
               = url_list sha path repo ++ url_list sha path repo
                 ++ url_list sha path repo).
  { unfold schedule. cbn [repeat List.concat]. now rewrite app_nil_r. }
  rewrite <- H3. unfold get. split.
  - intros H.
    destruct (retry_loop E path (url_list sha path repo) 3 st)
      as [r st'] eqn:Hrun.
    cbn [fst] in H. subst r. apply retry_loop_inv in Hrun.
    destruct Hrun as (_ & l & _ & _ & _ & Hout). cbn [loop_outcome] in Hout.
    destruct Hout as (Hd & _ & Hf & _). now rewrite <- Hd.
  - intros Hf.
    destruct (@retry_loop_exhausts E path (url_list sha path repo) 3 st Hf)
      as (st' & Hrun).
    now rewrite Hrun.
Qed.

(** X4. [get] never raises a transport error; what it raises is what some
    mirror's request raised, and that request was its last. A request that
    raises anything else than a transport error ends the call at once:
    after a first mirror cut short that way, no second mirror is asked and
    no retry is made. *)
Theorem get_raises_only_other_errors (E : env) (sha path repo : string)
  (st : state) :
  (forall e st',
     get E sha path repo st = (Raise e, st') ->
     is_ClientError e = false /\
     exists u l before,
       In u (url_list sha path repo) /\
       trace st' = trace st ++ l /\
       requests_of l = before ++ [u] /\
       reads_of l = [] /\
       cdn E (clock st + List.length before) u = NetRaise e) /\
  (forall e,
     cdn E (clock st) (hd "" (url_list sha path repo)) = NetRaise e ->
     is_ClientError e = false ->
     get E sha path repo st
     = (Raise e,
        {| clock := S (clock st); fs := fs st;
           trace := trace st ++ [EvGet (hd "" (url_list sha path repo))] |})).
Proof.
  split.
  - unfold get. intros e st' H. apply retry_loop_inv in H.
    destruct H as (_ & l & Htr & Hck & _ & Hout). cbn [loop_outcome] in Hout.
    destruct Hout as (j & pre & u & post & Hj & Hu & Hd & Hr & _ & Hans & He
                      & _).
    split; [exact He|].
    exists u, l, (schedule (url_list sha path repo) j ++ pre).
    repeat split; try assumption.
    + rewrite Hu. apply in_or_app. right. now left.
    + now rewrite Hd, app_assoc.
  - intros e Hans He. unfold get, url_list in *. cbn [hd] in Hans.
    cbn [retry_loop try_mirrors]. unfold bind at 1 2. unfold request at 1.
    cbv beta iota. rewrite Hans. cbv beta iota. rewrite He. reflexivity.
Qed.

Lemma get_raises_only_other_errors_witness :
  get (Samples.env_of (fun _ _ => NetRaise KeyboardInterrupt) []) "0a1b2c"
      "10_111.manifest" "ikun0014/ManifestHub" Samples.start
  = (Raise KeyboardInterrupt,
     {| clock := 1; fs := fs Samples.start;
        trace := [EvGet "https://jsdelivr.pai233.top/gh/ikun0014/ManifestHub@0a1b2c/10_111.manifest"] |})
  /\ is_ClientError KeyboardInterrupt = false.
Proof.
  pose proof (get_raises_only_other_errors
                (Samples.env_of (fun _ _ => NetRaise KeyboardInterrupt) [])
                "0a1b2c" "10_111.manifest" "ikun0014/ManifestHub"
                Samples.start) as [Hinv Hfwd].
  assert (Hrun := Hfwd KeyboardInterrupt eq_refl eq_refl).
  split; [exact Hrun|].
  exact (proj1 (Hinv KeyboardInterrupt _ Hrun)).
Defined.

(** X5. A later attempt can succeed: when [j] whole passes fail, with
    [j < 3], and in the next pass the mirrors before the k-th fail and the
    k-th answers 200, [get] returns that body; it has made the [j] passes
    and the first k requests of the next, read one body, and logged the
    budgets left after each failed pass. *)
Theorem get_succeeds_on_later_attempt (E : env) (sha path repo : string)
  (pre post : list string) (u body : string) (j : nat) (st : state) :
  j < 3 ->
  url_list sha path repo = pre ++ u :: post ->
  failing E (clock st) (schedule (url_list sha path repo) j ++ pre) ->
  cdn E (clock st + List.length (schedule (url_list sha path repo) j ++ pre)) u
  = Resp 200 body ->
  exists st' l,
    get E sha path repo st = (Ok (Some body), st') /\
    trace st' = trace st ++ l /\
    requests_of l = schedule (url_list sha path repo) j ++ pre ++ [u] /\
    reads_of l = [u] /\
    retries_of l = rev (seq (3 - j) j) /\
    fs st' = fs st.
Proof.
  intros Hj Hu Hf Hans. unfold get. rewrite Hu in *.
  now apply retry_loop_later_success.
Qed.

Lemma get_succeeds_on_later_attempt_witness :
  exists st' l,
    get (Samples.env_of Samples.net_second_pass []) "0a1b2c"
        "10_111.manifest" "ikun0014/ManifestHub" Samples.start
    = (Ok (Some "m111"), st') /\
    trace st' = trace Samples.start ++ l /\
    requests_of l
    = schedule (url_list "0a1b2c" "10_111.manifest" "ikun0014/ManifestHub") 1
      ++ [ "https://jsdelivr.pai233.top/gh/ikun0014/ManifestHub@0a1b2c/10_111.manifest" ]
      ++ [ "https://cdn.jsdmirror.com/gh/ikun0014/ManifestHub@0a1b2c/10_111.manifest" ] /\
    reads_of l
    = [ "https://cdn.jsdmirror.com/gh/ikun0014/ManifestHub@0a1b2c/10_111.manifest" ] /\
    retries_of l = rev (seq (3 - 1) 1) /\
    fs st' = fs Samples.start.
Proof.
  apply (@get_succeeds_on_later_attempt
           (Samples.env_of Samples.net_second_pass []) "0a1b2c"
           "10_111.manifest" "ikun0014/ManifestHub"
           [ "https://jsdelivr.pai233.top/gh/ikun0014/ManifestHub@0a1b2c/10_111.manifest" ]
           [ "https://raw.gitmirror.com/ikun0014/ManifestHub/0a1b2c/10_111.manifest";
             "https://raw.dgithub.xyz/ikun0014/ManifestHub/0a1b2c/10_111.manifest";
             "https://gh.akass.cn/ikun0014/ManifestHub/0a1b2c/10_111.manifest" ]
           "https://cdn.jsdmirror.com/gh/ikun0014/ManifestHub@0a1b2c/10_111.manifest"
           "m111" 1 Samples.start).
  - lia.
  - reflexivity.
  - intros i v Hv.
    do 6 (destruct i as [|i]; [reflexivity|]).
    simpl in Hv. destruct i; discriminate.
  - reflexivity.
Defined.

(** ** The per-file step *)

Section PerFile.

Variable E : env.

Lemma get_keeps_fs (sha path repo : string) (st st' : state)
  (r : result (option string)) :
  get E sha path repo st = (r, st') -> fs st' = fs st.
Proof. unfold get. intros H. now apply retry_loop_inv in H. Qed.

Lemma mem_false_not_in (x : string) (l : list string) :
  mem x l = false <-> ~ In x l.
Proof.
  unfold mem. split.
  - intros H Hin. assert (Ht : existsb (String.eqb x) l = true).
    { apply existsb_exists. exists x. split; [exact Hin|].
      apply String.eqb_refl. }
    congruence.
  - intros Hn. destruct (existsb (String.eqb x) l) eqn:He; [|reflexivity].
    apply existsb_exists in He. destruct He as (y & Hy & Heq).
    apply String.eqb_eq in Heq. subst y. contradiction.
Qed.

Lemma mem_true_in (x : string) (l : list string) :
  mem x l = true <-> In x l.
Proof.
  unfold mem. rewrite existsb_exists. split.
  - intros (y & Hy & Heq). apply String.eqb_eq in Heq. now subst y.
  - intros Hin. exists x. split; [exact Hin | apply String.eqb_refl].
Qed.

(** Writing under a free name appends. *)
Lemma fs_put_absent (l : list (string * string)) (p content : string) :
  mem p (map fst l) = false -> fs_put l p content = l ++ [(p, content)].
Proof.
  induction l as [|[q c] l IH]; simpl; [reflexivity|].
  intros H. apply orb_false_iff in H. destruct H as [Hq Hl].
  rewrite String.eqb_sym, Hq. now rewrite IH.
Qed.

Lemma fs_exists_false (f : filesys) (p : string) :
  fs_exists f p = false ->
  mem p (dirs f) = false /\ mem p (map fst (files f)) = false.
Proof. unfold fs_exists. intros H. now apply orb_false_iff in H. Qed.

(** The step on a manifest that is absent, that a mirror serves with a
    body, and whose directory is there. *)
Lemma get_manifest_saved (sha path save_dir repo : string) (c : ascii)
  (body : string) (st st1 : state) :
  endswith path ".manifest" = true ->
  fs_exists (fs st) (os_path_join save_dir path) = false ->
  dir_exists (fs st) (os_path_dirname (os_path_join save_dir path)) = true ->
  get E sha path repo st = (Ok (Some (String c body)), st1) ->
  get_manifest E sha path save_dir repo st
  = (Ok [],
     {| clock := clock st1;
        fs := {| dirs := dirs (fs st1);
                 files := fs_put (files (fs st1))
                                 (os_path_join save_dir path)
                                 (String c body) |};
        trace := (trace st1 ++ [EvLog INFO (ManifestSaved path)])
                 ++ [EvWrite (os_path_join save_dir path) (String c body)] |}).
Proof.
  intros Hext Habsent Hdir Hget.
  pose proof Hget as Hfs. apply get_keeps_fs in Hfs.
  destruct (fs_exists_false _ _ Habsent) as [Hnodir _].
  unfold get_manifest, try_except, get_manifest_body. rewrite Hext.
  unfold bind at 1. unfold os_path_exists. rewrite Habsent.
  unfold bind at 1. rewrite Hget. cbn [truthy].
  unfold bind at 1. unfold log, emit. cbv beta iota.
  unfold bind at 1. rewrite write_file_ok.
  - reflexivity.
  - cbn [fs]. now rewrite Hfs.
  - cbn [fs]. now rewrite Hfs.
Qed.

(** The step when the fetch gives nothing. *)
Lemma get_manifest_recovers (sha path save_dir repo : string)
  (content : option string) (st st1 : state) :
  (endswith path ".manifest" = true /\
   fs_exists (fs st) (os_path_join save_dir path) = false) \/
  mem path vdf_paths = true ->
  get E sha path repo st = (Ok content, st1) ->
  truthy content = false ->
  get_manifest E sha path save_dir repo st = (Ok [], st1).
Proof.
  intros Hkind Hget Hfalse.
  unfold get_manifest, try_except, get_manifest_body.
  destruct Hkind as [[Hext Habsent]|Hkey].
  - rewrite Hext. unfold bind at 1. unfold os_path_exists. rewrite Habsent.
    unfold bind at 1. rewrite Hget, Hfalse. reflexivity.
  - rewrite (vdf_path_not_manifest path Hkey), Hkey.
    unfold bind at 1. rewrite Hget, Hfalse. reflexivity.
Qed.

(** A manifest that is at the destination is skipped: one warning, no
    request, no write. *)
Lemma get_manifest_present (sha path save_dir repo : string) (st : state) :
  endswith path ".manifest" = true ->
  fs_exists (fs st) (os_path_join save_dir path) = true ->
  get_manifest E sha path save_dir repo st
  = (Ok [], {| clock := clock st; fs := fs st;
               trace := trace st ++ [EvLog WARNING (ManifestExists path)] |}).
Proof.
  intros Hext Hpresent.
  unfold get_manifest, try_except, get_manifest_body. rewrite Hext.
  unfold bind at 1. unfold os_path_exists. rewrite Hpresent. reflexivity.
Qed.

End PerFile.

(** X6. A manifest that is not at the destination, that a mirror serves
    with a body and whose directory is there (as is the destination
    directory for a name without a slash), is saved under its own name in
    the destination directory, with exactly the bytes served, after the
    files that were there; the step returns no record, and a second call on
    the state it leaves fetches nothing. *)
Theorem get_manifest_saves_verbatim (E : env)
  (sha path save_dir repo body : string) (st st1 : state) :
  endswith path ".manifest" = true ->
  fs_exists (fs st) (os_path_join save_dir path) = false ->
  dir_exists (fs st) (os_path_dirname (os_path_join save_dir path)) = true ->
  get E sha path repo st = (Ok (Some body), st1) ->
  body <> ""%string ->
  exists st2,
    get_manifest E sha path save_dir repo st = (Ok [], st2) /\
    files (fs st2)
    = files (fs st) ++ [(os_path_join save_dir path, body)] /\
    dirs (fs st2) = dirs (fs st) /\
    trace st2
    = trace st1 ++ [EvLog INFO (ManifestSaved path);
                    EvWrite (os_path_join save_dir path) body] /\
    get_manifest E sha path save_dir repo st2
    = (Ok [], {| clock := clock st2; fs := fs st2;
                 trace := trace st2
                          ++ [EvLog WARNING (ManifestExists path)] |}).
Proof.
  intros Hext Habsent Hdir Hget Hbody.
  pose proof Hget as Hfs. apply get_keeps_fs in Hfs.
  destruct (fs_exists_false _ _ Habsent) as [_ Hfiles].
  destruct body as [|c body]; [now elim Hbody|].
  pose proof (@get_manifest_saved E sha path save_dir repo c body st st1
                Hext Habsent Hdir Hget) as Hrun.
  set (p := os_path_join save_dir path) in *.
  set (st2 := {| clock := clock st1;
                 fs := {| dirs := dirs (fs st1);
                          files := fs_put (files (fs st1)) p (String c body) |};
                 trace := (trace st1 ++ [EvLog INFO (ManifestSaved path)])
                          ++ [EvWrite p (String c body)] |}) in *.
  exists st2. split; [exact Hrun|].
  assert (Hput : fs_put (files (fs st1)) p (String c body)
                 = files (fs st) ++ [(p, String c body)]).
  { rewrite Hfs. now apply fs_put_absent. }
  split; [exact Hput|]. split; [cbn; now rewrite Hfs|].
  split; [cbn; now rewrite <- app_assoc|].
  unfold get_manifest, try_except, get_manifest_body. rewrite Hext.
  unfold bind at 1. unfold os_path_exists. fold p.
  assert (Hnow : fs_exists (fs st2) p = true).
  { unfold fs_exists. cbn [st2 fs files dirs]. rewrite Hput, map_app.
    apply orb_true_iff. right. apply mem_true_in. apply in_or_app.
    right. now left. }
  rewrite Hnow. reflexivity.
Qed.

Lemma get_manifest_saves_verbatim_witness :
  exists st2,
    get_manifest Samples.env_up "0a1b2c" "10_111.manifest" "[10]Demo"
      "ikun0014/ManifestHub" Samples.empty_destination = (Ok [], st2) /\
    files (fs st2)
    = files (fs Samples.empty_destination)
      ++ [(os_path_join "[10]Demo" "10_111.manifest", "m111")].
Proof.
  destruct (@get_manifest_saves_verbatim Samples.env_up "0a1b2c"
              "10_111.manifest" "[10]Demo" "ikun0014/ManifestHub" "m111"
              Samples.empty_destination
              (snd (get Samples.env_up "0a1b2c" "10_111.manifest"
                        "ikun0014/ManifestHub" Samples.empty_destination)))
    as (st2 & Hrun & Hfiles & _).
  - reflexivity.
  - reflexivity.
  - reflexivity.
  - vm_compute. reflexivity.
  - discriminate.
  - exists st2. now split.
Defined.

(** X7. A fetch that gives nothing is not an error of the per-file step:
    when [get] returns [None], or the empty body of a mirror that answered
    200, for a manifest that is not at the destination or for a key file,
    [get_manifest] returns no record, logs nothing more, writes no file and
    raises nothing. *)
Theorem get_manifest_recovers_failed_fetch (E : env)
  (sha path save_dir repo : string) (content : option string)
  (st st1 : state) :
  (endswith path ".manifest" = true /\
   fs_exists (fs st) (os_path_join save_dir path) = false) \/
  mem path vdf_paths = true ->
  get E sha path repo st = (Ok content, st1) ->
  truthy content = false ->
  get_manifest E sha path save_dir repo st = (Ok [], st1) /\
  fs st1 = fs st.
Proof.
  intros Hkind Hget Hfalse. split; [|now apply get_keeps_fs in Hget].
  unfold get_manifest, try_except, get_manifest_body.
  destruct Hkind as [[Hext Habsent]|Hkey].
  - rewrite Hext. unfold bind at 1. unfold os_path_exists. rewrite Habsent.
    unfold bind at 1. rewrite Hget, Hfalse. reflexivity.
  - rewrite (vdf_path_not_manifest path Hkey), Hkey.
    unfold bind at 1. rewrite Hget, Hfalse. reflexivity.
Qed.

Lemma get_manifest_recovers_failed_fetch_witness :
  get_manifest Samples.env_empty_body "0a1b2c" "10_111.manifest" "[10]Demo"
    "ikun0014/ManifestHub" Samples.empty_destination
  = (Ok [],
     snd (get Samples.env_empty_body "0a1b2c" "10_111.manifest"
              "ikun0014/ManifestHub" Samples.empty_destination))
  /\ get_manifest Samples.env_nowhere "0a1b2c" "Key.vdf" "[10]Demo"
       "ikun0014/ManifestHub" Samples.empty_destination
     = (Ok [],
        snd (get Samples.env_nowhere "0a1b2c" "Key.vdf"
                 "ikun0014/ManifestHub" Samples.empty_destination)).
Proof.
  split.
  - apply (@get_manifest_recovers_failed_fetch Samples.env_empty_body
             "0a1b2c" "10_111.manifest" "[10]Demo" "ikun0014/ManifestHub"
             (Some ""%string) Samples.empty_destination).
    + left. split; reflexivity.
    + vm_compute. reflexivity.
    + reflexivity.
  - apply (@get_manifest_recovers_failed_fetch Samples.env_nowhere
             "0a1b2c" "Key.vdf" "[10]Demo" "ikun0014/ManifestHub"
             None Samples.empty_destination).
    + right. reflexivity.
    + vm_compute. reflexivity.
    + reflexivity.
Defined.

Lemma get_manifest_body_manifest (E : env) (sha path save_dir repo : string)
  (st st' : state) (c : list depot) :
  endswith path ".manifest" = true ->
  get_manifest_body E sha path save_dir repo st = (Ok c, st') -> c = [].
Proof.
  intros Hext H. unfold get_manifest_body in H. rewrite Hext in H.
  apply bind_inv in H. destruct H as [(present & st1 & _ & H)|(e & _ & H)];
    [|discriminate].
  destruct present.
  - apply bind_inv in H. destruct H as [(u1 & st2 & _ & H)|(e & _ & H)];
      [|discriminate].
    now injection H as <- _.
  - apply bind_inv in H. destruct H as [(content & st2 & _ & H)|(e & _ & H)];
      [|discriminate].
    destruct (truthy content).
    + apply bind_inv in H. destruct H as [(u1 & st3 & _ & H)|(e & _ & H)];
        [|discriminate].
      apply bind_inv in H. destruct H as [(u2 & st4 & _ & H)|(e & _ & H)];
        [|discriminate].
      now injection H as <- _.
    + now injection H as <- _.
Qed.

Lemma get_manifest_body_other (E : env) (sha path save_dir repo : string)
  (st st' : state) (r : result (list depot)) :
  endswith path ".manifest" = false ->
  get_manifest_body E sha path save_dir repo st = (r, st') ->
  fs st' = fs st /\
  (mem path vdf_paths = false -> r = Ok [] /\ st' = st).
Proof.
  intros Hext H. unfold get_manifest_body in H. rewrite Hext in H.
  destruct (mem path vdf_paths).
  2:{ injection H as <- <-. split; [reflexivity | intros _; now split]. }
  split; [|discriminate].
  apply bind_inv in H. destruct H as [(content & st1 & Hget & H)|(e & Hget & _)].
  2:{ now apply get_keeps_fs in Hget. }
  apply get_keeps_fs in Hget. destruct (truthy content).
  - apply bind_inv in H. destruct H as [(u1 & st2 & Hlog & H)|(e & Hlog & _)];
      [|discriminate].
    injection Hlog as _ <-.
    destruct (parse_key_file E match content with
                               | Some b => b
                               | None => ""
                               end);
      injection H as _ <-; exact Hget.
  - injection H as _ <-. exact Hget.
Qed.

(** X8. What the per-file step can do, by the kind of path. For a manifest
    it returns no record, or raises: records never come from manifests. For
    any other path it leaves the file system as it was: a key file is
    parsed, never saved. For a path that is neither, it does nothing at
    all. *)
Theorem get_manifest_effects (E : env) (sha path save_dir repo : string)
  (st st' : state) (r : result (list depot)) :
  get_manifest E sha path save_dir repo st = (r, st') ->
  (endswith path ".manifest" = true -> r = Ok [] \/ exists e, r = Raise e) /\
  (endswith path ".manifest" = false -> fs st' = fs st) /\
  (endswith path ".manifest" = false -> mem path vdf_paths = false ->
   r = Ok [] /\ st' = st).
Proof.
  unfold get_manifest, try_except. intros H.
  destruct (get_manifest_body E sha path save_dir repo st) as [[c|e] st1]
    eqn:Hbody.
  - injection H as <- <-. split; [|split].
    + intros Hext. left. f_equal.
      eapply get_manifest_body_manifest; eassumption.
    + intros Hext.
      eapply get_manifest_body_other; eassumption.
    + intros Hext Hkey.
      eapply get_manifest_body_other; eassumption.
  - assert (Hr : r = Raise e /\ fs st' = fs st1).
    { destruct (is_Exception e).
      - unfold bind, log, emit, raise in H. now injection H as <- <-.
      - unfold raise in H. now injection H as <- <-. }
    destruct Hr as [-> Hfs]. split; [|split].
    + intros _. right. now exists e.
    + intros Hext. rewrite Hfs.
      eapply get_manifest_body_other; eassumption.
    + intros Hext Hkey.
      pose proof Hbody as Hb.
      apply get_manifest_body_other in Hb; [|exact Hext].
      destruct Hb as [_ Hn]. destruct (Hn Hkey) as [Hc _]. discriminate.
Qed.

Lemma get_manifest_effects_witness :
  fs (snd (get_manifest Samples.env_good "0a1b2c" "Key.vdf" "[10]Demo"
             "ikun0014/ManifestHub" Samples.empty_destination))
  = fs Samples.empty_destination
  /\ get_manifest Samples.env_good "0a1b2c" "README.md" "[10]Demo"
       "ikun0014/ManifestHub" Samples.empty_destination
     = (Ok [], Samples.empty_destination).
Proof.
  split.
  - refine (proj1 (proj2 (@get_manifest_effects Samples.env_good "0a1b2c"
             "Key.vdf" "[10]Demo" "ikun0014/ManifestHub"
             Samples.empty_destination _ _ _)) eq_refl).
    vm_compute. reflexivity.
  - pose proof (@get_manifest_effects Samples.env_good "0a1b2c"
             "README.md" "[10]Demo" "ikun0014/ManifestHub"
             Samples.empty_destination Samples.empty_destination (Ok [])
             eq_refl) as (_ & _ & H).
    destruct (H eq_refl eq_refl) as [_ _]. reflexivity.
Defined.

(** ** The two phases over a tree *)

(** X9. The records of the key phase are those of one key file: the phase
    returns either nothing or exactly what one key file of the tree gave,
    and it ends with that file. When the first key file of the tree gives
    records, the entries after it are not looked at. *)
Theorem key_phase_single_file (E : env) (sha save_dir repo : string) :
  (forall tree st recs st',
     key_phase E sha save_dir repo tree [] st = (Ok recs, st') ->
     recs = [] \/
     exists p st0,
       In p tree /\ mem p vdf_paths = true /\
       get_manifest E sha p save_dir repo st0 = (Ok recs, st')) /\
  (forall pre p post recs st st1,
     Forall (fun x => mem x vdf_paths = false) pre ->
     mem p vdf_paths = true ->
     get_manifest E sha p save_dir repo st = (Ok recs, st1) ->
     recs <> [] ->
     key_phase E sha save_dir repo (pre ++ p :: post) [] st = (Ok recs, st1)).
Proof.
  split.
  - induction tree as [|p tree IH]; intros st recs st' H.
    + cbn in H. injection H as <- _. now left.
    + cbn [key_phase] in H. destruct (mem p vdf_paths) eqn:Hp.
      * apply bind_inv in H.
        destruct H as [(res & st1 & Hget & H)|(e & _ & H)]; [|discriminate].
        destruct res as [|x res]; cbn [nonempty] in H.
        -- apply IH in H. destruct H as [->|(q & st0 & Hq & Hk & Hrun)];
             [now left|].
           right. exists q, st0. repeat split; try assumption. now right.
        -- injection H as <- <-. right. exists p, st.
           repeat split; try assumption. now left.
      * apply IH in H. destruct H as [->|(q & st0 & Hq & Hk & Hrun)];
          [now left|].
        right. exists q, st0. repeat split; try assumption. now right.
  - intros pre p post recs st st1 Hpre Hp Hget Hne.
    induction Hpre as [|x pre Hx _ IH]; cbn [key_phase app].
    + rewrite Hp. unfold bind. rewrite Hget.
      destruct recs; [now elim Hne | reflexivity].
    + now rewrite Hx.
Qed.

Lemma key_phase_single_file_witness :
  key_phase Samples.env_two_keys "0a1b2c" "[10]Demo" "ikun0014/ManifestHub"
    ["Key.vdf"; "config.vdf"] [] Samples.start
  = (Ok [("10", PStr "AA"); ("20", PStr "BB")],
     snd (get_manifest Samples.env_two_keys "0a1b2c" "Key.vdf" "[10]Demo"
            "ikun0014/ManifestHub" Samples.start)).
Proof.
  apply (proj2 (key_phase_single_file Samples.env_two_keys "0a1b2c"
                  "[10]Demo" "ikun0014/ManifestHub")
               [] "Key.vdf" ["config.vdf"]).
  - constructor.
  - reflexivity.
  - vm_compute. reflexivity.
  - discriminate.
Defined.

Lemma manifest_phase_keeps_records (E : env) (sha save_dir repo : string)
  (tree : list string) (collected c : list depot) (st st' : state) :
  manifest_phase E sha save_dir repo tree collected st = (Ok c, st') ->
  c = collected.
Proof.
  revert collected st; induction tree as [|p tree IH]; intros collected st H.
  - cbn in H. now injection H as <- _.
  - cbn [manifest_phase] in H. destruct (endswith p ".manifest") eqn:Hext.
    + apply bind_inv in H.
      destruct H as [(res & st1 & Hget & H)|(e & _ & H)]; [|discriminate].
      apply IH in H. subst c.
      unfold get_manifest, try_except in Hget.
      destruct (get_manifest_body E sha p save_dir repo st) as [[x|e] st2]
        eqn:Hbody.
      * injection Hget as <- _.
        apply get_manifest_body_manifest in Hbody; [|exact Hext].
        subst x. apply app_nil_r.
      * destruct (is_Exception e).
        -- unfold bind, log, emit, raise in Hget. discriminate.
        -- discriminate.
    + now apply IH in H.
Qed.

(** X10. Manifests alone never make a source succeed. The manifest phase
    returns the records it was given, whatever it downloads; so a tree
    without a key file gives no record, and a source with such a tree is
    passed over or ends in an exception, never accepted, even when its
    manifests were saved. *)
Theorem manifests_add_no_record (E : env) (save_dir repo : string) :
  (forall sha tree collected st c st',
     manifest_phase E sha save_dir repo tree collected st = (Ok c, st') ->
     c = collected) /\
  (forall sha tree st c st',
     Forall (fun p => mem p vdf_paths = false) tree ->
     process_tree E sha save_dir repo tree st = (Ok c, st') -> c = []) /\
  (forall app_id sha tree_url date tree st r st',
     api_branch E (clock st) (branch_url repo app_id)
     = Branch sha tree_url date ->
     api_tree E (S (clock st)) tree_url = Tree tree ->
     Forall (fun p => mem p vdf_paths = false) tree ->
     try_repo E app_id save_dir repo st = (r, st') ->
     r = Ok None \/ exists e, r = Raise e).
Proof.
  assert (Hproc : forall sha tree st c st',
     Forall (fun p => mem p vdf_paths = false) tree ->
     process_tree E sha save_dir repo tree st = (Ok c, st') -> c = []).
  { intros sha tree st c st' Htree H. unfold process_tree in H.
    assert (Hkey : key_phase E sha save_dir repo tree [] st = (Ok [], st)).
    { clear H. induction Htree as [|p tree Hp _ IH]; cbn [key_phase];
        [reflexivity | now rewrite Hp]. }
    unfold bind in H. rewrite Hkey in H.
    now apply manifest_phase_keeps_records in H. }
  split; [|split; [exact Hproc|]].
  - intros. eapply manifest_phase_keeps_records; eassumption.
  - intros app_id sha tree_url date tree st r st' Hb Ht Htree H.
    unfold try_repo, log, emit in H.
    unfold bind at 1 in H. cbv beta iota in H.
    unfold bind at 1 in H. unfold request at 1 in H. cbv beta iota in H.
    cbn [clock] in H. rewrite Hb in H. cbv beta iota in H.
    unfold bind at 1 in H. unfold request at 1 in H. cbv beta iota in H.
    cbn [clock] in H. rewrite Ht in H. cbv beta iota in H.
    apply bind_inv in H.
    destruct H as [(c & st1 & Hrun & H)|(e & _ & H)];
      [|right; now exists e].
    apply Hproc in Hrun; [|exact Htree]. subst c.
    cbn [nonempty] in H. injection H as <- _. now left.
Qed.

Lemma manifests_add_no_record_witness :
  fst (try_repo Samples.env_up "10" "[10]Demo" "ikun0014/ManifestHub"
         Samples.empty_destination) = Ok None /\
  files (fs (snd (try_repo Samples.env_up "10" "[10]Demo"
                    "ikun0014/ManifestHub" Samples.empty_destination)))
  = [("[10]Demo/10_111.manifest", "m111")].
Proof.
  split; [|vm_compute; reflexivity].
  destruct (proj2 (proj2 (manifests_add_no_record Samples.env_up "[10]Demo"
                            "ikun0014/ManifestHub"))
                  "10" "0a1b2c" "https://api.github.com/tree/0a1b2c"
                  "2024-05-01T00:00:00Z" ["10_111.manifest"]
                  Samples.empty_destination
                  (fst (try_repo Samples.env_up "10" "[10]Demo"
                          "ikun0014/ManifestHub" Samples.empty_destination))
                  (snd (try_repo Samples.env_up "10" "[10]Demo"
                          "ikun0014/ManifestHub" Samples.empty_destination))
                  eq_refl eq_refl)
    as [H|[e H]].
  - repeat constructor.
  - vm_compute. reflexivity.
  - exact H.
  - vm_compute in H. discriminate.
Defined.

(** ** What the search does to the files that are there *)

Lemma fs_exists_grows (f f' : filesys) (added : list (string * string))
  (p : string) :
  incl (dirs f) (dirs f') ->
  files f' = files f ++ added ->
  fs_exists f p = true -> fs_exists f' p = true.
Proof.
  unfold fs_exists. intros Hd Hf H. apply orb_true_iff in H.
  apply orb_true_iff. destruct H as [H|H].
  - left. apply mem_true_in. apply Hd. now apply mem_true_in.
  - right. apply mem_true_in. rewrite Hf, map_app. apply in_or_app. left.
    now apply mem_true_in.
Qed.

Lemma af_keeps_fs {A} (m : M A) :
  (forall st r st', m st = (r, st') -> fs st' = fs st) -> appends_files m.
Proof.
  intros Hm st r st' H. apply Hm in H. rewrite H.
  split; [apply incl_refl|]. exists []. now rewrite app_nil_r.
Qed.

Lemma af_ret {A} (a : A) : appends_files (ret a).
Proof. apply af_keeps_fs. intros st r st' H. now injection H as _ <-. Qed.

Lemma af_raise {A} (e : exn) : appends_files (@raise A e).
Proof. apply af_keeps_fs. intros st r st' H. now injection H as _ <-. Qed.

Lemma af_lift {A} (x : result A) : appends_files (lift x).
Proof. destruct x; [apply af_ret | apply af_raise]. Qed.

Lemma af_emit (e : event) : appends_files (emit e).
Proof. apply af_keeps_fs. intros st r st' H. now injection H as _ <-. Qed.

Lemma af_request {A} (answer : nat -> string -> A) (url : string) :
  appends_files (request answer url).
Proof. apply af_keeps_fs. intros st r st' H. now injection H as _ <-. Qed.

Lemma af_exists (p : string) : appends_files (os_path_exists p).
Proof. apply af_keeps_fs. intros st r st' H. now injection H as _ <-. Qed.

Lemma af_makedirs (p : string) : appends_files (os_makedirs p).
Proof.
  intros st r st' H. unfold os_makedirs in H.
  destruct (mem p (map fst (files (fs st)))); injection H as _ <-.
  - split; [apply incl_refl|]. exists []. now rewrite app_nil_r.
  - cbn [fs dirs files]. split.
    + destruct (mem p (dirs (fs st))); [apply incl_refl|].
      apply incl_appl, incl_refl.
    + exists []. now rewrite app_nil_r.
Qed.

Lemma af_bind {A B} (m : M A) (k : A -> M B) :
  appends_files m -> (forall a, appends_files (k a)) ->
  appends_files (bind m k).
Proof.
  intros Hm Hk st r st' H. unfold bind in H.
  destruct (m st) as [[a|e] st1] eqn:Hrun.
  - destruct (Hm _ _ _ Hrun) as (Hd1 & a1 & Hf1 & Ha1).
    destruct (Hk _ _ _ _ H) as (Hd2 & a2 & Hf2 & Ha2).
    split; [eapply incl_tran; eassumption|].
    exists (a1 ++ a2). split; [now rewrite Hf2, Hf1, app_assoc|].
    apply Forall_app. split; [exact Ha1|].
    apply Forall_forall. intros pc Hpc. rewrite Forall_forall in Ha2.
    specialize (Ha2 pc Hpc).
    destruct (fs_exists (fs st) (fst pc)) eqn:Hex; [|reflexivity].
    assert (Hn : fs_exists (fs st1) (fst pc) = true)
      by (eapply fs_exists_grows; eassumption).
    congruence.
  - injection H as _ <-. eapply Hm; eassumption.
Qed.

Lemma af_try_except {A} (m : M A) (h : exn -> M A) :
  appends_files m -> (forall e, appends_files (h e)) ->
  appends_files (try_except m h).
Proof.
  intros Hm Hh st r st' H. unfold try_except in H.
  destruct (m st) as [[a|e] st1] eqn:Hrun.
  - injection H as _ <-. eapply Hm; eassumption.
  - destruct (Hm _ _ _ Hrun) as (Hd1 & a1 & Hf1 & Ha1).
    destruct (Hh _ _ _ _ H) as (Hd2 & a2 & Hf2 & Ha2).
    split; [eapply incl_tran; eassumption|].
    exists (a1 ++ a2). split; [now rewrite Hf2, Hf1, app_assoc|].
    apply Forall_app. split; [exact Ha1|].
    apply Forall_forall. intros pc Hpc. rewrite Forall_forall in Ha2.
    specialize (Ha2 pc Hpc).
    destruct (fs_exists (fs st) (fst pc)) eqn:Hex; [|reflexivity].
    assert (Hn : fs_exists (fs st1) (fst pc) = true)
      by (eapply fs_exists_grows; eassumption).
    congruence.
Qed.

Ltac af_with tac :=
  repeat match goal with
         | H : appends_files ?m |- appends_files ?m => exact H
         | |- appends_files (ret _) => apply af_ret
         | |- appends_files (raise _) => apply af_raise
         | |- appends_files (lift _) => apply af_lift
         | |- appends_files (log _ _) => apply af_emit
         | |- appends_files (request _ _) => apply af_request
         | |- appends_files (os_path_exists _) => apply af_exists
         | |- appends_files (os_makedirs _) => apply af_makedirs
         | |- appends_files (bind _ _) => apply af_bind; [|intro]
         | |- appends_files (try_except _ _) => apply af_try_except; [|intro]
         | |- appends_files (if ?b then _ else _) => destruct b
         | |- appends_files (match ?x with _ => _ end) => destruct x
         | |- appends_files _ => tac
         end.

Section Appends.

Variable E : env.

Lemma af_get (sha path repo : string) : appends_files (get E sha path repo).
Proof. apply af_keeps_fs. intros st r st'. apply get_keeps_fs. Qed.

(** The manifest branch: the check, the fetch, the write under a name the
    check found free. *)
Lemma af_save_manifest (sha path save_dir repo : string) :
  appends_files
    (present <- os_path_exists (os_path_join save_dir path) ;;
     if present then log WARNING (ManifestExists path) ;;; ret []
     else
       content <- get E sha path repo ;;
       if truthy content then
         log INFO (ManifestSaved path) ;;;
         write_file (os_path_join save_dir path)
           (match content with Some b => b | None => "" end)
         ;;; @ret (list depot) []
       else ret []).
Proof.
  intros st r st' H. unfold bind at 1 in H. unfold os_path_exists in H.
  cbv beta iota in H.
  destruct (fs_exists (fs st) (os_path_join save_dir path)) eqn:Hex.
  - unfold bind, log, emit, ret in H. injection H as _ <-. cbn [fs].
    split; [apply incl_refl|]. exists []. now rewrite app_nil_r.
  - unfold bind at 1 in H.
    destruct (get E sha path repo st) as [[content|e] st1] eqn:Hget.
    2:{ injection H as _ <-. apply get_keeps_fs in Hget. rewrite Hget.
        split; [apply incl_refl|]. exists []. now rewrite app_nil_r. }
    apply get_keeps_fs in Hget. destruct (truthy content).
    + unfold bind at 1 in H. unfold log, emit in H. cbv beta iota in H.
      unfold bind at 1 in H.
      match type of H with
      | context [write_file ?p ?c ?s] =>
          destruct (write_file p c s) as [[u|e] st2] eqn:Hw;
          destruct (write_file_inv _ _ _ Hw)
            as [(Hr & -> & _) | [(Hr & -> & _) | (Hr & -> & _)]];
          try discriminate Hr
      end.
      * unfold ret in H. injection H as _ <-.
        cbn [fs dirs files]. rewrite Hget. split; [apply incl_refl|].
        destruct (fs_exists_false _ _ Hex) as [_ Hfree].
        rewrite fs_put_absent by exact Hfree. eexists. split; [reflexivity|].
        constructor; [exact Hex | constructor].
      * injection H as _ <-. cbn [fs]. rewrite Hget.
        split; [apply incl_refl|]. exists []. now rewrite app_nil_r.
      * injection H as _ <-. cbn [fs]. rewrite Hget.
        split; [apply incl_refl|]. exists []. now rewrite app_nil_r.
    + injection H as _ <-. rewrite Hget.
      split; [apply incl_refl|]. exists []. now rewrite app_nil_r.
Qed.

Lemma af_get_manifest (sha path save_dir repo : string) :
  appends_files (get_manifest E sha path save_dir repo).
Proof.
  unfold get_manifest, get_manifest_body.
  apply af_try_except; [|intro; af_with fail].
  destruct (endswith path ".manifest"); [apply af_save_manifest|].
  af_with ltac:(apply af_get).
Qed.

Lemma af_key_phase (sha save_dir repo : string) (tree : list string)
  (collected : list depot) :
  appends_files (key_phase E sha save_dir repo tree collected).
Proof.
  induction tree as [|p tree IH]; cbn [key_phase];
    af_with ltac:(apply af_get_manifest).
Qed.

Lemma af_manifest_phase (sha save_dir repo : string) (tree : list string)
  (collected : list depot) :
  appends_files (manifest_phase E sha save_dir repo tree collected).
Proof.
  revert collected; induction tree as [|p tree IH]; intros collected;
    cbn [manifest_phase];
    af_with ltac:(first [apply af_get_manifest | apply IH]).
Qed.

Lemma af_try_repo (app_id save_dir repo : string) :
  appends_files (try_repo E app_id save_dir repo).
Proof.
  unfold try_repo, process_tree.
  af_with ltac:(first [apply af_key_phase | apply af_manifest_phase]).
Qed.

Lemma af_search_repos (app_id save_dir : string) (rs : list string) :
  appends_files (search_repos E app_id save_dir rs).
Proof.
  induction rs as [|r rs IH]; cbn [search_repos];
    af_with ltac:(apply af_try_repo).
Qed.

Lemma af_download_and_process (tok name : string) :
  appends_files (download_and_process E tok name).
Proof.
  unfold download_and_process. af_with ltac:(apply af_search_repos).
Qed.

End Appends.

(** X11. The search never changes what is at the destination: when
    [download_and_process] ends, however it ends, the directories that
    were there are there, and the files are those that were there, in
    their place and with their content, followed by files saved under names
    that were free. *)
Theorem download_and_process_keeps_files (E : env) (tok name : string)
  (st st' : state) (r : result (list depot * string)) :
  download_and_process E tok name st = (r, st') ->
  incl (dirs (fs st)) (dirs (fs st')) /\
  (exists added,
     files (fs st') = files (fs st) ++ added /\
     Forall (fun pc => fs_exists (fs st) (fst pc) = false) added) /\
  (forall p content,
     In (p, content) (files (fs st)) -> In (p, content) (files (fs st'))).
Proof.
  intros H. apply af_download_and_process in H.
  destruct H as (Hd & added & Hf & Hnew).
  split; [exact Hd|]. split; [now exists added|].
  intros p content Hin. rewrite Hf. apply in_or_app. now left.
Qed.

Lemma download_and_process_keeps_files_witness :
  files (fs (snd (download_and_process Samples.env_good "10" "Demo"
                    Samples.with_note)))
  = files (fs Samples.with_note)
    ++ [("[10]Demo/10_111.manifest", "m111")]
  /\ In ("[10]Demo/note.txt", "keep")
        (files (fs (snd (download_and_process Samples.env_good "10" "Demo"
                           Samples.with_note)))).
Proof.
  split; [vm_compute; reflexivity|].
  refine (proj2 (proj2 (@download_and_process_keeps_files Samples.env_good
           "10" "Demo" Samples.with_note _ _ _)) _ _ _).
  - vm_compute. reflexivity.
  - now left.
Defined.

(** ** The search over the sources, again *)



Lemma try_repo_some_trace (E : env) (app_id save_dir repo : string)
  (st st' : state) (c : list depot) :
  try_repo E app_id save_dir repo st = (Ok (Some c), st') ->
  exists date l,
    trace st'
    = trace st ++ l ++ [EvLog INFO (LastUpdate date);
                        EvLog INFO (Stored app_id repo)].
Proof.
  unfold try_repo. intros H.
  apply bind_inv in H. destruct H as [(u1 & st1 & Hlog & H)|(e & _ & H)];
    [|discriminate].
  injection Hlog as _ <-.
  apply bind_inv in H. destruct H as [(reply & st2 & Hreq & H)|(e & _ & H)];
    [|discriminate].
  injection Hreq as _ <-.
  destruct reply as [sha tree_url date| |e]; try discriminate.
  apply bind_inv in H. destruct H as [(reply2 & st3 & Hreq2 & H)|(e & _ & H)];
    [|discriminate].
  injection Hreq2 as _ <-.
  destruct reply2 as [tree| |e]; try discriminate.
  apply bind_inv in H.
  destruct H as [(collected & st4 & Hproc & H)|(e & _ & H)]; [|discriminate].
  apply monotone_process_tree in Hproc. destruct Hproc as ([l Hl] & _).
  destruct (nonempty collected); [|discriminate].
  unfold bind, log, emit, ret in H. injection H as _ <-.
  exists date.
  exists (EvLog INFO (SearchRepo repo) :: EvGet (branch_url repo app_id)
          :: EvGet tree_url :: l).
  cbn [trace] in *. rewrite Hl. rewrite <- !app_assoc. reflexivity.
Qed.

Lemma search_repos_found (E : env) (app_id save_dir : string)
  (rs : list string) (st st' : state) (recs : list depot) (d : string) :
  search_repos E app_id save_dir rs st = (Ok (recs, d), st') ->
  recs <> [] ->
  exists repo st0,
    In repo rs /\ extends st st0 /\
    try_repo E app_id save_dir repo st0 = (Ok (Some recs), st').
Proof.
  revert st; induction rs as [|repo rs IH]; intros st H Hne.
  - cbn in H. unfold bind, log, emit, ret in H. injection H as <- _ _.
    now elim Hne.
  - cbn [search_repos] in H. apply bind_inv in H.
    destruct H as [(found & st1 & Ht & H)|(e & _ & H)]; [|discriminate].
    destruct found as [c|].
    + injection H as <- _ <-. exists repo, st.
      split; [now left|]. split; [apply extends_refl | exact Ht].
    + apply bind_inv in H.
      destruct H as [(u2 & st2 & Hlog & H)|(e & _ & H)]; [|discriminate].
      apply monotone_try_repo in Ht.
      assert (Hext : extends st1 st2).
      { eapply monotone_emit. exact Hlog. }
      destruct (IH _ H Hne) as (r & st0 & Hr & Hst0 & Hrun).
      exists r, st0. split; [now right|]. split; [|exact Hrun].
      eapply extends_trans; [exact Ht|].
      eapply extends_trans; eassumption.
Qed.

(** X13. The records returned come from one source, and the search ends
    with it: when [download_and_process] returns records, one source of
    [repos] returned exactly these records, the last two lines logged name
    the date and that source, and the path returned is the destination
    made from the normalized identifier. *)
Theorem download_and_process_single_source (E : env) (tok name : string)
  (st st' : state) (recs : list depot) (d : string) :
  download_and_process E tok name st = (Ok (recs, d), st') ->
  recs <> [] ->
  exists id repo st0 date l,
    normalize tok = Ok id /\
    d = save_dir_of id name /\
    In repo repos /\
    try_repo E id d repo st0 = (Ok (Some recs), st') /\
    trace st'
    = trace st ++ l ++ [EvLog INFO (LastUpdate date);
                        EvLog INFO (Stored id repo)].
Proof.
  intros H Hne. unfold download_and_process in H.
  apply bind_inv in H. destruct H as [(id & st1 & Hn & H)|(e & _ & H)];
    [|discriminate].
  destruct (normalize tok) as [id'|e] eqn:Hnorm; [|discriminate].
  injection Hn as -> <-.
  apply bind_inv in H. destruct H as [(u1 & st2 & Hmk & H)|(e & _ & H)];
    [|discriminate].
  pose proof H as Hd. apply search_repos_save_dir in Hd. subst d.
  apply search_repos_found in H; [|exact Hne].
  destruct H as (repo & st0 & Hr & Hext & Hrun).
  pose proof Hrun as Htr. apply try_repo_some_trace in Htr.
  destruct Htr as (date & l2 & Htr).
  apply monotone_makedirs in Hmk. destruct Hmk as ([l0 Hl0] & _).
  destruct Hext as ([l1 Hl1] & _).
  exists id, repo, st0, date, (l0 ++ l1 ++ l2).
  repeat split; try assumption.
  rewrite Htr, Hl1, Hl0, <- !app_assoc. reflexivity.
Qed.

Lemma download_and_process_single_source_witness :
  exists id repo st0 date l,
    normalize "10" = Ok id /\
    "[10]Demo"%string = save_dir_of id "Demo" /\
    In repo repos /\
    try_repo Samples.env_good id "[10]Demo" repo st0
    = (Ok (Some [("10", PStr "AA"); ("20", PStr "BB")]),
       snd (download_and_process Samples.env_good "10" "Demo" Samples.start))
    /\
    trace (snd (download_and_process Samples.env_good "10" "Demo"
                  Samples.start))
    = trace Samples.start ++ l ++ [EvLog INFO (LastUpdate date);
                                   EvLog INFO (Stored id repo)].
Proof.
  apply (@download_and_process_single_source Samples.env_good "10" "Demo"
           Samples.start).
  - vm_compute. reflexivity.
  - discriminate.
Defined.

(** ** Identifiers and file names *)

Lemma decimal_char_not_space (a : ascii) :
  isdecimal_char a = true -> isspace_char a = false.
Proof.
  unfold isdecimal_char, isspace_char. cbv zeta.
  generalize (nat_of_ascii a) as n. intros n H.
  apply andb_true_iff in H. destruct H as [H1 H2].
  apply Nat.leb_le in H1. apply Nat.leb_le in H2.
  repeat (apply orb_false_iff; split).
  - apply andb_false_iff. right. apply Nat.leb_gt. lia.
  - apply andb_false_iff. right. apply Nat.leb_gt. lia.
  - apply Nat.eqb_neq. lia.
  - apply Nat.eqb_neq. lia.
Qed.

Lemma decimal_char_not_hyphen (a : ascii) :
  isdecimal_char a = true -> Ascii.eqb a "-" = false.
Proof.
  intros H. apply Ascii.eqb_neq. intros ->. discriminate.
Qed.

Lemma lstrip_decimal (s : string) :
  all_chars isdecimal_char s = true -> lstrip s = s.
Proof.
  destruct s as [|a s]; simpl; [reflexivity|].
  intros H. apply andb_true_iff in H. destruct H as [Ha _].
  now rewrite (decimal_char_not_space a Ha).
Qed.

Lemma rstrip_decimal (s : string) :
  all_chars isdecimal_char s = true -> rstrip s = s.
Proof.
  induction s as [|a s IH]; simpl; [reflexivity|].
  intros H. apply andb_true_iff in H. destruct H as [Ha Hs].
  rewrite (IH Hs). destruct s; [|reflexivity].
  now rewrite (decimal_char_not_space a Ha).
Qed.

Lemma split_decimal (s : string) :
  all_chars isdecimal_char s = true -> split "-" s = [s].
Proof.
  induction s as [|a s IH]; simpl; [reflexivity|].
  intros H. apply andb_true_iff in H. destruct H as [Ha Hs].
  rewrite (decimal_char_not_hyphen a Ha), (IH Hs). reflexivity.
Qed.

Lemma isdecimal_all (s : string) :
  isdecimal s = true -> all_chars isdecimal_char s = true.
Proof. destruct s; [discriminate | exact (fun H => H)]. Qed.

(** X14. Normalization is the identity on the identifiers it returns, and a
    run depends on the token only through its identifier: a string of
    decimal digits normalizes to itself, so does whatever [normalize]
    returns, and [download_and_process] on a raw token is the same run as
    on its identifier. *)
Theorem normalize_fixes_identifiers (E : env) :
  (forall s, isdecimal s = true -> normalize s = Ok s) /\
  (forall tok id,
     normalize tok = Ok id ->
     isdecimal id = true /\
     normalize id = Ok id /\
     forall name st,
       download_and_process E id name st
       = download_and_process E tok name st).
Proof.
  assert (Hfix : forall s, isdecimal s = true -> normalize s = Ok s).
  { intros s Hs. pose proof (isdecimal_all s Hs) as Hall.
    unfold normalize, strip.
    rewrite (lstrip_decimal s Hall), (rstrip_decimal s Hall),
      (split_decimal s Hall).
    simpl. now rewrite Hs. }
  split; [exact Hfix|].
  intros tok id Hnorm.
  assert (Hid : isdecimal id = true).
  { unfold normalize in Hnorm.
    destruct (filter isdecimal (split "-" (strip tok))) as [|x rest] eqn:Hf;
      [discriminate|].
    injection Hnorm as ->.
    apply filter_head in Hf. now destruct Hf as (_ & _ & _ & Hx & _). }
  split; [exact Hid|]. split; [now apply Hfix|].
  intros name st. unfold download_and_process.
  now rewrite Hnorm, (Hfix id Hid).
Qed.

Lemma normalize_fixes_identifiers_witness :
  isdecimal "123" = true /\
  normalize "123" = Ok "123" /\
  forall name st,
    download_and_process Samples.env_nowhere "123" name st
    = download_and_process Samples.env_nowhere " 123-456 " name st.
Proof.
  apply (proj2 (normalize_fixes_identifiers Samples.env_nowhere)
               " 123-456 " "123").
  reflexivity.
Defined.

Lemma prefix_before_underscore (a b x y : string) :
  has_char "_" a = false -> has_char "_" b = false ->
  (a ++ "_" ++ x)%string = (b ++ "_" ++ y)%string -> a = b.
Proof.
  revert b; induction a as [|c a IH]; intros [|d b] Ha Hb H;
    simpl in *.
  - reflexivity.
  - injection H as <- _. apply orb_false_iff in Hb. destruct Hb as [Hd _].
    discriminate.
  - injection H as -> _. apply orb_false_iff in Ha. destruct Ha as [Hc _].
    discriminate.
  - injection H as <- H. apply orb_false_iff in Ha. destruct Ha as [_ Ha].
    apply orb_false_iff in Hb. destruct Hb as [_ Hb].
    f_equal. now apply IH.
Qed.

Lemma decimal_has_no_underscore (s : string) :
  all_chars isdecimal_char s = true -> has_char "_" s = false.
Proof.
  induction s as [|a s IH]; simpl; [reflexivity|].
  intros H. apply andb_true_iff in H. destruct H as [Ha Hs].
  rewrite (IH Hs), orb_false_r. apply Ascii.eqb_neq. intros ->. discriminate.
Qed.

(** X15. A manifest file belongs to one depot at most, for depot IDs
    without an underscore, as decimal IDs are: a name of the listing that
    is selected for one such ID is selected for no other, so no file gives
    a binding line to two depots. *)
Theorem manifest_file_of_one_depot (d1 d2 f : string)
  (listing : list string) :
  has_char "_" d1 = false ->
  has_char "_" d2 = false ->
  d1 <> d2 ->
  In f (manifest_files d1 listing) ->
  ~ In f (manifest_files d2 listing).
Proof.
  intros H1 H2 Hne Hf1 Hf2. apply Hne. unfold manifest_files in *.
  apply filter_In in Hf1. apply filter_In in Hf2.
  destruct Hf1 as [_ Hs1]. destruct Hf2 as [_ Hs2].
  apply andb_true_iff in Hs1. apply andb_true_iff in Hs2.
  destruct Hs1 as [Hs1 _]. destruct Hs2 as [Hs2 _].
  apply startswith_iff in Hs1. apply startswith_iff in Hs2.
  destruct Hs1 as [r1 Hr1]. destruct Hs2 as [r2 Hr2].
  rewrite Hr1 in Hr2. rewrite !append_assoc in Hr2.
  now apply (prefix_before_underscore d1 d2 r1 r2).
Qed.

Lemma manifest_file_of_one_depot_witness :
  In "1_0.manifest"%string
     (manifest_files "1" ["1_0.manifest"; "10_0.manifest"]) /\
  ~ In "1_0.manifest"%string
       (manifest_files "10" ["1_0.manifest"; "10_0.manifest"]).
Proof.
  split; [now left|].
  apply (@manifest_file_of_one_depot "1" "10" "1_0.manifest"
           ["1_0.manifest"; "10_0.manifest"]).
  - reflexivity.
  - reflexivity.
  - discriminate.
  - now left.
Defined.

(** ** The tail of [main] on a successful search *)

Lemma download_dir_exists (E : env) (tok name : string) (st st' : state)
  (recs : list depot) (d : string) :
  download_and_process E tok name st = (Ok (recs, d), st') ->
  mem d (dirs (fs st')) = true.
Proof.
  unfold download_and_process. intros H.
  apply bind_inv in H. destruct H as [(id & st1 & Hn & H)|(e & _ & H)];
    [|discriminate].
  destruct (normalize tok) as [id'|e]; [|discriminate].
  injection Hn as -> <-.
  apply bind_inv in H. destruct H as [(u1 & st2 & Hmk & H)|(e & _ & H)];
    [|discriminate].
  pose proof H as Hd. apply search_repos_save_dir in Hd. subst d.
  apply monotone_search_repos in H. destruct H as (_ & Hdirs & _).
  apply mem_true_in. apply Hdirs.
  unfold os_makedirs in Hmk.
  destruct (mem (save_dir_of id name) (map fst (files (fs st))));
    [discriminate|].
  injection Hmk as _ <-. cbn [fs dirs].
  destruct (mem (save_dir_of id name) (dirs (fs st))) eqn:Hmem.
  - now apply mem_true_in.
  - apply in_or_app. right. now left.
Qed.

(** What [fs_put] leaves: the file written holds the content given, every
    file under another name is as it was. *)
Lemma fs_put_spec (l : list (string * string)) (p content : string) :
  In (p, content) (fs_put l p content) /\
  forall q c, q <> p -> (In (q, c) (fs_put l p content) <-> In (q, c) l).
Proof.
  induction l as [|[q0 c0] l [IH1 IH2]]; simpl.
  - split; [now left|]. intros q c Hq. split; [|intros []].
    intros [H|[]]. injection H as <- _. now elim Hq.
  - destruct (String.eqb_spec q0 p) as [->|Hne].
    + split; [now left|]. intros q c Hq. simpl. split.
      * intros [H|H]; [injection H as <- _; now elim Hq | now right].
      * intros [H|H]; [injection H as <- _; now elim Hq | now right].
    + split; [right; exact IH1|]. intros q c Hq. simpl.
      rewrite (IH2 q c Hq). reflexivity.
Qed.

(** X16. When the search returns records, for an identifier without a
    slash and a script name that no directory bears, [main] renders the
    script from the records and from the listing of the destination as the
    search left it, and writes it to [<appid>.lua] in that directory,
    replacing what a file of that name held; every other file is as the
    search left it, and the run ends normally after the closing message. *)
Theorem main_tail_writes_script (E : env) (appid name d : string)
  (recs : list depot) (st st1 : state) :
  download_and_process E appid name st = (Ok (recs, d), st1) ->
  recs <> [] ->
  has_char "/" appid = false ->
  mem (os_path_join d (appid ++ ".lua")) (dirs (fs st1)) = false ->
  exists st2,
    main_tail E appid name st = (Ok tt, st2) /\
    In (os_path_join d (appid ++ ".lua"),
        script_of_spec E appid recs (fs_listdir (fs st1) d))
       (files (fs st2)) /\
    (forall q c, q <> os_path_join d (appid ++ ".lua") ->
                 (In (q, c) (files (fs st2)) <-> In (q, c) (files (fs st1))))
    /\
    dirs (fs st2) = dirs (fs st1) /\
    trace st2
    = trace st1
      ++ [EvWrite (os_path_join d (appid ++ ".lua"))
                  (script_of_spec E appid recs (fs_listdir (fs st1) d));
          EvPrint (match name with
                   | EmptyString => appid
                   | _ => name
                   end) d].
Proof.
  intros Hrun Hne Hflat Hfree.
  pose proof Hrun as Hdir. apply download_dir_exists in Hdir.
  assert (Hthere : dir_exists (fs st1)
                     (os_path_dirname (os_path_join d (appid ++ ".lua")))
                   = true).
  { apply dir_exists_join; [|exact Hdir].
    rewrite has_char_append, Hflat. reflexivity. }
  set (script := script_of_spec E appid recs (fs_listdir (fs st1) d)).
  set (p := os_path_join d (appid ++ ".lua")) in *.
  exists {| clock := clock st1;
            fs := {| dirs := dirs (fs st1);
                     files := fs_put (files (fs st1)) p script |};
            trace := (trace st1 ++ [EvWrite p script])
                     ++ [EvPrint (match name with
                                  | EmptyString => appid
                                  | _ => name
                                  end) d] |}.
  split.
  - unfold main_tail. unfold bind at 1. rewrite Hrun.
    destruct recs as [|r0 recs]; [now elim Hne|]. cbn [nonempty].
    unfold bind at 1. unfold parse_vdf_to_lua. unfold bind at 1.
    rewrite (depot_lines_spec E (r0 :: recs) d [addappid_line appid] st1 Hdir).
    unfold ret at 1. cbv beta iota.
    unfold bind at 1. fold p.
    rewrite (write_file_ok p _ st1 Hfree Hthere). reflexivity.
  - cbn [fs files dirs trace].
    destruct (fs_put_spec (files (fs st1)) p script) as [Hin Hother].
    repeat split; try assumption.
    + now apply Hother.
    + now apply Hother.
    + now rewrite <- app_assoc.
Qed.

Lemma main_tail_writes_script_witness :
  exists st2,
    main_tail Samples.env_good "10" "Demo" Samples.start = (Ok tt, st2) /\
    In (os_path_join "[10]Demo" ("10" ++ ".lua"),
        script_of_spec Samples.env_good "10"
          [("10", PStr "AA"); ("20", PStr "BB")]
          (fs_listdir
             (fs (snd (download_and_process Samples.env_good "10" "Demo"
                         Samples.start))) "[10]Demo"))
       (files (fs st2)).
Proof.
  destruct (@main_tail_writes_script Samples.env_good "10" "Demo" "[10]Demo"
              [("10", PStr "AA"); ("20", PStr "BB")] Samples.start
              (snd (download_and_process Samples.env_good "10" "Demo"
                      Samples.start)))
    as (st2 & Hrun & Hin & _).
  - vm_compute. reflexivity.
  - discriminate.
  - reflexivity.
  - vm_compute. reflexivity.
  - exists st2. now split.
Defined.

(** An identifier typed with a slash names a script in a directory that is
    not there: the search succeeds, the manifest is saved, and opening the
    script raises. *)
Example main_tail_script_in_missing_directory :
  fst (main_tail Samples.env_good "a/-10" "Demo" Samples.start)
  = Raise FileNotFoundError /\
  map fst (files (fs (snd (main_tail Samples.env_good "a/-10" "Demo"
                             Samples.start))))
  = ["[10]Demo/10_111.manifest"].
Proof. split; vm_compute; reflexivity. Qed.

(** ** The front end *)

Section FrontEndFacts.

Import FrontEnd.

Variable net : string -> search_reply.

(** X17. The menu choice is checked before it is used. The game returned
    is the one at the position typed, counted from 1, among the games the
    search gave, with its display name, for a line of decimal digits that
    is no longer than [int] converts; a position outside the list, or a
    line that is not a number, returns nothing; the list is never indexed
    out of bounds: an exception is one the search raised, or the
    [ValueError] of [int] on a line of digits that are not all decimal or
    that are too many. *)
Theorem find_appid_by_name_selects_in_bounds (game_name choice : string) :
  (forall e,
     fst (find_appid_by_name net game_name choice) = FRaise e ->
     e = ValueError \/ fst (search_game_info net game_name) = FRaise e) /\
  (forall a d,
     fst (find_appid_by_name net game_name choice) = FOk (Some (a, d)) ->
     exists games g,
       fst (search_game_info net game_name) = FOk games /\
       isdecimal choice = true /\
       String.length choice <= int_max_str_digits /\
       1 <= decimal_value choice 0 <= List.length games /\
       nth_error games (decimal_value choice 0 - 1) = Some g /\
       a = appid g /\ d = display_name g) /\
  (forall games g,
     fst (search_game_info net game_name) = FOk games ->
     isdecimal choice = true ->
     String.length choice <= int_max_str_digits ->
     nth_error games (decimal_value choice 0 - 1) = Some g ->
     1 <= decimal_value choice 0 ->
     fst (find_appid_by_name net game_name choice)
     = FOk (Some (appid g, display_name g))) /\
  (fst (find_appid_by_name net game_name choice) = FRaise ValueError ->
   isdigit choice = true /\
   (isdecimal choice = false \/
    int_max_str_digits < String.length choice)).
Proof.
  unfold find_appid_by_name.
  destruct (search_game_info net game_name) as [[games|e] out] eqn:Hsearch.
  2:{ cbn [fst]. assert (He : e <> ValueError).
      { unfold search_game_info in Hsearch.
        destruct (net (search_url game_name)) as [status body|e0].
        - destruct (Nat.eqb status 200); [|discriminate].
          destruct body as [g|e1]; [discriminate|].
          destruct e1; cbn in Hsearch; try discriminate;
            injection Hsearch as <- _; discriminate.
        - destruct e0; cbn in Hsearch; try discriminate;
            injection Hsearch as <- _; discriminate. }
      split; [intros e' H; right; injection H as <-; reflexivity|].
      split; [discriminate|].
      split; [discriminate|]. intros H. congruence. }
  cbn [fst]. destruct games as [|g0 games].
  { cbn [fst]. split; [discriminate|]. split; [discriminate|].
    split; [|discriminate].
    intros games g H. injection H as <-. intros _ _ Hnth.
    destruct (decimal_value choice 0 - 1); discriminate. }
  set (gs := g0 :: games) in *.
  unfold int_of_digits.
  destruct (isdigit choice) eqn:Hdigit.
  2:{ cbn [fst]. split; [discriminate|]. split; [discriminate|].
      split; [|discriminate].
      intros games' g H. injection H as <-. intros Hdec _ _ _.
      destruct choice as [|c choice]; [discriminate|].
      cbn [isdigit isdecimal] in *.
      assert (Hall : forall s, all_chars isdecimal_char s = true ->
                               all_chars isdigit_char s = true).
      { induction s as [|a s IH]; simpl; [reflexivity|].
        intros H. apply andb_true_iff in H. destruct H as [Ha Hs].
        rewrite (IH Hs), andb_true_r. unfold isdigit_char.
        unfold isdecimal_char in Ha. cbv zeta in *. now rewrite Ha. }
      rewrite (Hall _ Hdec) in Hdigit. discriminate. }
  destruct (isdecimal choice) eqn:Hdec.
  2:{ cbn [fst]. split; [intros e H; left; congruence|].
      split; [discriminate|].
      split; [discriminate|]. intros _. split; [reflexivity | now left]. }
  destruct (Nat.leb (String.length choice) int_max_str_digits) eqn:Hlen.
  2:{ apply Nat.leb_gt in Hlen.
      cbn [fst]. split; [intros e H; left; congruence|].
      split; [discriminate|].
      split; [intros games' g _ _ Hle; lia|].
      intros _. split; [reflexivity | now right]. }
  apply Nat.leb_le in Hlen.
  set (n := decimal_value choice 0) in *.
  destruct ((1 <=? n) && (n <=? List.length gs))%nat eqn:Hbounds.
  - apply andb_true_iff in Hbounds. destruct Hbounds as [H1 H2].
    apply Nat.leb_le in H1. apply Nat.leb_le in H2.
    destruct (nth_error gs (n - 1)) as [g|] eqn:Hnth.
    + cbn [fst]. split; [discriminate|]. split; [|split; [|discriminate]].
      * intros a d H. injection H as <- <-. exists gs, g.
        repeat split; try assumption.
      * intros games' g' H. injection H as <-. intros _ _ Hg _.
        rewrite Hnth in Hg. now injection Hg as <-.
    + exfalso. apply nth_error_None in Hnth. lia.
  - cbn [fst]. split; [discriminate|]. split; [discriminate|].
    split; [|discriminate].
    intros games' g H. injection H as <-. intros _ _ Hnth H1.
    apply andb_false_iff in Hbounds. destruct Hbounds as [Hb|Hb].
    + apply Nat.leb_gt in Hb. lia.
    + apply Nat.leb_gt in Hb.
      assert (Hlt : n - 1 < List.length gs).
      { apply nth_error_Some. congruence. }
      lia.
Qed.

End FrontEndFacts.

Lemma find_appid_by_name_selects_in_bounds_witness :
  fst (FrontEnd.find_appid_by_name FrontEnd.net_two_games "demo" "2")
  = FrontEnd.FOk (Some ("20"%string, "Shi"%string)).
Proof.
  apply (proj1 (proj2 (proj2
           (find_appid_by_name_selects_in_bounds FrontEnd.net_two_games
              "demo" "2")))
         FrontEnd.two_games
         {| FrontEnd.schinese_name := "Shi"; FrontEnd.name := "Other";
            FrontEnd.appid := "20" |});
    try reflexivity.
  - unfold FrontEnd.int_max_str_digits. simpl. lia.
  - simpl. lia.
Defined.

Section FrontEndRuns.

Import FrontEnd.

Variable E : env.
Variable net : string -> search_reply.

Lemma search_game_info_requests (term : string) :
  exists logs,
    snd (search_game_info net term) = FeGet (search_url term) :: logs /\
    ~ In FeInput logs.
Proof.
  unfold search_game_info.
  destruct (net (search_url term)) as [status body|e].
  - destruct (Nat.eqb status 200).
    + destruct body as [games|e].
      * exists []. split; [reflexivity | intros []].
      * destruct e; cbn; eexists; (split; [reflexivity|]);
          simpl; intuition discriminate.
    + eexists. split; [reflexivity|]. simpl. intuition discriminate.
  - destruct (is_ClientError e); eexists; (split; [reflexivity|]);
      simpl; intuition discriminate.
Qed.


End FrontEndRuns.


Section DigitLines.

Import FrontEnd.

Lemma digit_char_not_space (a : ascii) :
  isdigit_char a = true -> isspace_char a = false.
Proof.
  unfold isdigit_char, isspace_char. cbv zeta.
  generalize (nat_of_ascii a) as n. intros n H.
  assert (Hn : 48 <= n <= 57 \/ n = 178 \/ n = 179 \/ n = 185).
  { repeat (apply orb_true_iff in H; destruct H as [H|H]).
    - apply andb_true_iff in H. destruct H as [H1 H2].
      apply Nat.leb_le in H1. apply Nat.leb_le in H2. left. lia.
    - apply Nat.eqb_eq in H. right. left. exact H.
    - apply Nat.eqb_eq in H. right. right. left. exact H.
    - apply Nat.eqb_eq in H. right. right. right. exact H. }
  repeat (apply orb_false_iff; split).
  - apply andb_false_iff. right. apply Nat.leb_gt. lia.
  - apply andb_false_iff. right. apply Nat.leb_gt. lia.
  - apply Nat.eqb_neq. lia.
  - apply Nat.eqb_neq. lia.
Qed.

Lemma digit_char_not_hyphen (a : ascii) :
  isdigit_char a = true -> Ascii.eqb a "-" = false.
Proof. intros H. apply Ascii.eqb_neq. intros ->. discriminate. Qed.

(** A line of digits has nothing to strip and no hyphen to cut at: it is
    its own single segment. *)
Lemma digits_single_segment (s : string) :
  all_chars isdigit_char s = true ->
  strip s = s /\ split "-" s = [s].
Proof.
  intros Hall.
  assert (Hl : lstrip s = s).
  { destruct s as [|a s]; simpl; [reflexivity|].
    simpl in Hall. apply andb_true_iff in Hall. destruct Hall as [Ha _].
    now rewrite (digit_char_not_space a Ha). }
  assert (Hr : rstrip s = s).
  { induction s as [|a s IH]; simpl; [reflexivity|].
    simpl in Hall. apply andb_true_iff in Hall. destruct Hall as [Ha Hs].
    assert (Hls : lstrip s = s).
    { destruct s as [|b s]; simpl; [reflexivity|].
      simpl in Hs. apply andb_true_iff in Hs. destruct Hs as [Hb _].
      now rewrite (digit_char_not_space b Hb). }
    rewrite (IH Hs Hls). destruct s; [|reflexivity].
    now rewrite (digit_char_not_space a Ha). }
  split.
  - unfold strip. now rewrite Hl, Hr.
  - clear Hl Hr. induction s as [|a s IH]; simpl; [reflexivity|].
    simpl in Hall. apply andb_true_iff in Hall. destruct Hall as [Ha Hs].
    rewrite (digit_char_not_hyphen a Ha), (IH Hs). reflexivity.
Qed.

Lemma normalize_digits (s : string) :
  isdigit s = true ->
  normalize s = if isdecimal s then Ok s else Raise IndexError.
Proof.
  intros Hd.
  assert (Hall : all_chars isdigit_char s = true).
  { destruct s; [discriminate | exact Hd]. }
  destruct (digits_single_segment s Hall) as [Hstrip Hsplit].
  unfold normalize. rewrite Hstrip, Hsplit. simpl.
  destruct (isdecimal s); reflexivity.
Qed.

(** X19. [main] takes for an appid every line that [isdigit] accepts, and
    the pipeline only what [isdecimal] accepts. On such a line, once the
    name lookup has returned, a line of decimal digits is its own
    identifier and the run is the pipeline's on that line and the name
    found; a line with a superscript digit ends in [IndexError] before
    anything is created or requested by the pipeline. *)
Theorem main_digit_line (E : env) (net : string -> search_reply)
  (line choice game_name : string) (out : list front_event) (st : state) :
  isdigit (strip line) = true ->
  get_game_name_by_appid net (strip line) = (FOk game_name, out) ->
  (isdecimal (strip line) = true ->
   normalize (strip line) = Ok (strip line) /\
   fst (main E net line choice st)
   = match main_tail E (strip line) game_name st with
     | (Ok _, st') => (FOk tt, st')
     | (Raise e, st') => (FRaise (Other e), st')
     end) /\
  (isdecimal (strip line) = false ->
   fst (main E net line choice st) = (FRaise (Other IndexError), st)).
Proof.
  intros Hdigit Hname.
  pose proof (normalize_digits (strip line) Hdigit) as Hnorm.
  assert (Hmain : fst (main E net line choice st)
                  = match main_tail E (strip line) game_name st with
                    | (Ok _, st') => (FOk tt, st')
                    | (Raise e, st') => (FRaise (Other e), st')
                    end).
  { unfold main. rewrite Hdigit, Hname.
    destruct (main_tail E (strip line) game_name st) as [[[]|e] st'];
      reflexivity. }
  split.
  - intros Hdec. rewrite Hdec in Hnorm. now split.
  - intros Hdec. rewrite Hdec in Hnorm. rewrite Hmain.
    unfold main_tail, download_and_process. rewrite Hnorm. reflexivity.
Qed.

End DigitLines.

Lemma main_digit_line_witness :
  fst (FrontEnd.main Samples.env_good FrontEnd.net_two_games
         FrontEnd.superscript_two "" Samples.start)
  = (FrontEnd.FRaise (FrontEnd.Other IndexError), Samples.start)
  /\ FrontEnd.isdigit FrontEnd.superscript_two = true.
Proof.
  split; [|reflexivity].
  apply (proj2 (@main_digit_line Samples.env_good FrontEnd.net_two_games
                  FrontEnd.superscript_two "" "Demo"
                  (snd (FrontEnd.get_game_name_by_appid
                          FrontEnd.net_two_games FrontEnd.superscript_two))
                  Samples.start eq_refl eq_refl)).
  reflexivity.
Defined.

(** ** Partial success and the key file, again *)

Lemma get_never_raises (E : env) (sha path repo : string) (st st' : state)
  (e : exn) :
  transport_only E -> get E sha path repo st <> (Raise e, st').
Proof.
  intros Htame H. unfold get in H. apply retry_loop_inv in H.
  destruct H as (_ & l & _ & _ & _ & Hout). cbn [loop_outcome] in Hout.
  destruct Hout as (j & pre & u & post & _ & _ & _ & _ & _ & Hans & He & _).
  apply Htame in Hans. congruence.
Qed.

Lemma get_manifest_manifest_ok (E : env) (sha path save_dir repo : string)
  (st : state) :
  transport_only E ->
  endswith path ".manifest" = true ->
  has_char "/" path = false ->
  mem save_dir (dirs (fs st)) = true ->
  exists st',
    get_manifest E sha path save_dir repo st = (Ok [], st') /\
    mem save_dir (dirs (fs st')) = true.
Proof.
  intros Htame Hext Hflat Hdir.
  assert (Hkeep : forall r st',
            get_manifest E sha path save_dir repo st = (r, st') ->
            mem save_dir (dirs (fs st')) = true).
  { intros r st' H. apply monotone_get_manifest in H.
    destruct H as (_ & Hdirs & _). apply mem_true_in, Hdirs.
    now apply mem_true_in. }
  assert (Hrun : exists st',
            get_manifest E sha path save_dir repo st = (Ok [], st')).
  { destruct (fs_exists (fs st) (os_path_join save_dir path)) eqn:Hex.
    - eexists. now apply get_manifest_present.
    - destruct (get E sha path repo st) as [[content|e] st1] eqn:Hget.
      + destruct content as [[|c body]|].
        * exists st1.
          apply (@get_manifest_recovers E sha path save_dir repo
                   (Some ""%string) st st1); [now left | exact Hget
                                             | reflexivity].
        * eexists.
          apply (@get_manifest_saved E sha path save_dir repo c body st st1);
            try assumption.
          now apply dir_exists_join.
        * exists st1.
          apply (@get_manifest_recovers E sha path save_dir repo None st st1);
            [now left | exact Hget | reflexivity].
      + exfalso.
        now apply (@get_never_raises E sha path repo st st1 e Htame). }
  destruct Hrun as (st' & Hrun). exists st'. split; [exact Hrun|].
  eapply Hkeep; eassumption.
Qed.

(** X20. A manifest that cannot be fetched does not stop the others: when
    the mirrors fail by status or transport error only, the destination
    directory is there and the manifests of the tree have names without a
    slash, the manifest phase goes through the whole tree and returns
    normally, with the records it was given, however many fetches fail. *)
Theorem manifest_phase_survives_failed_fetches (E : env)
  (sha save_dir repo : string) (tree : list string) (collected : list depot)
  (st : state) :
  transport_only E ->
  mem save_dir (dirs (fs st)) = true ->
  Forall (fun p => endswith p ".manifest" = true -> has_char "/" p = false)
         tree ->
  exists st',
    manifest_phase E sha save_dir repo tree collected st
    = (Ok collected, st').
Proof.
  intros Htame Hdir Hflat. revert collected st Hdir.
  induction Hflat as [|p tree Hp _ IH]; intros collected st Hdir;
    cbn [manifest_phase].
  - eexists. reflexivity.
  - destruct (endswith p ".manifest") eqn:Hext; [|now apply IH].
    destruct (@get_manifest_manifest_ok E sha p save_dir repo st Htame Hext
                (Hp eq_refl) Hdir)
      as (st1 & Hrun & Hdir1).
    unfold bind. rewrite Hrun, app_nil_r. now apply IH.
Qed.

Lemma manifest_phase_survives_failed_fetches_witness :
  exists st',
    manifest_phase Samples.env_nowhere "0a1b2c" "[10]Demo"
      "ikun0014/ManifestHub" ["10_111.manifest"; "10_222.manifest"] []
      Samples.empty_destination
    = (Ok [], st').
Proof.
  apply (@manifest_phase_survives_failed_fetches Samples.env_nowhere).
  - intros n u e H. discriminate.
  - reflexivity.
  - repeat constructor.
Defined.



Lemma collect_depots_inv (its : list (string * pyval))
  (collected recs : list depot) :
  collect_depots its collected = Ok recs <->
  exists added,
    recs = collected ++ added /\
    Forall2 (fun it rec => fst rec = fst it /\
                           getitem (snd it) "DecryptionKey" = Ok (snd rec))
            its added.
Proof.
  revert collected recs.
  induction its as [|[depot_id info] its IH]; intros collected recs;
    cbn [collect_depots].
  - split.
    + intros H. injection H as <-. exists []. rewrite app_nil_r.
      split; [reflexivity | constructor].
    + intros (added & -> & Hall). inversion Hall. now rewrite app_nil_r.
  - destruct (getitem info "DecryptionKey") as [key|e] eqn:Hkey.
    + rewrite IH. split.
      * intros (added & -> & Hall). exists ((depot_id, key) :: added).
        rewrite <- app_assoc. split; [reflexivity|].
        constructor; [now split | exact Hall].
      * intros (added & -> & Hall).
        inversion Hall as [|it rec its' added' [Hid Hk] Hrest]; subst.
        cbn [fst snd] in *. exists added'. destruct rec as [d k].
        cbn [fst snd] in *. subst d. rewrite Hkey in Hk. injection Hk as <-.
        rewrite <- app_assoc. now split.
    + split; [discriminate|].
      intros (added & _ & Hall).
      inversion Hall as [|it rec its' added' [Hid Hk] Hrest]; subst.
      cbn [snd] in Hk. congruence.
Qed.

(** X21. The key file is read all or nothing. Over a [depots] section, the
    records are returned exactly when every depot of the section is a
    section with a [DecryptionKey]; there is then one record per depot, in
    the order of the section, with the depot's ID and its key. One depot
    without a key makes the whole file fail and no record is kept. *)
Theorem depots_of_config_all_or_nothing
  (doc its : list (string * pyval)) :
  dict_get doc "depots" = Some (PDict its) ->
  (forall recs,
     depots_of_config doc = Ok recs <->
     Forall2 (fun it rec => fst rec = fst it /\
                            getitem (snd it) "DecryptionKey" = Ok (snd rec))
             its recs) /\
  (forall recs,
     depots_of_config doc = Ok recs ->
     map fst recs = map fst its) /\
  (forall depot_id info e,
     In (depot_id, info) its ->
     getitem info "DecryptionKey" = Raise e ->
     exists e', depots_of_config doc = Raise e').
Proof.
  intros Hdepots.
  assert (Hiff : forall recs,
     depots_of_config doc = Ok recs <->
     Forall2 (fun it rec => fst rec = fst it /\
                            getitem (snd it) "DecryptionKey" = Ok (snd rec))
             its recs).
  { intros recs. unfold depots_of_config. cbn [getitem].
    rewrite Hdepots. cbn [items]. rewrite collect_depots_inv. split.
    - intros (added & -> & H). exact H.
    - intros H. now exists recs. }
  split; [exact Hiff|]. split.
  - intros recs H. apply Hiff in H. clear Hiff Hdepots.
    induction H as [|it rec its' recs' [Hid _] _ IH]; simpl;
      [reflexivity | now rewrite Hid, IH].
  - intros depot_id info e Hin Hkey.
    destruct (depots_of_config doc) as [recs|e'] eqn:Hrun;
      [|now exists e'].
    exfalso. pose proof (proj1 (Hiff recs) eq_refl) as Hall.
    clear Hiff Hdepots Hrun.
    induction Hall as [|it rec its' recs' [_ Hk] _ IH]; [contradiction|].
    destruct Hin as [->|Hin]; [|now apply IH].
    cbn [snd] in Hk. congruence.
Qed.

Lemma depots_of_config_all_or_nothing_witness :
  map fst [("10", PStr "AA"); ("20", PStr "BB")]
  = map fst [("10", PDict [("DecryptionKey", PStr "AA")]);
             ("20", PDict [("DecryptionKey", PStr "BB")])]
  /\ exists e',
       depots_of_config
         [("depots", PDict [("10", PDict [("DecryptionKey", PStr "AA")]);
                            ("20", PDict [])])]
       = Raise e'.
Proof.
  split.
  - apply (proj1 (proj2 (@depots_of_config_all_or_nothing Samples.key_doc
             [("10", PDict [("DecryptionKey", PStr "AA")]);
              ("20", PDict [("DecryptionKey", PStr "BB")])] eq_refl))).
    reflexivity.
  - apply (proj2 (proj2 (@depots_of_config_all_or_nothing
             [("depots", PDict [("10", PDict [("DecryptionKey", PStr "AA")]);
                                ("20", PDict [])])]
             [("10", PDict [("DecryptionKey", PStr "AA")]);
              ("20", PDict [])] eq_refl))
           "20" (PDict []) (KeyError "DecryptionKey")).
    + right. now left.
    + reflexivity.
Defined.

(** * The search as a whole *)

(** ** The steps of a search *)

Section SearchSteps.

Variable E : env.

(** The key files that give nothing are passed over. *)
Lemma key_phase_app (sha save_dir repo : string) (pre rest : list string)
  (st0 st : state) :
  key_phase E sha save_dir repo pre [] st0 = (Ok [], st) ->
  key_phase E sha save_dir repo (pre ++ rest) [] st0
  = key_phase E sha save_dir repo rest [] st.
Proof.
  revert st0. induction pre as [|p pre IH]; intros st0 H.
  - cbn in H. now injection H as <-.
  - cbn [key_phase app] in *. destruct (mem p vdf_paths); [|now apply IH].
    apply bind_inv in H.
    destruct H as [(v & st1 & Hstep & H)|(e & _ & H)]; [|discriminate].
    unfold bind at 1. rewrite Hstep.
    destruct v as [|x v]; cbn [nonempty] in *; [now apply IH|].
    discriminate.
Qed.

(** The sources that give nothing are passed over. *)
Lemma search_repos_skip (app_id save_dir : string) (done rest : list string)
  (st st' : state) :
  skip_sources E app_id save_dir done st = Some st' ->
  search_repos E app_id save_dir (done ++ rest) st
  = search_repos E app_id save_dir rest st'.
Proof.
  revert st. induction done as [|repo done IH]; intros st H.
  - cbn in H. now injection H as <-.
  - cbn [skip_sources] in H. cbn [search_repos app]. unfold bind at 1.
    destruct (try_repo E app_id save_dir repo st) as [[[c|]|e] st1];
      try discriminate.
    unfold bind at 1. exact (IH _ H).
Qed.

Lemma skip_sources_requested (app_id save_dir : string) (rs : list string)
  (st st' : state) :
  skip_sources E app_id save_dir rs st = Some st' ->
  exists l,
    trace st' = trace st ++ l /\
    forall r, In r rs -> In (EvGet (branch_url r app_id)) l.
Proof.
  revert st. induction rs as [|repo rs IH]; intros st H.
  - cbn in H. injection H as <-. exists []. split; [now rewrite app_nil_r|].
    intros r [].
  - cbn [skip_sources] in H.
    destruct (try_repo E app_id save_dir repo st) as [[[c|]|e] st1] eqn:Ht;
      try discriminate.
    apply IH in H. destruct H as (l2 & Htr & Hall).
    apply try_repo_trace in Ht. destruct Ht as [l1 Hl1].
    exists (EvLog INFO (SearchRepo repo) :: EvGet (branch_url repo app_id)
            :: l1 ++ EvLog WARNING (NotInRepo repo) :: l2).
    split.
    + rewrite Htr. cbn [logged trace]. rewrite Hl1.
      rewrite <- !app_assoc. cbn [app]. rewrite <- ?app_assoc. reflexivity.
    + intros r [<-|Hr]; [right; now left|].
      right. right. apply in_or_app. right. right. now apply Hall.
Qed.

(** A source that has the branch and a tree is searched by processing the
    tree. *)
Lemma try_repo_tree (app_id save_dir repo sha tree_url date : string)
  (tree : list string) (st : state) :
  api_branch E (clock st) (branch_url repo app_id)
  = Branch sha tree_url date ->
  api_tree E (S (clock st)) tree_url = Tree tree ->
  try_repo E app_id save_dir repo st
  = (collected_depots <- process_tree E sha save_dir repo tree ;;
     if nonempty collected_depots then
       log INFO (LastUpdate date) ;;;
       log INFO (Stored app_id repo) ;;;
       ret (Some collected_depots)
     else ret None) (tree_received repo app_id tree_url st).
Proof.
  intros Hb Ht. unfold try_repo, log, emit.
  unfold bind at 1. cbv beta iota.
  unfold bind at 1. unfold request at 1. cbv beta iota. cbn [clock].
  rewrite Hb. cbv beta iota.
  unfold bind at 1. unfold request at 1. cbv beta iota. cbn [clock].
  rewrite Ht. reflexivity.
Qed.

(** An exception of a source ends the search. *)
Lemma search_repos_raise (app_id save_dir repo : string) (rest : list string)
  (e : exn) (st st1 : state) :
  try_repo E app_id save_dir repo st = (Raise e, st1) ->
  search_repos E app_id save_dir (repo :: rest) st = (Raise e, st1).
Proof. intros H. cbn [search_repos]. unfold bind. now rewrite H. Qed.

(** The run is the search, once the identifier is normalized and the
    directory made. *)
Lemma download_and_process_search (tok name id : string) (st st_dir : state) :
  normalize tok = Ok id ->
  os_makedirs (save_dir_of id name) st = (Ok tt, st_dir) ->
  download_and_process E tok name st
  = search_repos E id (save_dir_of id name) repos st_dir.
Proof.
  intros Hn Hmk. unfold download_and_process. rewrite Hn. cbn [lift].
  unfold bind at 1. unfold ret at 1. cbv beta iota zeta.
  unfold bind at 1. now rewrite Hmk.
Qed.

End SearchSteps.

(** ** A key file that does not parse *)

(** C1, as the code has it. When a key file is fetched and its parse fails,
    [get_manifest] logs the failure and raises it again. The exception
    leaves the key phase, whatever entries of the tree came before the key
    file and gave no record, and the processing of the tree, so the
    manifest phase is not run; it leaves the search of the source, whatever
    sources were searched before and gave nothing, the search over the
    sources, [download_and_process] and [main]: nothing is requested,
    written or logged after the failure. A malformed document and a
    document without [depots] are both such failures. *)
Theorem key_file_parse_failure_raises (E : env)
  (sha save_dir repo p content : string) (e : exn) (st st1 : state) :
  mem p vdf_paths = true ->
  get E sha p repo st = (Ok (Some content), st1) ->
  content <> ""%string ->
  parse_key_file E content = Raise e ->
  exists st2,
    trace st2
    = trace st1 ++ EvLog INFO (KeySaved p)
                   :: (if is_Exception e
                       then [EvLog ERROR (ProcessFailed p e)] else []) /\
    fs st2 = fs st1 /\ clock st2 = clock st1 /\
    get_manifest E sha p save_dir repo st = (Raise e, st2) /\
    (forall pre post st0,
       key_phase E sha save_dir repo pre [] st0 = (Ok [], st) ->
       key_phase E sha save_dir repo (pre ++ p :: post) [] st0
       = (Raise e, st2) /\
       process_tree E sha save_dir repo (pre ++ p :: post) st0
       = (Raise e, st2)) /\
    (forall app_id tree_url date pre post st_repo,
       api_branch E (clock st_repo) (branch_url repo app_id)
       = Branch sha tree_url date ->
       api_tree E (S (clock st_repo)) tree_url = Tree (pre ++ p :: post) ->
       key_phase E sha save_dir repo pre []
                 (tree_received repo app_id tree_url st_repo)
       = (Ok [], st) ->
       try_repo E app_id save_dir repo st_repo = (Raise e, st2) /\
       forall done rest st_dir,
         skip_sources E app_id save_dir done st_dir = Some st_repo ->
         search_repos E app_id save_dir (done ++ repo :: rest) st_dir
         = (Raise e, st2) /\
         forall tok name st_start,
           normalize tok = Ok app_id ->
           save_dir = save_dir_of app_id name ->
           os_makedirs save_dir st_start = (Ok tt, st_dir) ->
           repos = done ++ repo :: rest ->
           download_and_process E tok name st_start = (Raise e, st2) /\
           main_tail E tok name st_start = (Raise e, st2)) /\
    (forall e', vdf_loads E content = inl e' -> e = e') /\
    (forall doc, vdf_loads E content = inr doc ->
                 dict_get doc "depots" = None -> e = KeyError "depots").
Proof.
  intros Hp Hget Hne Hparse.
  assert (Hrun : exists st2,
    trace st2
    = trace st1 ++ EvLog INFO (KeySaved p)
                   :: (if is_Exception e
                       then [EvLog ERROR (ProcessFailed p e)] else []) /\
    fs st2 = fs st1 /\ clock st2 = clock st1 /\
    get_manifest E sha p save_dir repo st = (Raise e, st2)).
  { unfold get_manifest, try_except, get_manifest_body.
    rewrite (vdf_path_not_manifest p Hp), Hp.
    unfold bind at 1. rewrite Hget.
    destruct content as [|c content]; [now elim Hne|].
    cbn [truthy]. unfold bind, log, emit. cbn [fst snd].
    rewrite Hparse. cbn [lift]. unfold raise.
    destruct (is_Exception e).
    - exists {| clock := clock st1; fs := fs st1;
                trace := (trace st1 ++ [EvLog INFO (KeySaved p)])
                         ++ [EvLog ERROR (ProcessFailed p e)] |}.
      simpl. rewrite <- app_assoc. repeat split.
    - exists {| clock := clock st1; fs := fs st1;
                trace := trace st1 ++ [EvLog INFO (KeySaved p)] |}.
      simpl. repeat split. }
  destruct Hrun as (st2 & Htr & Hfs & Hck & Hrun).
  exists st2. repeat (split; [assumption|]).
  assert (Htree : forall pre post st0,
            key_phase E sha save_dir repo pre [] st0 = (Ok [], st) ->
            key_phase E sha save_dir repo (pre ++ p :: post) [] st0
            = (Raise e, st2) /\
            process_tree E sha save_dir repo (pre ++ p :: post) st0
            = (Raise e, st2)).
  { intros pre post st0 Hpre.
    assert (Hkey : key_phase E sha save_dir repo (pre ++ p :: post) [] st0
                   = (Raise e, st2)).
    { rewrite (@key_phase_app E sha save_dir repo pre (p :: post) st0 st Hpre).
      cbn [key_phase]. rewrite Hp. unfold bind. now rewrite Hrun. }
    split; [exact Hkey|]. unfold process_tree, bind. now rewrite Hkey. }
  split; [exact Htree|]. split; [|split].
  - intros app_id tree_url date pre post st_repo Hb Ht Hpre.
    assert (Hrepo : try_repo E app_id save_dir repo st_repo = (Raise e, st2)).
    { rewrite (@try_repo_tree E app_id save_dir repo sha tree_url date
               (pre ++ p :: post) st_repo Hb Ht).
      unfold bind at 1. now rewrite (proj2 (Htree pre post _ Hpre)). }
    split; [exact Hrepo|]. intros done rest st_dir Hdone.
    assert (Hsearch : search_repos E app_id save_dir (done ++ repo :: rest)
                        st_dir = (Raise e, st2)).
    { rewrite (@search_repos_skip E app_id save_dir done (repo :: rest)
               st_dir st_repo Hdone).
      now apply search_repos_raise. }
    split; [exact Hsearch|]. intros tok name st_start Hn -> Hmk Hrepos.
    assert (Hdl : download_and_process E tok name st_start = (Raise e, st2)).
    { rewrite (@download_and_process_search E tok name app_id st_start
               st_dir Hn Hmk), Hrepos.
      exact Hsearch. }
    split; [exact Hdl|]. unfold main_tail, bind. now rewrite Hdl.
  - intros e' Hload. unfold parse_key_file in Hparse. rewrite Hload in Hparse.
    congruence.
  - intros doc Hload Hnone. unfold parse_key_file in Hparse.
    rewrite Hload in Hparse. unfold depots_of_config in Hparse. simpl in Hparse.
    rewrite Hnone in Hparse. congruence.
Qed.

Lemma key_file_parse_failure_raises_witness :
  exists st2,
    download_and_process Samples.env_second_source "10" "Demo" Samples.start
    = (Raise (KeyError "depots"), st2) /\
    main_tail Samples.env_second_source "10" "Demo" Samples.start
    = (Raise (KeyError "depots"), st2).
Proof.
  set (E := Samples.env_second_source).
  set (repo := "ikun0014/ManifestHub"%string).
  set (tree_url := "https://api.github.com/tree/0a1b2c"%string).
  set (st_dir := snd (os_makedirs "[10]Demo" Samples.start)).
  set (st_repo := match skip_sources E "10" "[10]Demo"
                          ["SteamAutoCracks/ManifestHub"] st_dir with
                  | Some s => s
                  | None => Samples.start
                  end).
  set (st := snd (key_phase E "0a1b2c" "[10]Demo" repo
                    ["README.md"; "key.vdf"] []
                    (tree_received repo "10" tree_url st_repo))).
  set (st1 := snd (get E "0a1b2c" "Key.vdf" repo st)).
  destruct (@key_file_parse_failure_raises E "0a1b2c" "[10]Demo" repo
              "Key.vdf" (Samples.vdf_dumps Samples.no_depots_doc)
              (KeyError "depots") st st1)
    as (st2 & _ & _ & _ & _ & _ & Hsource & _).
  - reflexivity.
  - vm_compute. reflexivity.
  - discriminate.
  - reflexivity.
  - destruct (Hsource "10"%string tree_url "2024-05-01T00:00:00Z"%string
                      ["README.md"; "key.vdf"] ["10_111.manifest"] st_repo)
      as [_ Hsearch].
    + vm_compute. reflexivity.
    + reflexivity.
    + vm_compute. reflexivity.
    + destruct (Hsearch ["SteamAutoCracks/ManifestHub"]
                        ["Auiowu/ManifestAutoUpdate";
                         "tymolu233/ManifestAutoUpdate-fix"] st_dir)
        as [_ Hrun].
      * vm_compute. reflexivity.
      * exists st2. apply (Hrun "10"%string "Demo"%string Samples.start);
          reflexivity.
Defined.

(** The claim as worded fails on a key file without a [depots] section:
    the per-file step does not return an empty record list, it raises; the
    exception leaves [download_and_process]; the run has requested the
    branch, the tree and the key file, and never the manifest of the
    tree, and has written nothing. *)
Lemma key_file_parse_failure_counterexample :
  parse_key_file Samples.env_bad_key (Samples.vdf_dumps Samples.no_depots_doc)
  = Raise (KeyError "depots") /\
  fst (get_manifest Samples.env_bad_key "0a1b2c" "Key.vdf" "[10]Demo"
         "SteamAutoCracks/ManifestHub" Samples.start)
  = Raise (KeyError "depots") /\
  fst (download_and_process Samples.env_bad_key "10" "Demo" Samples.start)
  = Raise (KeyError "depots") /\
  requests_of
    (trace (snd (download_and_process Samples.env_bad_key "10" "Demo"
                   Samples.start)))
  = [ "https://api.github.com/repos/SteamAutoCracks/ManifestHub/branches/10";
      "https://api.github.com/tree/0a1b2c";
      "https://jsdelivr.pai233.top/gh/SteamAutoCracks/ManifestHub@0a1b2c/Key.vdf" ] /\
  files (fs (snd (download_and_process Samples.env_bad_key "10" "Demo"
                    Samples.start))) = [].
Proof. repeat split; vm_compute; reflexivity. Qed.

(** ** Sources that give nothing *)

Section Nothing.

Variable E : env.

(** What [get] returns with a body, a mirror served. *)
Lemma get_served (sha path repo body : string) (st st1 : state) :
  get E sha path repo st = (Ok (Some body), st1) ->
  exists n u,
    In u (url_list sha path repo) /\ clock st <= n /\
    cdn E n u = Resp 200 body.
Proof.
  unfold get. intros H. apply retry_loop_inv in H.
  destruct H as (_ & l & _ & _ & _ & Hout). cbn [loop_outcome] in Hout.
  destruct Hout as (j & pre & u & post & _ & Hu & _ & _ & _ & Hans & _).
  exists (clock st + List.length (schedule (url_list sha path repo) j ++ pre)),
         u.
  split; [rewrite Hu; apply in_or_app; right; now left|].
  split; [lia | exact Hans].
Qed.

(** The step on a key file that is served and parses. *)
Lemma get_manifest_key_parsed (sha path save_dir repo : string) (c : ascii)
  (body : string) (v : list depot) (st st1 : state) :
  mem path vdf_paths = true ->
  get E sha path repo st = (Ok (Some (String c body)), st1) ->
  parse_key_file E (String c body) = Ok v ->
  get_manifest E sha path save_dir repo st
  = (Ok v, logged INFO (KeySaved path) st1).
Proof.
  intros Hkey Hget Hparse.
  unfold get_manifest, try_except, get_manifest_body.
  rewrite (vdf_path_not_manifest path Hkey), Hkey.
  unfold bind at 1. rewrite Hget. cbn [truthy].
  unfold bind, log, emit. rewrite Hparse. reflexivity.
Qed.

Hypothesis Hnet : transport_only E.

Lemma key_step_nothing (sha path save_dir repo : string) (st : state) :
  mem path vdf_paths = true ->
  gives_no_record E sha path repo ->
  exists st',
    get_manifest E sha path save_dir repo st = (Ok [], st') /\
    fs st' = fs st.
Proof.
  intros Hkey Hnone.
  destruct (get E sha path repo st) as [[content|e] st1] eqn:Hget.
  2:{ exfalso. now apply (@get_never_raises E sha path repo st st1 e Hnet). }
  pose proof (@get_keeps_fs E sha path repo st st1 _ Hget) as Hfs.
  destruct content as [[|c body]|].
  - exists st1. split; [|exact Hfs].
    apply (@get_manifest_recovers E sha path save_dir repo (Some ""%string)
             st st1); [now right | exact Hget | reflexivity].
  - destruct (@get_served sha path repo (String c body) st st1 Hget)
      as (n & u & Hu & _ & Hans).
    destruct (Hnone n u (String c body) Hu Hans) as [Hempty|Hparse];
      [discriminate|].
    exists (logged INFO (KeySaved path) st1). split; [|exact Hfs].
    now apply (@get_manifest_key_parsed sha path save_dir repo c body []
                 st st1).
  - exists st1. split; [|exact Hfs].
    apply (@get_manifest_recovers E sha path save_dir repo None st st1);
      [now right | exact Hget | reflexivity].
Qed.

Lemma key_phase_nothing (sha save_dir repo : string) (tree : list string)
  (st : state) :
  (forall p, In p tree -> mem p vdf_paths = true ->
             gives_no_record E sha p repo) ->
  exists st',
    key_phase E sha save_dir repo tree [] st = (Ok [], st') /\
    fs st' = fs st.
Proof.
  revert st. induction tree as [|p tree IH]; intros st Hnone;
    cbn [key_phase].
  - exists st. now split.
  - assert (Hrest0 : forall q, In q tree -> mem q vdf_paths = true ->
                               gives_no_record E sha q repo).
    { intros q Hq. apply Hnone. now right. }
    destruct (mem p vdf_paths) eqn:Hkey; [|now apply IH].
    destruct (@key_step_nothing sha p save_dir repo st Hkey
                (Hnone p (or_introl eq_refl) Hkey))
      as (st1 & Hstep & Hfs1).
    destruct (IH st1 Hrest0) as (st2 & Hrest & Hfs2).
    exists st2. split; [|congruence].
    unfold bind. rewrite Hstep. cbn [nonempty]. exact Hrest.
Qed.

(** The manifest phase over names without a slash, with the destination
    directory in place. *)
Lemma manifest_phase_returns (sha save_dir repo : string)
  (tree : list string) (collected : list depot) (st : state) :
  mem save_dir (dirs (fs st)) = true ->
  Forall (fun p => endswith p ".manifest" = true -> has_char "/" p = false)
         tree ->
  exists st',
    manifest_phase E sha save_dir repo tree collected st
    = (Ok collected, st') /\
    mem save_dir (dirs (fs st')) = true.
Proof.
  intros Hdir Hflat. revert collected st Hdir.
  induction Hflat as [|p tree Hp _ IH]; intros collected st Hdir;
    cbn [manifest_phase].
  - exists st. now split.
  - destruct (endswith p ".manifest") eqn:Hext; [|now apply IH].
    destruct (@get_manifest_manifest_ok E sha p save_dir repo st Hnet Hext
                (Hp eq_refl) Hdir)
      as (st1 & Hrun & Hdir1).
    unfold bind. rewrite Hrun, app_nil_r. now apply IH.
Qed.

Lemma process_tree_nothing (sha save_dir repo : string) (tree : list string)
  (st : state) :
  mem save_dir (dirs (fs st)) = true ->
  (forall p, In p tree -> mem p vdf_paths = true ->
             gives_no_record E sha p repo) ->
  (forall p, In p tree -> endswith p ".manifest" = true ->
             has_char "/" p = false) ->
  exists st',
    process_tree E sha save_dir repo tree st = (Ok [], st') /\
    mem save_dir (dirs (fs st')) = true.
Proof.
  intros Hdir Hnone Hflat. unfold process_tree.
  destruct (@key_phase_nothing sha save_dir repo tree st Hnone)
    as (st1 & Hkey & Hfs1).
  unfold bind. rewrite Hkey.
  apply manifest_phase_returns; [now rewrite Hfs1|].
  apply Forall_forall. exact Hflat.
Qed.

Hypothesis Hkeys : keys_give_nothing E.
Hypothesis Hapi : api_answers E.
Hypothesis Hflat : flat_trees E.

Lemma try_repo_nothing (app_id save_dir repo : string) (st : state) :
  mem save_dir (dirs (fs st)) = true ->
  exists st1,
    try_repo E app_id save_dir repo st = (Ok None, st1) /\
    mem save_dir (dirs (fs st1)) = true.
Proof.
  intros Hdir. pose proof Hapi as [Hbranch Htree].
  destruct (api_branch E (clock st) (branch_url repo app_id))
    as [sha tree_url date| |e] eqn:Hb.
  - destruct (api_tree E (S (clock st)) tree_url) as [tree| |e] eqn:Ht.
    + rewrite (@try_repo_tree E app_id save_dir repo sha tree_url date tree
                 st Hb Ht).
      pose proof Hflat as Hnames.
      specialize (Hnames (S (clock st)) tree_url tree).
      pose proof Hkeys as Hnone.
      specialize (Hnone (S (clock st)) tree_url tree sha).
      destruct (@process_tree_nothing sha save_dir repo tree
                  (tree_received repo app_id tree_url st) Hdir
                  (fun p Hin Hkey => Hnone p repo Ht Hin Hkey)
                  (fun p Hin Hext => Hnames p Ht Hin Hext))
        as (st1 & Hrun & Hdir1).
      exists st1. split; [|exact Hdir1].
      unfold bind. now rewrite Hrun.
    + eexists. split.
      * unfold try_repo, log, emit.
        unfold bind at 1. cbv beta iota.
        unfold bind at 1. unfold request at 1. cbv beta iota. cbn [clock].
        rewrite Hb. cbv beta iota.
        unfold bind at 1. unfold request at 1. cbv beta iota. cbn [clock].
        rewrite Ht. reflexivity.
      * exact Hdir.
    + now elim (Htree (S (clock st)) tree_url e).
  - eexists. split.
    + unfold try_repo, log, emit.
      unfold bind at 1. cbv beta iota.
      unfold bind at 1. unfold request at 1. cbv beta iota. cbn [clock].
      rewrite Hb. reflexivity.
    + exact Hdir.
  - now elim (Hbranch (clock st) (branch_url repo app_id) e).
Qed.

Lemma skip_sources_all (app_id save_dir : string) (rs : list string)
  (st : state) :
  mem save_dir (dirs (fs st)) = true ->
  exists st', skip_sources E app_id save_dir rs st = Some st'.
Proof.
  revert st. induction rs as [|repo rs IH]; intros st Hdir;
    cbn [skip_sources].
  - now exists st.
  - destruct (@try_repo_nothing app_id save_dir repo st Hdir)
      as (st1 & Hrun & Hdir1).
    rewrite Hrun. apply IH. exact Hdir1.
Qed.

End Nothing.




(** ** Running the manifest phase again *)

Section Rerun.

Variable E : env.

Lemma manifest_phase_present (sha save_dir repo : string)
  (tree : list string) (collected : list depot) (st : state) :
  Forall (fun p => endswith p ".manifest" = true ->
                   fs_exists (fs st) (os_path_join save_dir p) = true) tree ->
  manifest_phase E sha save_dir repo tree collected st
  = (Ok collected,
     {| clock := clock st; fs := fs st;
        trace := trace st
                 ++ map (fun p => EvLog WARNING (ManifestExists p))
                        (filter (fun p => endswith p ".manifest") tree) |}).
Proof.
  intros Hall. revert st Hall.
  induction tree as [|p tree IH]; intros st Hall; cbn [manifest_phase filter].
  - cbn [map]. rewrite app_nil_r. destruct st; reflexivity.
  - inversion Hall as [|? ? Hp Htree]; subst.
    destruct (endswith p ".manifest") eqn:Hext.
    + unfold bind.
      rewrite (@get_manifest_present E sha p save_dir repo st Hext
                 (Hp eq_refl)).
      rewrite app_nil_r, IH by exact Htree.
      cbn [clock fs trace map]. rewrite <- app_assoc. reflexivity.
    + apply IH. exact Htree.
Qed.

(** The script depends on the file system only. *)
Lemma depot_lines_fs (records : list depot) (save_dir : string)
  (lua_lines : list string) (st st' : state) :
  fs st = fs st' ->
  fst (depot_lines E records save_dir lua_lines st)
  = fst (depot_lines E records save_dir lua_lines st').
Proof.
  intros Hfs. revert lua_lines.
  induction records as [|[depot_id key] records IH]; intros lua_lines;
    cbn [depot_lines]; [reflexivity|].
  unfold bind, os_listdir. rewrite <- Hfs.
  destruct (mem save_dir (dirs (fs st))); [apply IH | reflexivity].
Qed.

Lemma parse_vdf_to_lua_fs (records : list depot) (appid save_dir : string)
  (st st' : state) :
  fs st = fs st' ->
  fst (parse_vdf_to_lua E records appid save_dir st)
  = fst (parse_vdf_to_lua E records appid save_dir st').
Proof.
  intros Hfs. unfold parse_vdf_to_lua, bind.
  pose proof (@depot_lines_fs records save_dir [addappid_line appid] st st'
                Hfs) as H.
  destruct (depot_lines E records save_dir [addappid_line appid] st)
    as [[l|e] s1];
    destruct (depot_lines E records save_dir [addappid_line appid] st')
      as [[l'|e'] s2]; simpl in *; congruence.
Qed.


(** What [get] raises, a mirror raised, and it is no transport error. *)
Lemma get_raised (sha path repo : string) (e : exn) (st st1 : state) :
  get E sha path repo st = (Raise e, st1) ->
  exists n u,
    In u (url_list sha path repo) /\ clock st <= n /\
    cdn E n u = NetRaise e /\ is_ClientError e = false.
Proof.
  unfold get. intros H. apply retry_loop_inv in H.
  destruct H as (_ & l & _ & _ & _ & Hout). cbn [loop_outcome] in Hout.
  destruct Hout as (j & pre & u & post & _ & Hu & _ & _ & _ & Hans & He & _).
  exists (clock st + List.length (schedule (url_list sha path repo) j ++ pre)),
         u.
  split; [rewrite Hu; apply in_or_app; right; now left|].
  split; [lia | now split].
Qed.

(** What [get] does to the state: requests and log lines only. *)
Lemma get_state (sha path repo : string) (st st1 : state)
  (r : result (option string)) :
  get E sha path repo st = (r, st1) ->
  fs st1 = fs st /\ clock st <= clock st1 /\
  exists l, trace st1 = trace st ++ l /\ writes_of l = [].
Proof.
  unfold get. intros H. apply retry_loop_inv in H.
  destruct H as (Hfs & l & Htr & Hck & Hwr & _).
  split; [exact Hfs|]. split; [lia|]. now exists l.
Qed.

(** A file whose mirrors give no body is not obtained. *)
Lemma get_not_obtained (sha path repo : string) (t : nat) (st : state) :
  not_obtained E t (url_list sha path repo) ->
  t <= clock st ->
  exists c st1,
    get E sha path repo st = (Ok c, st1) /\ truthy c = false.
Proof.
  intros Hnot Ht.
  destruct (get E sha path repo st) as [[[body|]|e] st1] eqn:Hget.
  - destruct (@get_served E sha path repo body st st1 Hget)
      as (n & u & Hu & Hn & Hans).
    destruct (Hnot n u ltac:(lia) Hu) as [Hfail|Hempty].
    + rewrite Hans in Hfail. discriminate.
    + rewrite Hans in Hempty. injection Hempty as ->.
      exists (Some ""%string), st1. now split.
  - exists None, st1. now split.
  - destruct (@get_raised sha path repo e st st1 Hget) as (n & u & Hu & Hn & Hans & He).
    destruct (Hnot n u ltac:(lia) Hu) as [Hfail|Hempty].
    + rewrite Hans in Hfail. cbn in Hfail. congruence.
    + rewrite Hans in Hempty. discriminate.
Qed.

(** The phase over a tree of which every manifest is at the destination or
    is not obtained: nothing is written. *)
Lemma manifest_phase_nothing_new (sha save_dir repo : string) (f0 : filesys)
  (t0 : nat) (tree : list string) :
  (forall p, In p tree -> endswith p ".manifest" = true ->
     fs_exists f0 (os_path_join save_dir p) = true \/
     forall st, fs st = f0 -> t0 <= clock st ->
       exists c st1,
         get E sha p repo st = (Ok c, st1) /\ truthy c = false) ->
  forall collected st,
    fs st = f0 -> t0 <= clock st ->
    exists st' l,
      manifest_phase E sha save_dir repo tree collected st
      = (Ok collected, st') /\
      trace st' = trace st ++ l /\ writes_of l = [] /\
      fs st' = f0 /\ clock st <= clock st'.
Proof.
  induction tree as [|p tree IH]; intros Hall collected st Hfs Ht;
    cbn [manifest_phase].
  - exists st, []. rewrite app_nil_r. repeat split; auto.
  - assert (Hrest : forall q, In q tree -> endswith q ".manifest" = true ->
              fs_exists f0 (os_path_join save_dir q) = true \/
              forall st, fs st = f0 -> t0 <= clock st ->
                exists c st1,
                  get E sha q repo st = (Ok c, st1) /\ truthy c = false).
    { intros q Hq. apply Hall. now right. }
    destruct (endswith p ".manifest") eqn:Hext; [|now apply IH].
    assert (Hstep : exists st1 l1,
              get_manifest E sha p save_dir repo st = (Ok [], st1) /\
              trace st1 = trace st ++ l1 /\ writes_of l1 = [] /\
              fs st1 = f0 /\ clock st <= clock st1).
    { destruct (fs_exists (fs st) (os_path_join save_dir p)) eqn:Hex.
      - eexists. exists [EvLog WARNING (ManifestExists p)].
        split; [now apply get_manifest_present|].
        cbn [trace fs clock]. repeat split; auto.
      - destruct (Hall p (or_introl eq_refl) Hext) as [Hpres|Hget];
          [rewrite Hfs in Hex; congruence|].
        destruct (Hget st Hfs Ht) as (c & st1 & Hg & Hfalse).
        destruct (@get_state sha p repo st st1 (Ok c) Hg) as (Hfs1 & Hck1 & l1 & Htr1 & Hwr1).
        exists st1, l1. split.
        + apply (@get_manifest_recovers E sha p save_dir repo c st st1);
            [now left | exact Hg | exact Hfalse].
        + repeat split; auto. congruence. }
    destruct Hstep as (st1 & l1 & Hrun & Htr1 & Hwr1 & Hfs1 & Hck1).
    destruct (IH Hrest collected st1 Hfs1 (Nat.le_trans _ _ _ Ht Hck1))
      as (st2 & l2 & Hrun2 & Htr2 & Hwr2 & Hfs2 & Hck2).
    exists st2, (l1 ++ l2). unfold bind. rewrite Hrun, app_nil_r.
    split; [exact Hrun2|]. split; [now rewrite Htr2, Htr1, app_assoc|].
    split; [|split; [exact Hfs2 | lia]].
    unfold writes_of in *. now rewrite flat_map_app, Hwr1, Hwr2.
Qed.

(** On mirrors whose answers do not depend on time, what a fetch returns
    does not depend on the state it starts from. *)
Lemma try_mirrors_time_independent (path : string) (urls : list string)
  (st st' : state) :
  time_independent E ->
  fst (try_mirrors E path urls st) = fst (try_mirrors E path urls st').
Proof.
  intros Hti. revert st st'.
  induction urls as [|u urls IH]; intros st st'; cbn [try_mirrors];
    [reflexivity|].
  unfold bind, request, log, emit, ret, raise.
  rewrite (Hti (clock st) (clock st') u).
  destruct (cdn E (clock st') u) as [status body|e].
  - destruct (Nat.eqb status 200); [reflexivity | apply IH].
  - destruct (is_ClientError e); [apply IH | reflexivity].
Qed.

Lemma retry_loop_time_independent (path : string) (urls : list string)
  (retry : nat) (st st' : state) :
  time_independent E ->
  fst (retry_loop E path urls retry st)
  = fst (retry_loop E path urls retry st').
Proof.
  intros Hti. revert st st'.
  induction retry as [|retry IH]; intros st st'; cbn [retry_loop];
    [reflexivity|].
  unfold bind, log, emit, ret.
  pose proof (@try_mirrors_time_independent path urls st st' Hti) as Hpass.
  destruct (try_mirrors E path urls st) as [[[body|]|e] s1];
    destruct (try_mirrors E path urls st') as [[[body'|]|e'] s2];
    cbn [fst] in Hpass; try discriminate.
  - cbn [fst]. congruence.
  - apply IH.
  - cbn [fst]. congruence.
Qed.

Lemma get_time_independent (sha path repo : string) (st st' : state) :
  time_independent E ->
  fst (get E sha path repo st) = fst (get E sha path repo st').
Proof. apply retry_loop_time_independent. Qed.

(** What a run of the phase that ends normally leaves: every manifest of
    the tree is at the destination, or its fetch gave nothing. *)
Lemma manifest_phase_leaves (sha save_dir repo : string)
  (tree : list string) (c0 c1 : list depot) (st0 st1 : state) :
  manifest_phase E sha save_dir repo tree c0 st0 = (Ok c1, st1) ->
  forall p, In p tree -> endswith p ".manifest" = true ->
    fs_exists (fs st1) (os_path_join save_dir p) = true \/
    exists c st st',
      get E sha p repo st = (Ok c, st') /\ truthy c = false.
Proof.
  revert c0 st0. induction tree as [|q tree IH]; intros c0 st0 H p Hin Hext;
    [destruct Hin|].
  cbn [manifest_phase] in H.
  destruct (endswith q ".manifest") eqn:Hq.
  2:{ destruct Hin as [->|Hin]; [congruence|]. eapply IH; eassumption. }
  apply bind_inv in H.
  destruct H as [(res & st_a & Hstep & H)|(e & _ & H)]; [|discriminate].
  destruct Hin as [->|Hin]; [|eapply IH; eassumption].
  assert (Hgrow : fs_exists (fs st_a) (os_path_join save_dir p) = true ->
                  fs_exists (fs st1) (os_path_join save_dir p) = true).
  { destruct (@af_manifest_phase E sha save_dir repo tree _ _ _ _ H)
      as (Hdirs & added & Hfiles & _).
    now apply fs_exists_grows with (added := added). }
  destruct (fs_exists (fs st0) (os_path_join save_dir p)) eqn:Hex.
  { left. apply Hgrow.
    destruct (@af_get_manifest E sha p save_dir repo _ _ _ Hstep)
      as (Hdirs & added & Hfiles & _).
    now apply fs_exists_grows with (f := fs st0) (added := added). }
  unfold get_manifest, try_except, get_manifest_body in Hstep.
  rewrite Hext in Hstep. unfold bind at 1 in Hstep.
  unfold os_path_exists in Hstep. rewrite Hex in Hstep.
  unfold bind at 1 in Hstep.
  destruct (get E sha p repo st0) as [[content|e] st_g] eqn:Hget.
  2:{ destruct (is_Exception e); unfold bind, log, emit, raise in Hstep;
        discriminate. }
  destruct (truthy content) eqn:Htruthy.
  2:{ right. now exists content, st0, st_g. }
  left. apply Hgrow.
  unfold bind at 1 in Hstep. unfold log, emit in Hstep.
  cbv beta iota in Hstep. unfold bind at 1 in Hstep.
  match type of Hstep with
  | context [write_file ?w ?c ?s] =>
      destruct (write_file w c s) as [[u|e] st_w] eqn:Hw
  end.
  2:{ destruct (is_Exception e); unfold bind, log, emit, raise in Hstep;
        discriminate. }
  unfold ret in Hstep. injection Hstep as _ <-.
  destruct (write_file_inv _ _ _ Hw)
    as [(_ & -> & _) | [(Hr & _) | (Hr & _)]]; try discriminate Hr.
  unfold fs_exists. cbn [fs files dirs]. apply orb_true_iff. right.
  apply mem_true_in.
  destruct (fs_put_spec (files (fs st_g)) (os_path_join save_dir p)
              match content with Some b => b | None => ""%string end)
    as [Hput _].
  apply in_map_iff. eexists. split; [|exact Hput]. reflexivity.
Qed.

End Rerun.



